(** * AutoCandidature: the CSV normalisation pipeline (improve_csv.py) and the
    outreach orchestrator (sender.py), embedded in Rocq.

    Conventions of the embedding.
    - A Python [str] is a [string].  The three library functions whose result
      depends on Unicode tables ([str.lower], [str.strip],
      [urllib.parse.unquote]) are the methods of the class [PyStr]: general
      theorems hold for every implementation, evaluations use the reference
      instance [ascii_py], which agrees with CPython wherever the argument
      and the result are ASCII text.
    - A raised exception is the [Raise] case of [result]; [try ... except] is
      a [match] on it.
    - The tracking file CHEMIN_SUIVI is explicit state: [None] when the path
      does not exist, [Some rows] when it holds the CSV rows [rows] (header
      included).  The [csv] module is the row store it is in the source:
      [csv.writer.writerow] appends a row, [csv.DictReader] iterates them,
      and a field is read back as it was written (which [csv] gives for text
      without carriage return).  Faults of the operating system
      (permissions, full disk) are outside the model.
    - process_csv_and_send_emails is embedded with multithreading off, its
      default: tasks are processed one after the other.
    - Sleeping ([time.sleep]) changes no state and is not represented. *)

From Stdlib Require Import String Ascii ZArith Bool Lia.
From stdpp Require Import gmap strings list.

Local Open Scope string_scope.
Local Open Scope Z_scope.

(** ** Exceptions *)

Inductive exn : Type :=
  | KeyError
  | AttributeError
  | TypeError
  | JSONDecodeError
  | FileNotFoundError
  | RequestException
  | OtherException.

Inductive result (A : Type) : Type :=
  | Ok (a : A)
  | Raise (e : exn).
Arguments Ok {A} a.
Arguments Raise {A} e.

#[global] Instance result_ret : MRet result := fun A a => Ok a.
#[global] Instance result_bind : MBind result := fun A B f m =>
  match m with
  | Ok a => f a
  | Raise e => Raise e
  end.

Definition is_Ok {A} (r : result A) : bool :=
  match r with Ok _ => true | Raise _ => false end.

(** ** Python string primitives *)

Class PyStr : Type := {
  lower : string -> string;      (* str.lower *)
  strip : string -> string;      (* str.strip, no argument *)
  unquote : string -> string     (* urllib.parse.unquote *)
}.

Definition eqs (a b : string) : bool := bool_decide (a = b).

Fixpoint chars (s : string) : list ascii :=
  match s with
  | EmptyString => []
  | String c r => c :: chars r
  end.

Fixpoint of_chars (l : list ascii) : string :=
  match l with
  | [] => EmptyString
  | c :: r => String c (of_chars r)
  end.

(** [sub in s]: substring test. *)
Fixpoint str_in (sub s : string) : bool :=
  String.prefix sub s ||
  match s with
  | EmptyString => false
  | String _ r => str_in sub r
  end.

(** [s.startswith(p)], [s.endswith(p)]. *)
Definition startswith (s p : string) : bool := String.prefix p s.

Definition endswith (s p : string) : bool :=
  let n := String.length s in
  let k := String.length p in
  (k <=? n)%nat && eqs (String.substring (n - k) k s) p.

(** [s.replace(c, '')] for a one-character [c]. *)
Fixpoint remove_char (c : ascii) (s : string) : string :=
  match s with
  | EmptyString => EmptyString
  | String d r => if Ascii.eqb c d then remove_char c r else String d (remove_char c r)
  end.

(** [s.split(c)] for a one-character separator: always at least one part. *)
Fixpoint split_char (c : ascii) (s : string) : list string :=
  match s with
  | EmptyString => [EmptyString]
  | String d r =>
      if Ascii.eqb c d then EmptyString :: split_char c r
      else match split_char c r with
           | p :: ps => String d p :: ps
           | [] => [String d EmptyString]
           end
  end.

(** [s.replace(old, new)] for a non-empty [old]; [fuel] bounds the scan and
    [String.length s] is enough. *)
Fixpoint replace_fuel (fuel : nat) (old new s : string) : string :=
  match fuel with
  | O => s
  | S f =>
      match s with
      | EmptyString => EmptyString
      | String c r =>
          if String.prefix old s
          then new ++ replace_fuel f old new
                 (String.substring (String.length old) (String.length s - String.length old) s)
          else String c (replace_fuel f old new r)
      end
  end.

(** A byte that continues a character of UTF-8 text (10xxxxxx). *)
Definition is_continuation_byte (c : ascii) : bool :=
  (128 <=? nat_of_ascii c)%nat && (nat_of_ascii c <? 192)%nat.

(** [s.replace('', new)]: [new] goes before every character and at the end;
    a character is a code point, which starts at a byte that is not a
    continuation byte. *)
Fixpoint intersperse_str (new s : string) : string :=
  match s with
  | EmptyString => new
  | String c r =>
      (if is_continuation_byte c then "" else new) ++ String c (intersperse_str new r)
  end.

Definition replace (old new s : string) : string :=
  match old with
  | EmptyString => intersperse_str new s
  | _ => replace_fuel (String.length s) old new s
  end.

(** *** The reference instance: CPython's behaviour on ASCII text *)

Definition is_upper (c : ascii) : bool :=
  let n := nat_of_ascii c in ((65 <=? n) && (n <=? 90))%nat.
Definition is_lower (c : ascii) : bool :=
  let n := nat_of_ascii c in ((97 <=? n) && (n <=? 122))%nat.
Definition is_digit (c : ascii) : bool :=
  let n := nat_of_ascii c in ((48 <=? n) && (n <=? 57))%nat.
Definition is_alpha (c : ascii) : bool := is_upper c || is_lower c.
Definition is_alnum (c : ascii) : bool := is_alpha c || is_digit c.
(* whitespace of ASCII: \t \n \v \f \r, \x1c-\x1f and space *)
Definition is_space (c : ascii) : bool :=
  let n := nat_of_ascii c in
  ((9 <=? n) && (n <=? 13) || (28 <=? n) && (n <=? 32))%nat.

Definition ascii_lower_char (c : ascii) : ascii :=
  if is_upper c then ascii_of_nat (nat_of_ascii c + 32) else c.

Definition ascii_lower (s : string) : string :=
  of_chars (map ascii_lower_char (chars s)).

Fixpoint lstrip_chars (l : list ascii) : list ascii :=
  match l with
  | c :: r => if is_space c then lstrip_chars r else l
  | [] => []
  end.

Definition ascii_strip (s : string) : string :=
  of_chars (rev (lstrip_chars (rev (lstrip_chars (chars s))))).

Definition hex_val (c : ascii) : option nat :=
  let n := nat_of_ascii c in
  if is_digit c then Some (n - 48)%nat
  else if ((65 <=? n) && (n <=? 70))%nat then Some (n - 55)%nat
  else if ((97 <=? n) && (n <=? 102))%nat then Some (n - 87)%nat
  else None.

(* percent-decoding; escapes that decode to a byte above 127 are outside the
   ASCII range of this instance and are kept as written *)
Fixpoint pct_decode (l : list ascii) : list ascii :=
  match l with
  | "%"%char :: r =>
      match r with
      | h :: (o :: r2) as r1 =>
          match hex_val h, hex_val o with
          | Some a, Some b =>
              if (16 * a + b <? 128)%nat
              then ascii_of_nat (16 * a + b) :: pct_decode r2
              else "%"%char :: pct_decode r
          | _, _ => "%"%char :: pct_decode r
          end
      | _ => "%"%char :: pct_decode r
      end
  | c :: r => c :: pct_decode r
  | [] => []
  end.

Definition ascii_unquote (s : string) : string := of_chars (pct_decode (chars s)).

Definition ascii_py : PyStr :=
  {| lower := ascii_lower; strip := ascii_strip; unquote := ascii_unquote |}.

(** ** sender.py: the send tracker (CHEMIN_SUIVI) *)

Definition csv_row : Type := list string.
Definition csv_file : Type := list csv_row.

(** One row as [csv.DictReader] yields it: the dict of [zip(fieldnames, row)],
    then every field name beyond the row's length bound to the rest value
    [None].  (A longer row also gets its surplus under the key [None], which
    no string key reads.) *)
Definition DictReader_row (fieldnames row : csv_row) : gmap string (option string) :=
  let zipped :=
    foldl (fun d kv => <[kv.1 := Some kv.2]> d) ∅ (zip fieldnames row) in
  foldl (fun d k => <[k := None]> d) zipped (drop (length row) fieldnames).

(** [csv.DictReader(f)]: the first row gives the field names, empty rows are
    skipped. *)
Definition DictReader (f : csv_file) : list (gmap string (option string)) :=
  match f with
  | [] => []
  | fieldnames :: rows =>
      DictReader_row fieldnames <$> filter (fun r => r ≠ []) rows
  end.

(** [row[key]] *)
Definition getitem (row : gmap string (option string)) (key : string)
  : result (option string) :=
  match row !! key with
  | Some v => Ok v
  | None => Raise KeyError
  end.

Definition suivi_header : csv_row := ["email"; "nom_entreprise"; "date_envoi"].

Section Tracker.
Context {py : PyStr}.

(** [v.lower()] on a dict value: [None] has no such method. *)
Definition lower_method (v : option string) : result string :=
  match v with
  | Some s => Ok (lower s)
  | None => Raise AttributeError
  end.

(** The [for row in reader] loop of verifier_email_deja_envoye. *)
Fixpoint verifier_rows (rows : list (gmap string (option string)))
    (email nom_entreprise : string) : result bool :=
  match rows with
  | [] => Ok false
  | row :: rest =>
      e ← getitem row "email" ≫= lower_method;
      if eqs e (lower email) then Ok true
      else
        n ← getitem row "nom_entreprise" ≫= lower_method;
        if eqs n (lower nom_entreprise) then Ok true
        else verifier_rows rest email nom_entreprise
  end.

(** verifier_email_deja_envoye (sender.py 476-497): the answer and the
    tracking file afterwards. *)
Definition verifier_email_deja_envoye (suivi : option csv_file)
    (email nom_entreprise : string) : bool * option csv_file :=
  match suivi with
  | None => (false, Some [suivi_header])
  | Some f =>
      (match verifier_rows (DictReader f) email nom_entreprise with
       | Ok b => b
       | Raise _ => false
       end, suivi)
  end.

(** enregistrer_email_envoye (sender.py 499-517); [now] is the formatted
    [datetime.now()]. *)
Definition enregistrer_email_envoye (suivi : option csv_file)
    (email nom_entreprise now : string) : bool * option csv_file :=
  let fichier_existe := bool_decide (is_Some suivi) in
  let f := default [] suivi in
  let f := if fichier_existe then f else (f ++ [suivi_header])%list in
  (true, Some (f ++ [[email; nom_entreprise; now]])%list).

(** *** The log as the data model has it *)

Record SendLogEntry : Type := {
  entry_email : string;
  entry_company : string;
  entry_date : string
}.

Definition row_of_entry (x : SendLogEntry) : csv_row :=
  [entry_email x; entry_company x; entry_date x].

(** A state of the send log: absent, or a header followed by entries. *)
Definition send_log : Type := option (list SendLogEntry).

Definition log_entries (log : send_log) : list SendLogEntry := default [] log.

Definition file_of_log (log : send_log) : option csv_file :=
  (fun l => suivi_header :: (row_of_entry <$> l)) <$> log.

Definition entry_matches (email nom_entreprise : string) (x : SendLogEntry) : Prop :=
  lower (entry_email x) = lower email \/
  lower (entry_company x) = lower nom_entreprise.

End Tracker.

(** ** sender.py: the site crawler *)

(** [urllib.parse]: [urlparse] gives (scheme, netloc, path) or raises
    ValueError; [urljoin] resolves a link against a base. *)
Class PyUrl : Type := {
  urlparse : string -> result (string * string * string);
  urljoin : string -> string -> string
}.

Record crawler_config : Type := {
  max_depth : Z;
  max_pages : Z
}.

(** The result dict of the crawler. *)
Record site_info : Type := {
  description : string;
  valeurs : list string;
  expertises : list string;
  projets : list string
}.

Definition empty_site_info : site_info :=
  {| description := ""; valeurs := []; expertises := []; projets := [] |}.

(** A page answered with status 200.  The text extraction of lines 190-263
    (BeautifulSoup) is the page's own function of the page type, of whether
    the page is the base URL and of the results so far; its boolean says that
    an exception interrupted it, in which case the links are not read. *)
Record page : Type := {
  page_extract : option string -> bool -> site_info -> site_info * bool;
  page_links : list string      (* href of every <a href=...>, in order *)
}.

Inductive fetch_outcome : Type :=
  | FetchRaises                  (* requests.get raises *)
  | FetchStatus                  (* a status other than 200 *)
  | FetchPage (p : page).

Definition target_pages : list (string * list string) :=
  [ ("about", ["a-propos"; "qui-sommes-nous"; "about"; "entreprise"; "presentation"; "societe"]);
    ("values", ["valeurs"; "values"; "notre-mission"; "mission"; "vision"; "philosophie"]);
    ("expertise", ["expertise"; "competences"; "services"; "solutions"; "offres"; "savoir-faire"]);
    ("projects", ["projets"; "realisations"; "portfolio"; "references"; "clients"]) ].

(** [any(keyword in s for keyword in keywords)] *)
Definition any_keyword_in (keywords : list string) (s : string) : bool :=
  existsb (fun keyword => str_in keyword s) keywords.

(** The first page type one of whose keywords occurs in the path. *)
Definition page_type_of (page_path : string) : option string :=
  fst <$> find (fun entry => any_keyword_in entry.2 page_path) target_pages.

Record crawl_state : Type := {
  results : site_info;
  visited_urls : gset string;
  next_depth_urls : gset string
}.

Section Crawler.
Context {py : PyStr} {pu : PyUrl}.
Variable config : crawler_config.
Variable fetch : string -> fetch_outcome.

(** Lines 266-275: the links of one page.  The boolean says that [urlparse]
    raised in the middle; the links added before it stay. *)
Fixpoint enqueue_links (base_url netloc : string) (visited : gset string)
    (links : list string) (next : gset string) : gset string * bool :=
  match links with
  | [] => (next, false)
  | href :: rest =>
      if startswith href "/" || (startswith href base_url && negb (startswith href "#"))
      then
        let full_url := urljoin base_url href in
        match urlparse full_url with
        | Raise _ => (next, true)
        | Ok (_, full_netloc, _) =>
            let next :=
              if eqs full_netloc netloc && bool_decide (full_url ∉ visited)
                 && existsb (fun entry => any_keyword_in entry.2 (lower full_url)) target_pages
              then {[ full_url ]} ∪ next
              else next in
            enqueue_links base_url netloc visited rest next
        end
      else enqueue_links base_url netloc visited rest next
  end.

(** The body of the [for current_url in current_depth_urls] loop. *)
Definition visit (base_url netloc : string) (depth : Z) (st : crawl_state)
    (current_url : string) : crawl_state :=
  if bool_decide (current_url ∈ visited_urls st) then st
  else
    let visited := {[ current_url ]} ∪ visited_urls st in
    let st := {| results := results st; visited_urls := visited;
                 next_depth_urls := next_depth_urls st |} in
    match fetch current_url with
    | FetchRaises => st
    | FetchStatus => st
    | FetchPage p =>
        match urlparse current_url with
        | Raise _ => st
        | Ok (_, _, path) =>
            let page_type := page_type_of (lower path) in
            let '(res, raised) :=
              page_extract p page_type (eqs current_url base_url) (results st) in
            let st := {| results := res; visited_urls := visited;
                         next_depth_urls := next_depth_urls st |} in
            if raised then st
            else if depth <? max_depth config - 1 then
              {| results := res; visited_urls := visited;
                 next_depth_urls :=
                   (enqueue_links base_url netloc visited (page_links p)
                      (next_depth_urls st)).1 |}
            else st
        end
    end.

(** The [while] loop of line 171; a set is iterated in the order of its
    [elements].  Every turn adds one to [depth], so [Z.to_nat (max_depth
    config)] turns of [fuel] are enough. *)
Fixpoint crawl_while (fuel : nat) (base_url netloc : string)
    (current_depth_urls : gset string) (depth : Z) (st : crawl_state) : crawl_state :=
  match fuel with
  | O => st
  | S fuel =>
      if negb (bool_decide (current_depth_urls = ∅))
         && (depth <? max_depth config)
         && (Z.of_nat (size (visited_urls st)) <? max_pages config)
      then
        let st := foldl (visit base_url netloc depth) st (elements current_depth_urls) in
        crawl_while fuel base_url netloc (next_depth_urls st) (depth + 1)
          {| results := results st; visited_urls := visited_urls st;
             next_depth_urls := ∅ |}
      else st
  end.

(** [list(set(l))[:n]] *)
Definition dedup_take (n : nat) (l : list string) : list string :=
  take n (elements (list_to_set l : gset string)).

(** The crawl proper: everything between the URL check and the final
    trimming, with the set of visited URLs it ends with. *)
Definition crawl (url : string) : result crawl_state :=
  '(scheme, netloc, _) ← urlparse url;
  let base_url := scheme ++ "://" ++ netloc in
  mret (crawl_while (Z.to_nat (max_depth config)) base_url netloc {[ base_url ]} 0
          {| results := empty_site_info; visited_urls := ∅; next_depth_urls := ∅ |}).

(** crawler_site_entreprise (sender.py 138-293) *)
Definition crawler_site_entreprise (url : string) : result site_info :=
  if eqs url "" || negb (startswith url "http://" || startswith url "https://")
  then Ok empty_site_info
  else
    st ← crawl url;
    let r := results st in
    mret {| description := description r;
            valeurs := dedup_take 5 (valeurs r);
            expertises := dedup_take 5 (expertises r);
            projets := dedup_take 3 (projets r) |}.

End Crawler.

(** *** Reference URL functions, for absolute http(s) URLs without port,
    query or fragment surprises *)

Fixpoint take_until (stop : ascii -> bool) (l : list ascii) : list ascii * list ascii :=
  match l with
  | [] => ([], [])
  | c :: r => if stop c then ([], l)
              else let '(a, b) := take_until stop r in (c :: a, b)
  end.

Definition simple_urlparse (url : string) : result (string * string * string) :=
  let '(scheme, rest) := take_until (Ascii.eqb ":") (chars url) in
  match rest with
  | ":"%char :: "/"%char :: "/"%char :: rest =>
      let '(netloc, rest) :=
        take_until (fun c => Ascii.eqb c "/" || Ascii.eqb c "?" || Ascii.eqb c "#") rest in
      let '(path, _) := take_until (fun c => Ascii.eqb c "?" || Ascii.eqb c "#") rest in
      Ok (of_chars scheme, of_chars netloc, of_chars path)
  | _ => Ok ("", "", url)
  end.

Definition simple_urljoin (base href : string) : string :=
  match simple_urlparse base with
  | Ok (scheme, netloc, _) =>
      if startswith href "//" then scheme ++ ":" ++ href
      else if startswith href "/" then scheme ++ "://" ++ netloc ++ href
      else href
  | Raise _ => href
  end.

Definition simple_url : PyUrl :=
  {| urlparse := simple_urlparse; urljoin := simple_urljoin |}.

(** ** sender.py: letter generation *)

(** What one [requests.post] of the attempt loop leads to. *)
Inductive api_outcome : Type :=
  | Status200 (content : result string)
      (* status 200; [content] is result["choices"][0]["message"]["content"],
         or the exception that reading it raises *)
  | Status429                    (* rate limit *)
  | StatusError                  (* another 4xx/5xx: raise_for_status raises HTTPError *)
  | StatusOther                  (* any other status: raise_for_status returns *)
  | PostRaises (e : exn).        (* requests.post itself raises *)

(** [except requests.exceptions.RequestException] *)
Definition is_RequestException (e : exn) : bool :=
  match e with RequestException => true | _ => false end.

Record api_config : Type := {
  max_retries : Z
}.

(** A company context: the dict [entreprise_info]. *)
Abbreviation entreprise := (gmap string string).

(** [d.get(key, default)] *)
Definition dict_get (d : gmap string string) (key dflt : string) : string :=
  default dflt (d !! key).

(** The fallback letter of lines 461-474. *)
Definition fallback_letter (entreprise_info : entreprise) : string :=
  let nom_entreprise := dict_get entreprise_info "title" "votre entreprise" in
  "Madame, Monsieur,

Je me permets de vous adresser ma candidature pour un stage en développement informatique au sein de "
  ++ nom_entreprise ++ ".

Actuellement en formation de Concepteur Développeur d'Applications, je suis à la recherche d'une opportunité de stage de 4 mois (du 10 septembre 2024 au 9 janvier 2025) pour mettre en pratique mes compétences en programmation et contribuer à des projets concrets. Votre entreprise m'intéresse particulièrement pour son expertise dans le domaine "
  ++ dict_get entreprise_info "category" "technologique" ++ ".

Au cours de ma formation et de mon précédent stage chez S2E Groupe, j'ai acquis des compétences solides en développement web (HTML, CSS, JavaScript, TypeScript, React) ainsi qu'en programmation Java et en cybersécurité. Cette expérience m'a permis de développer ma capacité à résoudre des problèmes complexes et à m'adapter rapidement à différents environnements techniques.

Je suis convaincu que mon profil correspondrait aux attentes de votre entreprise et je serais ravi de pouvoir échanger avec vous lors d'un entretien pour vous présenter plus en détail mon parcours et mes motivations.

Vous trouverez en pièce jointe mon CV détaillant mon parcours et mes compétences.

".

Section Generation.
Context {py : PyStr} {pu : PyUrl}.
Variable crawler_cfg : crawler_config.
Variable api_cfg : api_config.
Variable fetch : string -> fetch_outcome.
(** [api n]: what the n-th POST to the completion API leads to. *)
Variable api : nat -> api_outcome.
(** nettoyer_contenu_genere (lines 295-324): regular-expression clean-up of
    the generated text, total on strings; no result below depends on what it
    returns. *)
Variable nettoyer_contenu_genere : string -> string -> string.

(** The [except RequestException] handler of the attempt loop: go on to the
    next attempt, or re-raise on the last one. *)
Definition retry_or_raise {A} (attempt : Z) (e : exn) (posts : nat)
    (next : result A * nat) : result A * nat :=
  if attempt <? max_retries api_cfg - 1 then next else (Raise e, posts).

(** [for attempt in range(max_retries)], lines 422-456.  [posts] counts the
    POST requests made so far; the result carries the count afterwards. *)
Fixpoint attempt_loop (attempts : list Z) (nom_entreprise : string) (posts : nat)
  : result string * nat :=
  match attempts with
  | [] => (Raise OtherException, posts)
  | attempt :: rest =>
      let next := attempt_loop rest nom_entreprise (S posts) in
      match api posts with
      | Status200 (Ok texte) => (Ok (nettoyer_contenu_genere texte nom_entreprise), S posts)
      | Status200 (Raise e) =>
          if is_RequestException e then retry_or_raise attempt e (S posts) next
          else (Raise e, S posts)
      | Status429 => next
      | StatusError => retry_or_raise attempt RequestException (S posts) next
      | StatusOther => next
      | PostRaises e =>
          if is_RequestException e then retry_or_raise attempt e (S posts) next
          else (Raise e, S posts)
      end
  end.

(** [range(n)] *)
Definition range (n : Z) : list Z := Z.of_nat <$> seq 0 (Z.to_nat n).

(** The [try] block of generer_lettre_motivation, lines 355-456.  The prompt
    is text handed to the API and decides nothing here. *)
Definition generer_body (entreprise_info : entreprise) (posts : nat)
  : result string * nat :=
  let nom_entreprise := dict_get entreprise_info "title" "votre entreprise" in
  let website := dict_get entreprise_info "website" "" in
  let site :=
    if eqs website "" then Ok empty_site_info
    else crawler_site_entreprise crawler_cfg fetch website in
  match site with
  | Raise e => (Raise e, posts)
  | Ok _ => attempt_loop (range (max_retries api_cfg)) nom_entreprise posts
  end.

(** generer_lettre_motivation (sender.py 350-474) *)
Definition generer_lettre_motivation (entreprise_info : entreprise) (posts : nat)
  : result string * nat :=
  match generer_body entreprise_info posts with
  | (Ok texte, posts) => (Ok texte, posts)
  | (Raise _, posts) => (Ok (fallback_letter entreprise_info), posts)
  end.

End Generation.

(** ** sender.py: the orchestrator *)

(** What the run writes to the log, as far as the results below read it.
    A company name is the title cell of a row and may be None. *)
Inductive log_event : Type :=
  | LogAlreadySent (email : string) (nom_entreprise : option string)
      (* "Email déjà envoyé à ... - Ligne ignorée" *)
  | LogApiPause                                      (* "Limite d'appels API atteinte. ..." *)
  | LogDryRun (email : string)                       (* "[MODE TEST] Email simulé pour ..." *)
  | LogRecorded (email : string) (nom_entreprise : option string)
      (* "Suivi: Email envoyé à ... enregistré" *)
  | LogMailSent (email : string)                     (* "Email envoyé avec succès à ..." *)
  | LogMailError (email : string)                    (* "Erreur lors de l'envoi à ..." *)
  | LogSentryIgnored (email : string)                (* "Email ... ignoré (contient 'sentry')" *)
  | LogPreparation (email : string) (nom_entreprise : option string)
      (* "Préparation de ..." *)
  | LogNoEmail (line : Z)                            (* "Aucun email valide trouvé dans la ligne ..." *)
  | LogCvMissing                                     (* "Le CV ... n'existe pas. ..." *)
  | LogCancelled                                     (* "Opération annulée par l'utilisateur." *)
  | LogSummary (rows_processed emails_found emails_sent emails_skipped : Z)
      (* "Traitement terminé : ... lignes lues, ... emails trouvés, ...
         emails envoyés, ... emails ignorés (déjà envoyés)." *)
  | LogInputNotFound (input_file : string)           (* "Fichier ... introuvable." *)
  | LogProcessingError (e : exn).                    (* "Erreur lors du traitement du fichier CSV : ..." *)

(** Everything a run reads from outside. *)
Record world : Type := {
  w_fetch : string -> fetch_outcome;     (* the web, for the crawler *)
  w_api : nat -> api_outcome;            (* the n-th POST to the completion API *)
  w_nettoyer : string -> string -> string;  (* nettoyer_contenu_genere *)
  w_smtp : nat -> bool;
      (* whether the n-th call of envoyer_email_avec_cv gets through building
         the message and the SMTP dialogue (lines 528-646) without exception *)
  w_now : nat -> string;                 (* the clock at the n-th recording *)
  w_cv_exists : bool;                    (* os.path.exists(chemin_cv) *)
  w_confirmation : string                (* the answer typed at the prompt *)
}.

(** The mutable state of a run: the tracking file, the variables of
    process_csv_and_send_emails that traiter_email updates, the log, and how
    many POSTs, mailer calls and recordings were made. *)
Record run_state : Type := {
  suivi : option csv_file;
  lettres_cache : gmap string string;
  emails_sent : Z;
  emails_skipped : Z;
  api_calls_count : Z;
  journal : list log_event;
  posts : nat;
  mails : nat;
  recordings : nat
}.

Definition set_suivi (f : option csv_file) (st : run_state) : run_state :=
  {| suivi := f; lettres_cache := lettres_cache st; emails_sent := emails_sent st;
     emails_skipped := emails_skipped st; api_calls_count := api_calls_count st;
     journal := journal st; posts := posts st; mails := mails st;
     recordings := recordings st |}.
Definition set_cache (c : gmap string string) (st : run_state) : run_state :=
  {| suivi := suivi st; lettres_cache := c; emails_sent := emails_sent st;
     emails_skipped := emails_skipped st; api_calls_count := api_calls_count st;
     journal := journal st; posts := posts st; mails := mails st;
     recordings := recordings st |}.
Definition set_sent (n : Z) (st : run_state) : run_state :=
  {| suivi := suivi st; lettres_cache := lettres_cache st; emails_sent := n;
     emails_skipped := emails_skipped st; api_calls_count := api_calls_count st;
     journal := journal st; posts := posts st; mails := mails st;
     recordings := recordings st |}.
Definition set_skipped (n : Z) (st : run_state) : run_state :=
  {| suivi := suivi st; lettres_cache := lettres_cache st; emails_sent := emails_sent st;
     emails_skipped := n; api_calls_count := api_calls_count st;
     journal := journal st; posts := posts st; mails := mails st;
     recordings := recordings st |}.
Definition set_api_calls (n : Z) (st : run_state) : run_state :=
  {| suivi := suivi st; lettres_cache := lettres_cache st; emails_sent := emails_sent st;
     emails_skipped := emails_skipped st; api_calls_count := n;
     journal := journal st; posts := posts st; mails := mails st;
     recordings := recordings st |}.
Definition logging (ev : log_event) (st : run_state) : run_state :=
  {| suivi := suivi st; lettres_cache := lettres_cache st; emails_sent := emails_sent st;
     emails_skipped := emails_skipped st; api_calls_count := api_calls_count st;
     journal := (journal st ++ [ev])%list; posts := posts st; mails := mails st;
     recordings := recordings st |}.
Definition set_posts (n : nat) (st : run_state) : run_state :=
  {| suivi := suivi st; lettres_cache := lettres_cache st; emails_sent := emails_sent st;
     emails_skipped := emails_skipped st; api_calls_count := api_calls_count st;
     journal := journal st; posts := n; mails := mails st;
     recordings := recordings st |}.
Definition set_mails (n : nat) (st : run_state) : run_state :=
  {| suivi := suivi st; lettres_cache := lettres_cache st; emails_sent := emails_sent st;
     emails_skipped := emails_skipped st; api_calls_count := api_calls_count st;
     journal := journal st; posts := posts st; mails := n;
     recordings := recordings st |}.
Definition set_recordings (n : nat) (st : run_state) : run_state :=
  {| suivi := suivi st; lettres_cache := lettres_cache st; emails_sent := emails_sent st;
     emails_skipped := emails_skipped st; api_calls_count := api_calls_count st;
     journal := journal st; posts := posts st; mails := mails st;
     recordings := n |}.

(** A row of the input as [csv.DictReader] yields it: every field name of
    the header is bound to the text of the cell, or to None (the rest value)
    when the row is too short to have that cell. *)
Abbreviation input_row := (gmap string (option string)).

(** [row.get(key, dflt)]: the default only stands for an absent key. *)
Definition row_get (row : input_row) (key dflt : string) : option string :=
  default (Some dflt) (row !! key).

(** A send task: (email, entreprise_info, nom_entreprise).  The email is a
    string; the values of the dict and the company name come from [row.get]
    and may be None. *)
Definition task : Type := string * input_row * option string.

(** [s.replace(old, new)]: an argument that is None raises TypeError. *)
Definition replace_method (s : string) (old new : option string) : result string :=
  match old, new with
  | Some old, Some new => Ok (replace old new s)
  | _, _ => Raise TypeError
  end.

(** The text that [csv.writer] writes for a cell: None gives the empty field. *)
Definition cell_text (v : option string) : string := default "" v.

(** The dict as generer_lettre_motivation reads it.  The function formats
    title, category and city into text, where None reads "None", and tests
    the truth of website, where None is false like the empty string (lines
    355-363, 462-468); nettoyer_contenu_genere does not read the name it is
    given. *)
Definition value_text (key : string) (v : option string) : string :=
  match v with
  | Some s => s
  | None => if eqs key "website" then "" else "None"
  end.

Definition info_text (entreprise_info : input_row) : entreprise :=
  map_imap (fun key v => Some (value_text key v)) entreprise_info.

Definition api_calls_limit : Z := 10.

Section Orchestrator.
Context {py : PyStr} {pu : PyUrl}.
Variable crawler_cfg : crawler_config.
Variable api_cfg : api_config.
Variable w : world.

(** The loop of verifier_email_deja_envoye when the company name is None:
    [nom_entreprise.lower()] raises AttributeError as soon as a row is read
    whose email differs. *)
Definition verifier_rows_None (rows : list (gmap string (option string)))
    (email : string) : result bool :=
  match rows with
  | [] => Ok false
  | row :: _ =>
      e ← getitem row "email" ≫= lower_method;
      if eqs e (lower email) then Ok true
      else
        _ ← getitem row "nom_entreprise" ≫= lower_method;
        Raise AttributeError
  end.

(** The call [verifier_email_deja_envoye(email, nom_entreprise)] of line 708,
    where the company name may be None. *)
Definition verifier_call (suivi : option csv_file) (email : string)
    (nom_entreprise : option string) : bool * option csv_file :=
  match nom_entreprise with
  | Some nom => verifier_email_deja_envoye suivi email nom
  | None =>
      match suivi with
      | None => (false, Some [suivi_header])
      | Some f =>
          (match verifier_rows_None (DictReader f) email with
           | Ok b => b
           | Raise _ => false
           end, suivi)
      end
  end.

(** enregistrer_email_envoye on the state of the run. *)
Definition enregistrer (email : string) (nom_entreprise : option string)
    (st : run_state) : run_state :=
  let '(_, f) :=
    enregistrer_email_envoye (suivi st) email (cell_text nom_entreprise)
      (w_now w (recordings st)) in
  logging (LogRecorded email nom_entreprise)
    (set_recordings (S (recordings st)) (set_suivi f st)).

(** envoyer_email_avec_cv (sender.py 519-661): on success of the SMTP
    dialogue the pair is recorded and True returned; any exception is logged
    and gives False. *)
Definition envoyer_email_avec_cv (destinataire : string) (nom_entreprise : option string)
    (st : run_state) : bool * run_state :=
  let ok := w_smtp w (mails st) in
  let st := set_mails (S (mails st)) st in
  if ok then (true, logging (LogMailSent destinataire) (enregistrer destinataire nom_entreprise st))
  else (false, logging (LogMailError destinataire) st).

(** [any(entreprise_info.get('category', '') == cat for cat in lettres_cache)] *)
Definition category_cached (categorie : option string) (cache : gmap string string) : bool :=
  match categorie with
  | Some c => bool_decide (c ∈ dom cache)
  | None => false
  end.

(** traiter_email (sender.py 702-749): the state afterwards, and the
    exception that escapes the call, if any. *)
Definition traiter_email (dry_run cache_lettres : bool) (t : task) (st : run_state)
  : run_state * option exn :=
  let '(email, entreprise_info, nom_entreprise) := t in
  let '(deja, f) := verifier_call (suivi st) email nom_entreprise in
  let st := set_suivi f st in
  if deja then
    (set_skipped (emails_skipped st + 1) (logging (LogAlreadySent email nom_entreprise) st), None)
  else
    let st :=
      if negb cache_lettres
         || negb (category_cached (row_get entreprise_info "category" "") (lettres_cache st))
      then
        let st := set_api_calls (api_calls_count st + 1) st in
        if api_calls_limit <=? api_calls_count st
        then logging LogApiPause (set_api_calls 0 st)
        else st
      else st in
    let categorie := row_get entreprise_info "category" "" in
    let cache_key := if cache_lettres then categorie else None in
    (* [if cache_key and cache_key in lettres_cache]: None and the empty
       string are falsy *)
    let hit :=
      match cache_key with
      | Some k => if eqs k "" then None else lettres_cache st !! k
      | None => None
      end in
    let '(contenu_lettre, st) :=
      match hit with
      | Some cached =>
          (replace_method cached (Some "[NOM_ENTREPRISE]") nom_entreprise, st)
      | None =>
          let '(r, p) :=
            generer_lettre_motivation crawler_cfg api_cfg (w_fetch w) (w_api w)
              (w_nettoyer w) (info_text entreprise_info) (posts st) in
          let st := set_posts p st in
          match r, cache_key with
          | Ok contenu_lettre, Some k =>
              if eqs k "" then (r, st)
              else
                match replace_method contenu_lettre nom_entreprise (Some "[NOM_ENTREPRISE]") with
                | Ok marked => (r, set_cache (<[k := marked]> (lettres_cache st)) st)
                | Raise e => (Raise e, st)
                end
          | _, _ => (r, st)
          end
      end in
    match contenu_lettre with
    | Raise e => (st, Some e)
    | Ok contenu_lettre =>
        if dry_run then
          let st := enregistrer email nom_entreprise (logging (LogDryRun email) st) in
          (set_sent (emails_sent st + 1) st, None)
        else
          let '(ok, st) := envoyer_email_avec_cv email nom_entreprise st in
          if ok then (set_sent (emails_sent st + 1) st, None) else (st, None)
    end.

(** [if cache_key]: the letter cache is on and the category is a non-empty
    string. *)
Definition cache_key_set (cache_lettres : bool) (entreprise_info : input_row) : bool :=
  cache_lettres &&
  match row_get entreprise_info "category" "" with
  | Some k => negb (eqs k "")
  | None => false
  end.

(** The task raises TypeError at line 728 or 733: the cache is used and the
    company name handed to [str.replace] is None. *)
Definition replace_raises (cache_lettres : bool) (entreprise_info : input_row)
    (nom_entreprise : option string) : bool :=
  match nom_entreprise with
  | Some _ => false
  | None => cache_key_set cache_lettres entreprise_info
  end.

(** Lines 753-783: one pass over the rows of the input builds the tasks.
    [if email and '@' in email]: a cell that is None is falsy. *)
Fixpoint build_tasks (rows : list input_row) (rows_processed emails_found : Z)
    (tasks : list task) (st : run_state) : Z * Z * list task * run_state :=
  match rows with
  | [] => (rows_processed, emails_found, tasks, st)
  | row :: rest =>
      let rows_processed := rows_processed + 1 in
      match row_get row "email" "" with
      | Some email =>
          if negb (eqs email "") && str_in "@" email then
            let email := strip email in
            if str_in "sentry" (lower email) then
              build_tasks rest rows_processed emails_found tasks
                (logging (LogSentryIgnored email) st)
            else
              let entreprise_info : input_row :=
                <["phone" := row_get row "phone" ""]>
                (<["website" := row_get row "website" ""]>
                (<["country" := row_get row "country" ""]>
                (<["city" := row_get row "city" ""]>
                (<["category" := row_get row "category" ""]>
                (<["title" := row_get row "title" ""]> ∅))))) in
              let nom_entreprise := row_get row "title" "" in
              build_tasks rest rows_processed (emails_found + 1)
                (tasks ++ [(email, entreprise_info, nom_entreprise)])%list
                (logging (LogPreparation email nom_entreprise) st)
          else
            build_tasks rest rows_processed emails_found tasks
              (logging (LogNoEmail rows_processed) st)
      | None =>
          build_tasks rest rows_processed emails_found tasks
            (logging (LogNoEmail rows_processed) st)
      end
  end.

(** The sequential [for task in tasks: traiter_email(task)]. *)
Fixpoint run_tasks (dry_run cache_lettres : bool) (tasks : list task) (st : run_state)
  : run_state * option exn :=
  match tasks with
  | [] => (st, None)
  | t :: rest =>
      match traiter_email dry_run cache_lettres t st with
      | (st, None) => run_tasks dry_run cache_lettres rest st
      | (st, Some e) => (st, Some e)
      end
  end.

Definition initial_state (f : option csv_file) : run_state :=
  {| suivi := f; lettres_cache := ∅; emails_sent := 0; emails_skipped := 0;
     api_calls_count := 0; journal := []; posts := 0; mails := 0; recordings := 0 |}.

(** process_csv_and_send_emails (sender.py 663-828) with multithreading off
    (its default).  [input] is the input CSV as [csv.DictReader] yields it,
    [None] when the file does not exist; [f] is the tracking file before the
    run.  The function returns None on every path: what a run leaves is its
    final state. *)
Definition process_csv_and_send_emails (input_file : string)
    (input : option (list input_row)) (dry_run cache_lettres : bool)
    (f : option csv_file) : run_state :=
  let st := initial_state f in
  let proceed (st : run_state) : run_state :=
    match input with
    | None => logging (LogInputNotFound input_file) st
    | Some rows =>
        let '(rows_processed, emails_found, tasks, st0) := build_tasks rows 0 0 [] st in
        match run_tasks dry_run cache_lettres tasks st0 with
        | (st1, None) =>
            logging (LogSummary rows_processed emails_found (emails_sent st1) (emails_skipped st1)) st1
        | (st1, Some e) => logging (LogProcessingError e) st1
        end
    end in
  if w_cv_exists w then proceed st
  else
    let st := logging LogCvMissing st in
    if eqs (lower (w_confirmation w)) "o" then proceed st
    else logging LogCancelled st.

End Orchestrator.


(** ** improve_csv.py: regular expressions of the two email patterns *)

(** Both patterns are sequences of repeated character classes: [cls{lo,}],
    or [cls{lo,hi}] when [hi] is given. *)
Record atom : Type := {
  cls : ascii -> bool;
  lo : nat;
  hi : option nat
}.

Definition one (c : ascii) : atom := {| cls := Ascii.eqb c; lo := 1; hi := Some 1%nat |}.
Definition at_least (n : nat) (p : ascii -> bool) : atom := {| cls := p; lo := n; hi := None |}.

(** How many leading characters of [l] are in the class, up to the bound. *)
Fixpoint run_length (p : ascii -> bool) (bound : option nat) (l : list ascii) : nat :=
  match l, bound with
  | _, Some O => O
  | c :: r, _ => if p c then S (run_length p (pred <$> bound) r) else O
  | [], _ => O
  end.

(** Greedy choice with backtracking: try [i], then [i - 1], ... down to
    [lowest] characters for the current atom. *)
Fixpoint try_down {R} (k : list ascii -> option R) (l : list ascii) (i lowest : nat)
  : option R :=
  match k (drop i l) with
  | Some r => Some r
  | None =>
      match i with
      | O => None
      | S j => if (lowest <=? j)%nat then try_down k l j lowest else None
      end
  end.

(** Match the atoms at the start of [l], as Python's backtracking matcher
    does; [final] is the condition on what is left ([$] or nothing).  The
    result is the text left after the match found first. *)
Fixpoint match_atoms (atoms : list atom) (final : list ascii -> bool) (l : list ascii)
  : option (list ascii) :=
  match atoms with
  | [] => if final l then Some l else None
  | a :: rest =>
      let n := run_length (cls a) (hi a) l in
      if (n <? lo a)%nat then None
      else try_down (match_atoms rest final) l n (lo a)
  end.

Definition local_class (c : ascii) : bool :=
  is_alnum c || existsb (Ascii.eqb c) ["."; "_"; "%"; "+"; "-"]%char.
Definition domain_class (c : ascii) : bool :=
  is_alnum c || existsb (Ascii.eqb c) ["."; "-"]%char.

(** [^[A-Za-z0-9._%+\-]+@[A-Za-z0-9.\-]+\.[A-Za-z]{2,}$] *)
Definition strict_pattern : list atom :=
  [at_least 1 local_class; one "@"; at_least 1 domain_class; one "."; at_least 2 is_alpha].
(** [[A-Za-z0-9._%+\-]+@[A-Za-z0-9.\-]+\.[A-Za-z0-9]{2,}] *)
Definition permissive_pattern : list atom :=
  [at_least 1 local_class; one "@"; at_least 1 domain_class; one "."; at_least 2 is_alnum].

Definition newline : ascii := ascii_of_nat 10.

(** [$]: at the end, or just before a newline that ends the string. *)
Definition at_end (l : list ascii) : bool :=
  match l with
  | [] => true
  | [c] => Ascii.eqb c newline
  | _ => false
  end.

(** [re.match(pattern, s)] is not None, for a pattern closed by [$]. *)
Definition re_match (pattern : list atom) (s : string) : bool :=
  bool_decide (is_Some (match_atoms pattern at_end (chars s))).

(** [re.findall(pattern, s)]: the matches from left to right, each search
    starting where the last match ended. *)
Fixpoint findall_fuel (fuel : nat) (pattern : list atom) (l : list ascii) : list string :=
  match fuel with
  | O => []
  | S fuel =>
      match l with
      | [] => []
      | _ :: r =>
          match match_atoms pattern (fun _ => true) l with
          | Some rest =>
              of_chars (take (length l - length rest) l) :: findall_fuel fuel pattern rest
          | None => findall_fuel fuel pattern r
          end
      end
  end.

Definition re_findall (pattern : list atom) (s : string) : list string :=
  findall_fuel (String.length s) pattern (chars s).

(** [re.sub(r'[?#].*$', '', s)]: the dot stops at a newline, so the cut
    happens at the first [?] or [#] whose line is the last one. *)
Fixpoint strip_query (l : list ascii) : list ascii :=
  match l with
  | [] => []
  | c :: r =>
      if Ascii.eqb c "?" || Ascii.eqb c "#" then
        let '(_, after) := take_until (Ascii.eqb newline) r in
        if at_end after then after else c :: strip_query r
      else c :: strip_query r
  end.

(** ** improve_csv.py: email validation *)

(** [s.isdigit()] on ASCII text; it is only applied to text already matched
    by the ASCII classes of [strict_pattern]. *)
Definition isdigit (s : string) : bool :=
  negb (eqs s "") && forallb is_digit (chars s).

Definition invalid_extensions : list string :=
  [".png"; ".jpg"; ".jpeg"; ".gif"; ".bmp"; ".tiff"; ".webp"; ".svg"; ".ico"].

Definition generic_emails : list string :=
  ["example@"; "exemple@"; "sample@"; "test@"; "demo@";
   "@example."; "@exemple."; "@sample."; "@test."; "@demo.";
   "john.doe@"; "jane.doe@"; "user@"; "info@example"; "contact@example"].

Section Validation.
Context {py : PyStr}.

(** is_valid_email (improve_csv.py 18-74) *)
Definition is_valid_email (email : string) : bool :=
  if eqs email "" || (String.length email <? 5)%nat then false
  else
    let email := if str_in "%" email then unquote email else email in
    let email := remove_char " " (strip email) in
    if existsb (fun ext => endswith (lower email) ext) invalid_extensions then false
    else if negb (re_match strict_pattern email) then false
    else
      let parts := split_char "@" email in
      match parts with
      | [local; domain] =>
          if eqs local "" || eqs domain "" then false
          else
            let domain_parts := split_char "." domain in
            let tld := List.last domain_parts "" in
            if (length domain_parts <? 2)%nat || eqs tld "" || (String.length tld <? 2)%nat
            then false
            else if isdigit tld then false
            else
              let email_lower := lower email in
              negb (existsb (fun generic => str_in generic email_lower) generic_emails)
      | _ => false
      end.

(** clean_email (improve_csv.py 76-89) *)
Definition clean_email (email : string) : string :=
  if eqs email "" then email
  else
    let email := if str_in "%" email then unquote email else email in
    remove_char " " (strip email).

(** The test of line 132: the candidate is rejected when this holds. *)
Definition rejected (processed_emails : gset string) (email : string) : bool :=
  negb (is_valid_email email)
  || str_in "sentry" (lower email)
  || bool_decide (lower email ∈ processed_emails).

End Validation.

(** ** improve_csv.py: embedded JSON *)

Definition dquote : ascii := ascii_of_nat 34.
Definition backslash : ascii := ascii_of_nat 92.

(** clean_json_string (improve_csv.py 7-16) *)
Definition clean_json_string (json_str : string) : string :=
  if eqs json_str "" then json_str
  else
    let json_str :=
      replace (of_chars [backslash; dquote]) (of_chars [dquote]) json_str in
    if startswith json_str (of_chars [dquote]) && endswith json_str (of_chars [dquote])
    then String.substring 1 (String.length json_str - 2) json_str
    else json_str.

(** A value as [json.loads] returns it; a number keeps its text, an object
    its members in source order. *)
#[local] Set Warnings "-register-all".
Inductive json : Type :=
  | JNull
  | JBool (b : bool)
  | JNum (text : string)
  | JStr (s : string)
  | JArr (items : list json)
  | JObj (members : list (string * json)).

(** [v.get(key, dflt)]: only a dict has the method; of a repeated key the
    last value counts. *)
Definition json_get (v : json) (key : string) (dflt : json) : result json :=
  match v with
  | JObj members =>
      Ok (default dflt (snd <$> find (fun m => eqs m.1 key) (rev members)))
  | _ => Raise AttributeError
  end.

(** *** A reader for the JSON grammar, standing for [json.loads] *)

Definition json_ws (c : ascii) : bool :=
  existsb (Nat.eqb (nat_of_ascii c)) [32; 9; 10; 13]%nat.

Fixpoint skip_ws (l : list ascii) : list ascii :=
  match l with
  | c :: r => if json_ws c then skip_ws r else l
  | [] => []
  end.

(** UTF-8 bytes of a code point. *)
Definition utf8 (cp : nat) : list ascii :=
  if (cp <? 128)%nat then [ascii_of_nat cp]
  else if (cp <? 2048)%nat then
    [ascii_of_nat (192 + cp / 64); ascii_of_nat (128 + cp mod 64)]
  else if (cp <? 256 * 256)%nat then
    [ascii_of_nat (224 + cp / 4096); ascii_of_nat (128 + (cp / 64) mod 64);
     ascii_of_nat (128 + cp mod 64)]
  else [ascii_of_nat (240 + cp / (64 * 4096)); ascii_of_nat (128 + (cp / 4096) mod 64);
        ascii_of_nat (128 + (cp / 64) mod 64); ascii_of_nat (128 + cp mod 64)].

(** The two halves of a surrogate pair (D800-DBFF, DC00-DFFF), and the code
    point they stand for. *)
Definition is_high_surrogate (cp : nat) : bool :=
  (216 * 256 <=? cp)%nat && (cp <? 220 * 256)%nat.
Definition is_low_surrogate (cp : nat) : bool :=
  (220 * 256 <=? cp)%nat && (cp <? 224 * 256)%nat.
Definition join_surrogates (hi lo : nat) : nat :=
  (256 * 256 + (hi - 216 * 256) * 1024 + (lo - 220 * 256))%nat.

Definition hex4 (a b c d : ascii) : option nat :=
  match hex_val a, hex_val b, hex_val c, hex_val d with
  | Some a, Some b, Some c, Some d => Some (((a * 16 + b) * 16 + c) * 16 + d)%nat
  | _, _, _, _ => None
  end.

(** After the opening quote: the string's text and what follows the closing
    quote. *)
Fixpoint read_string (l : list ascii) (acc : list ascii) : option (string * list ascii) :=
  match l with
  | [] => None
  | c :: r =>
      if Ascii.eqb c dquote then Some (of_chars (rev acc), r)
      else if Ascii.eqb c backslash then
        match r with
        | [] => None
        | e :: r1 =>
            if Ascii.eqb e "u" then
              match r1 with
              | a :: b :: c :: d :: r2 =>
                  match hex4 a b c d with
                  | Some cp =>
                      let alone := read_string r2 (rev (utf8 cp) ++ acc)%list in
                      (* a high surrogate followed by the escape of a low one
                         is one character *)
                      match r2 with
                      | b' :: u' :: a2 :: b2 :: c2 :: d2 :: r3 =>
                          if is_high_surrogate cp && Ascii.eqb b' backslash && Ascii.eqb u' "u"
                          then
                            match hex4 a2 b2 c2 d2 with
                            | Some lo =>
                                if is_low_surrogate lo
                                then read_string r3
                                       (rev (utf8 (join_surrogates cp lo)) ++ acc)%list
                                else alone
                            | None => None
                            end
                          else alone
                      | _ => alone
                      end
                  | None => None
                  end
              | _ => None
              end
            else
              let plain (x : ascii) := read_string r1 (x :: acc) in
              if Ascii.eqb e dquote then plain dquote
              else if Ascii.eqb e backslash then plain backslash
              else if Ascii.eqb e "/" then plain "/"%char
              else if Ascii.eqb e "b" then plain (ascii_of_nat 8)
              else if Ascii.eqb e "f" then plain (ascii_of_nat 12)
              else if Ascii.eqb e "n" then plain (ascii_of_nat 10)
              else if Ascii.eqb e "r" then plain (ascii_of_nat 13)
              else if Ascii.eqb e "t" then plain (ascii_of_nat 9)
              else None
        end
      else if (nat_of_ascii c <? 32)%nat then None
      else read_string r (c :: acc)
  end.

Definition span (p : ascii -> bool) (l : list ascii) : list ascii * list ascii :=
  take_until (fun c => negb (p c)) l.

(** A number: an optional minus, 0 or a digit string without leading zero,
    then optionally a dot with digits, then optionally an exponent. *)
Definition read_number (l : list ascii) : option (string * list ascii) :=
  let '(sign, l1) :=
    match l with
    | "-"%char :: r => (["-"%char], r)
    | _ => ([], l)
    end in
  let int_part :=
    match l1 with
    | "0"%char :: r => Some (["0"%char], r)
    | c :: _ => if is_digit c then Some (span is_digit l1) else None
    | [] => None
    end in
  match int_part with
  | None => None
  | Some (digits, l2) =>
      let '(frac, l3) :=
        match l2 with
        | "."%char :: r =>
            match span is_digit r with
            | ([], _) => ([], l2)
            | (ds, r') => ("."%char :: ds, r')
            end
        | _ => ([], l2)
        end in
      let '(expo, l4) :=
        match l3 with
        | e :: r =>
            if Ascii.eqb e "e" || Ascii.eqb e "E" then
              let '(sg, r1) :=
                match r with
                | s :: r' => if Ascii.eqb s "+" || Ascii.eqb s "-" then ([s], r') else ([], r)
                | [] => ([], r)
                end in
              match span is_digit r1 with
              | ([], _) => ([], l3)
              | (ds, r') => (e :: sg ++ ds, r')%list
              end
            else ([], l3)
        | [] => ([], l3)
        end in
      Some (of_chars (sign ++ digits ++ frac ++ expo)%list, l4)
  end.

Definition read_literal (l : list ascii) : option (json * list ascii) :=
  let s := of_chars l in
  let after (w : string) : list ascii := drop (String.length w) l in
  if String.prefix "null" s then Some (JNull, after "null")
  else if String.prefix "true" s then Some (JBool true, after "true")
  else if String.prefix "false" s then Some (JBool false, after "false")
  else if String.prefix "NaN" s then Some (JNum "NaN", after "NaN")
  else if String.prefix "Infinity" s then Some (JNum "Infinity", after "Infinity")
  else if String.prefix "-Infinity" s then Some (JNum "-Infinity", after "-Infinity")
  else None.

(** The items of an array after [[] and white space, the first item being
    there; [value] reads one value. *)
Fixpoint read_items (value : list ascii -> option (json * list ascii)) (fuel : nat)
    (l : list ascii) (acc : list json) : option (json * list ascii) :=
  match fuel with
  | O => None
  | S fuel =>
      match value l with
      | None => None
      | Some (v, r) =>
          match skip_ws r with
          | "]"%char :: r' => Some (JArr (rev (v :: acc)), r')
          | ","%char :: r' => read_items value fuel (skip_ws r') (v :: acc)
          | _ => None
          end
      end
  end.

(** The members of an object after [{] and white space, the first key being
    there. *)
Fixpoint read_members (value : list ascii -> option (json * list ascii)) (fuel : nat)
    (l : list ascii) (acc : list (string * json)) : option (json * list ascii) :=
  match fuel with
  | O => None
  | S fuel =>
      match l with
      | c :: r =>
          if Ascii.eqb c dquote then
            match read_string r [] with
            | None => None
            | Some (key, r1) =>
                match skip_ws r1 with
                | ":"%char :: r2 =>
                    match value (skip_ws r2) with
                    | None => None
                    | Some (v, r3) =>
                        match skip_ws r3 with
                        | "}"%char :: r4 => Some (JObj (rev ((key, v) :: acc)), r4)
                        | ","%char :: r4 =>
                            read_members value fuel (skip_ws r4) ((key, v) :: acc)
                        | _ => None
                        end
                    end
                | _ => None
                end
            end
          else None
      | [] => None
      end
  end.

Fixpoint read_value (fuel : nat) (l : list ascii) : option (json * list ascii) :=
  match fuel with
  | O => None
  | S fuel =>
      match l with
      | [] => None
      | c :: r =>
          if Ascii.eqb c dquote then
            match read_string r [] with
            | Some (s, r') => Some (JStr s, r')
            | None => None
            end
          else if Ascii.eqb c "{" then
            match skip_ws r with
            | "}"%char :: r' => Some (JObj [], r')
            | r' => read_members (read_value fuel) (length r') r' []
            end
          else if Ascii.eqb c "[" then
            match skip_ws r with
            | "]"%char :: r' => Some (JArr [], r')
            | r' => read_items (read_value fuel) (length r') r' []
            end
          else
            match read_literal l with
            | Some res => Some res
            | None =>
                match read_number l with
                | Some (n, r') => Some (JNum n, r')
                | None => None
                end
            end
      end
  end.

(** [json.loads(s)]: the value, or JSONDecodeError. *)
Definition json_loads (s : string) : result json :=
  let l := skip_ws (chars s) in
  match read_value (S (length l)) l with
  | Some (v, r) =>
      match skip_ws r with
      | [] => Ok v
      | _ => Raise JSONDecodeError
      end
  | None => Raise JSONDecodeError
  end.

(** Text written with apostrophes where the JSON has double quotes. *)
Definition quoted (s : string) : string :=
  of_chars ((fun c => if Ascii.eqb c "'" then dquote else c) <$> chars s).

(** ** improve_csv.py: the pipeline *)

(** One output row ([new_row]).  The fields read from embedded JSON hold
    whatever value the JSON has under the key. *)
Record new_row : Type := {
  nr_email : string;
  nr_title : string;
  nr_category : string;
  nr_address : string;
  nr_website : string;
  nr_phone : string;
  nr_link : string;
  nr_clean_link : string;
  nr_owner_id : json;
  nr_owner_name : string;
  nr_street : json;
  nr_city : json;
  nr_postal_code : json;
  nr_country : json;
  nr_has_wheelchair_accessible_parking : string
}.

Inductive print_event : Type :=
  | PrintOwnerError (line : Z)          (* "Erreur lors du décodage de owner à la ligne ..." *)
  | PrintAddressError (line : Z)        (* "Erreur lors du décodage de complete_address ..." *)
  | PrintNoEmail (line : Z)             (* "Aucun email trouvé à la ligne ..." *)
  | PrintEmptyColumn (line : Z)         (* "Colonne 'emails' vide à la ligne ..." *)
  | PrintDone (rows_processed emails_found emails_rejected : Z)
      (* "Amélioration terminée. ... lignes traitées, ... emails extraits, ... emails rejetés." *)
  | PrintSaved (output_file : string)   (* "Résultat enregistré dans ..." *)
  | PrintNotFound (input_file : string) (* "Erreur: Fichier ... introuvable." *)
  | PrintError (e : exn)                (* "Erreur: ..." and the traceback *)
  | PrintUsage.                         (* "Usage: ..." *)

(** [except (json.JSONDecodeError, TypeError)] *)
Definition caught_by_json_handler (e : exn) : bool :=
  match e with
  | JSONDecodeError | TypeError => true
  | _ => false
  end.

(** The four address fields. *)
Record address : Type := {
  street : json;
  city : json;
  postal_code : json;
  country : json
}.

Definition empty_address : address :=
  {| street := JStr ""; city := JStr ""; postal_code := JStr ""; country := JStr "" |}.

(** Lines 173-193, the spec's parse_address, on the value of
    [row.get('complete_address')]: the fields, whether the decoding error
    handler ran, or the exception that escapes. *)
Definition parse_address (raw : option string) : result (address * bool) :=
  let body : result address :=
    match raw with
    | None => Ok empty_address
    | Some s =>
        if eqs s "" then Ok empty_address
        else
          address_data ← json_loads (clean_json_string s);
          street ← json_get address_data "street" (JStr "");
          city ← json_get address_data "city" (JStr "");
          postal_code ← json_get address_data "postal_code" (JStr "");
          country ← json_get address_data "country" (JStr "");
          mret {| street := street; city := city; postal_code := postal_code;
                  country := country |}
    end in
  match body with
  | Ok a => Ok (a, false)
  | Raise e => if caught_by_json_handler e then Ok (empty_address, true) else Raise e
  end.

(** Lines 157-171, the spec's parse_owner, on the value of
    [row.get('owner')]. *)
Definition parse_owner (raw : option string) : result (json * string * bool) :=
  let body : result (json * string) :=
    match raw with
    | None => Ok (JStr "", "")
    | Some s =>
        if eqs s "" then Ok (JStr "", "")
        else
          owner_data ← json_loads (clean_json_string s);
          owner_id ← json_get owner_data "id" (JStr "");
          name ← json_get owner_data "name" (JStr "");
          match name with
          | JStr n => Ok (owner_id, replace " (propriétaire)" "" n)
          | _ => Raise AttributeError
          end
    end in
  match body with
  | Ok (i, n) => Ok (i, n, false)
  | Raise e => if caught_by_json_handler e then Ok (JStr "", "", true) else Raise e
  end.

(** The variables of improve_csv and what it has written and printed. *)
Record pipeline_state : Type := {
  rows_processed : Z;
  emails_found : Z;
  emails_rejected : Z;
  processed_emails : gset string;
  written : list new_row;
  printed : list print_event
}.

Definition print (ev : print_event) (st : pipeline_state) : pipeline_state :=
  {| rows_processed := rows_processed st; emails_found := emails_found st;
     emails_rejected := emails_rejected st; processed_emails := processed_emails st;
     written := written st; printed := (printed st ++ [ev])%list |}.

Definition print_if (b : bool) (ev : print_event) (st : pipeline_state) : pipeline_state :=
  if b then print ev st else st.

Section Pipeline.
Context {py : PyStr}.
(** Lines 195-216: the wheelchair flag read from the column [about], 'Oui'
    or 'Non', or the exception that escapes.  Its test [enabled == True]
    rests on Python's equality of numbers and booleans; no result below
    reads the flag. *)
Variable parse_amenities : gmap string string -> result string.

(** Lines 139-219: the output row for one accepted email. *)
Definition build_row (row : gmap string string) (email : string) (st : pipeline_state)
  : pipeline_state * option exn :=
  let link := dict_get row "link" "" in
  let clean_link := if eqs link "" then link else of_chars (strip_query (chars link)) in
  match parse_owner (row !! "owner") with
  | Raise e => (st, Some e)
  | Ok (owner_id, owner_name, owner_err) =>
      let st := print_if (owner_err && (rows_processed st <=? 2))
                  (PrintOwnerError (rows_processed st)) st in
      match parse_address (row !! "complete_address") with
      | Raise e => (st, Some e)
      | Ok (a, address_err) =>
          let st := print_if (address_err && (rows_processed st <=? 2))
                      (PrintAddressError (rows_processed st)) st in
          match parse_amenities row with
          | Raise e => (st, Some e)
          | Ok has_wheelchair =>
              let new_row :=
                {| nr_email := email;
                   nr_title := dict_get row "title" "";
                   nr_category := dict_get row "category" "";
                   nr_address := dict_get row "address" "";
                   nr_website := dict_get row "website" "";
                   nr_phone := dict_get row "phone" "";
                   nr_link := link;
                   nr_clean_link := clean_link;
                   nr_owner_id := owner_id;
                   nr_owner_name := owner_name;
                   nr_street := street a;
                   nr_city := city a;
                   nr_postal_code := postal_code a;
                   nr_country := country a;
                   nr_has_wheelchair_accessible_parking := has_wheelchair |} in
              ({| rows_processed := rows_processed st; emails_found := emails_found st;
                  emails_rejected := emails_rejected st;
                  processed_emails := processed_emails st;
                  written := (written st ++ [new_row])%list; printed := printed st |}, None)
          end
      end
  end.

(** Lines 127-219: [for email in potential_emails]. *)
Fixpoint process_emails (row : gmap string string) (potential_emails : list string)
    (st : pipeline_state) : pipeline_state * option exn :=
  match potential_emails with
  | [] => (st, None)
  | email :: rest =>
      let email := clean_email email in
      if rejected (processed_emails st) email then
        process_emails row rest
          {| rows_processed := rows_processed st; emails_found := emails_found st;
             emails_rejected := emails_rejected st + 1;
             processed_emails := processed_emails st;
             written := written st; printed := printed st |}
      else
        let st :=
          {| rows_processed := rows_processed st; emails_found := emails_found st + 1;
             emails_rejected := emails_rejected st;
             processed_emails := {[ lower email ]} ∪ processed_emails st;
             written := written st; printed := printed st |} in
        match build_row row email st with
        | (st, None) => process_emails row rest st
        | (st, Some e) => (st, Some e)
        end
  end.

(** Lines 115-225: [for row in reader]. *)
Fixpoint process_rows (rows : list (gmap string string)) (st : pipeline_state)
  : pipeline_state * option exn :=
  match rows with
  | [] => (st, None)
  | row :: rest =>
      let st :=
        {| rows_processed := rows_processed st + 1; emails_found := emails_found st;
           emails_rejected := emails_rejected st; processed_emails := processed_emails st;
           written := written st; printed := printed st |} in
      let emails_str := dict_get row "emails" "" in
      if eqs emails_str "" then
        process_rows rest
          (print_if (rows_processed st <=? 5) (PrintEmptyColumn (rows_processed st)) st)
      else
        match re_findall permissive_pattern emails_str with
        | [] =>
            process_rows rest
              (print_if (rows_processed st <=? 5) (PrintNoEmail (rows_processed st)) st)
        | potential_emails =>
            match process_emails row potential_emails st with
            | (st, None) => process_rows rest st
            | (st, Some e) => (st, Some e)
            end
        end
  end.

Definition initial_pipeline_state : pipeline_state :=
  {| rows_processed := 0; emails_found := 0; emails_rejected := 0;
     processed_emails := ∅; written := []; printed := [] |}.

(** improve_csv (improve_csv.py 91-238).  [input] is the input CSV as
    [csv.DictReader] yields it, [None] when the file does not exist.  The
    result is the returned boolean and the final state. *)
Definition improve_csv (input_file : string) (input : option (list (gmap string string)))
    (output_file : string) : bool * pipeline_state :=
  match input with
  | None => (false, print (PrintNotFound input_file) initial_pipeline_state)
  | Some rows =>
      match process_rows rows initial_pipeline_state with
      | (st, None) =>
          (true, print (PrintSaved output_file)
                   (print (PrintDone (rows_processed st) (emails_found st) (emails_rejected st)) st))
      | (st, Some e) => (false, print (PrintError e) st)
      end
  end.


End Pipeline.

(** The run goes past the question about a missing CV. *)
Definition proceeds {py : PyStr} (w : world) : bool :=
  w_cv_exists w || eqs (lower (w_confirmation w)) "o".

(** What holds of the rows written so far: their emails differ pairwise up to
    case, each is in the set of processed emails, none contains "sentry". *)
Definition written_ok {py : PyStr} (st : pipeline_state) : Prop :=
  NoDup (lower <$> (nr_email <$> written st)) /\
  (forall r, r ∈ written st -> lower (nr_email r) ∈ processed_emails st) /\
  Forall (fun r => str_in "sentry" (lower (nr_email r)) = false) (written st).

(** ** Concrete inputs used by the examples below *)

Definition plain_page (links : list string) : fetch_outcome :=
  FetchPage {| page_extract := fun _ _ r => (r, false); page_links := links |}.

(** A site whose home page links to three pages with target keywords. *)
Definition small_site (url : string) : fetch_outcome :=
  if eqs url "http://a.fr" then plain_page ["/about"; "/services"; "/projets"]
  else plain_page [].

Definition two_pages : crawler_config := {| max_depth := 3; max_pages := 2 |}.

Definition default_crawler : crawler_config := {| max_depth := 3; max_pages := 20 |}.
Definition default_api : api_config := {| max_retries := 5 |}.

(** A world where the API always answers 429 and the mailer always fails. *)
Definition hostile_world : world :=
  {| w_fetch := small_site;
     w_api := fun _ => Status429;
     w_nettoyer := fun texte _ => texte;
     w_smtp := fun _ => false;
     w_now := fun _ => "2024-09-10 08:00:00";
     w_cv_exists := true;
     w_confirmation := "" |}.

Definition acme_row : gmap string string :=
  <["email" := "contact@acme.fr"]>
  (<["title" := "Acme"]> (<["category" := "Informatique"]> ∅)).

(** The same row as [csv.DictReader] yields it, every cell present. *)
Definition acme_line : input_row :=
  <["email" := Some "contact@acme.fr"]>
  (<["title" := Some "Acme"]> (<["category" := Some "Informatique"]> ∅)).

(** A row that stops after its second cell under the header
    email,category,title: the title is None. *)
Definition short_line : input_row :=
  <["email" := Some "rh@beta.fr"]>
  (<["category" := Some "Informatique"]> (<["title" := None]> ∅)).


(** Two dry runs in a row over the one-row input, starting without tracking
    file, and one live run against the failing mailer. *)
Definition acme_dry_run1 : run_state :=
  process_csv_and_send_emails (py := ascii_py) (pu := simple_url) default_crawler
    default_api hostile_world "in.csv" (Some [acme_line]) true true None.
Definition acme_dry_run2 : run_state :=
  process_csv_and_send_emails (py := ascii_py) (pu := simple_url) default_crawler
    default_api hostile_world "in.csv" (Some [acme_line]) true true (suivi acme_dry_run1).
Definition acme_live_run : run_state :=
  process_csv_and_send_emails (py := ascii_py) (pu := simple_url) default_crawler
    default_api hostile_world "in.csv" (Some [acme_line]) false true None.


(** ** Notions used to state further properties *)

(** The task that lines 758-781 build from one input row, [None] when the
    row is skipped. *)
Definition task_of_row {py : PyStr} (row : input_row) : option task :=
  match row_get row "email" "" with
  | Some email =>
      if negb (eqs email "") && str_in "@" email then
        let email := strip email in
        if str_in "sentry" (lower email) then None
        else
          Some (email,
                <["phone" := row_get row "phone" ""]>
                (<["website" := row_get row "website" ""]>
                (<["country" := row_get row "country" ""]>
                (<["city" := row_get row "city" ""]>
                (<["category" := row_get row "category" ""]>
                (<["title" := row_get row "title" ""]> ∅))))),
                row_get row "title" "")
      else None
  | None => None
  end.

Definition tasks_of_rows {py : PyStr} (rows : list input_row) : list task :=
  omap task_of_row rows.

(** The row has its title cell: the title is a string (the empty one when
    the header has no such column), not the None of a row that stops before
    that column. *)
Definition has_title (row : input_row) : Prop := is_Some (row_get row "title" "").

(** The task carries a company name that is a string. *)
Definition named (t : task) : Prop := is_Some t.2.

Definition set_journal (j : list log_event) (st : run_state) : run_state :=
  {| suivi := suivi st; lettres_cache := lettres_cache st; emails_sent := emails_sent st;
     emails_skipped := emails_skipped st; api_calls_count := api_calls_count st;
     journal := j; posts := posts st; mails := mails st;
     recordings := recordings st |}.


(** Each entry of [added] matches, on email or on company name up to case,
    no entry before it, in [base] or in [added]. *)
Fixpoint fresh_entries {py : PyStr} (base added : list SendLogEntry) : Prop :=
  match added with
  | [] => True
  | x :: rest =>
      (forall y, y ∈ base -> ~ entry_matches (entry_email x) (entry_company x) y) /\
      fresh_entries (base ++ [x])%list rest
  end.

(** A URL of the site being crawled: the base URL itself, or a URL that
    [urlparse] places on the host [netloc] and that contains one of the
    target keywords. *)
Definition on_site {py : PyStr} {pu : PyUrl} (base_url netloc u : string) : Prop :=
  u = base_url \/
  ((exists scheme path, urlparse u = Ok (scheme, netloc, path)) /\
   existsb (fun entry => any_keyword_in entry.2 (lower u)) target_pages = true).

(** The candidates of a whole input: what the permissive pattern finds in
    the column [emails] of each row, in order. *)
Definition candidates (rows : list (gmap string string)) : list string :=
  concat ((fun row => re_findall permissive_pattern (dict_get row "emails" "")) <$> rows).

(** The output row [r] was made from the input row [row]: its email is a
    cleaned candidate of the row that passes is_valid_email, and its plain
    columns are those of the row. *)
Definition made_from {py : PyStr} (row : gmap string string) (r : new_row) : Prop :=
  (exists candidate,
     candidate ∈ re_findall permissive_pattern (dict_get row "emails" "") /\
     nr_email r = clean_email candidate) /\
  is_valid_email (nr_email r) = true /\
  nr_title r = dict_get row "title" "" /\
  nr_category r = dict_get row "category" "" /\
  nr_address r = dict_get row "address" "" /\
  nr_website r = dict_get row "website" "" /\
  nr_phone r = dict_get row "phone" "" /\
  nr_link r = dict_get row "link" "".

(** The two characters at which [strip_query] cuts. *)
Definition is_query_start (c : ascii) : bool := Ascii.eqb c "?" || Ascii.eqb c "#".

(** The text [l] is a segment for each atom in turn: characters of the
    atom's class, as many as the atom allows. *)
Fixpoint segments (atoms : list atom) (segs : list (list ascii)) : Prop :=
  match atoms, segs with
  | [], [] => True
  | a :: atoms, seg :: segs =>
      Forall (fun c => cls a c = true) seg /\
      (lo a <= length seg)%nat /\
      (forall h, hi a = Some h -> (length seg <= h)%nat) /\
      segments atoms segs
  | _, _ => False
  end.

(** [local@domain.tld]: a local part and a domain of one character or more
    in their classes, and a last part of two characters or more in the
    class [last]. *)
Definition email_shaped (last : ascii -> bool) (l : list ascii) : Prop :=
  exists local domain tld,
    l = (local ++ "@"%char :: domain ++ "."%char :: tld)%list /\
    local <> [] /\ Forall (fun c => local_class c = true) local /\
    domain <> [] /\ Forall (fun c => domain_class c = true) domain /\
    (2 <= length tld)%nat /\ Forall (fun c => last c = true) tld.

(** ** improve_csv.py: the wheelchair flag (lines 195-216) *)

Definition accessible_parking : string := "Parking accessible en fauteuil roulant".

(** [v == s] for a decoded value and a string. *)
Definition json_is_str (v : json) (s : string) : bool :=
  match v with
  | JStr t => eqs t s
  | _ => false
  end.

(** [v == True] for a decoded value.  Python compares numbers with booleans
    by value; [num_is_one text] says whether the number written [text]
    equals 1. *)
Definition equals_True (num_is_one : string -> bool) (v : json) : bool :=
  match v with
  | JBool b => b
  | JNum text => num_is_one text
  | _ => false
  end.

(** The keys of a dict in the order of their first insertion. *)
Fixpoint dict_keys (members : list (string * json)) (seen : list string) : list string :=
  match members with
  | [] => []
  | (k, _) :: rest =>
      if bool_decide (k ∈ seen) then dict_keys rest seen
      else k :: dict_keys rest (k :: seen)
  end.

(** What [for option in v] iterates over: the items of a list, the
    characters of a string, the keys of a dict; anything else is not
    iterable. *)
Definition iterate (v : json) : result (list json) :=
  match v with
  | JArr items => Ok items
  | JStr s => Ok ((fun c => JStr (String c EmptyString)) <$> chars s)
  | JObj members => Ok (JStr <$> dict_keys members [])
  | _ => Raise TypeError
  end.

(** The loop over the options of one group: whether the [break] was
    reached, or the exception raised by [option.get]. *)
Fixpoint scan_options (num_is_one : string -> bool) (options : list json) : result bool :=
  match options with
  | [] => Ok false
  | option :: rest =>
      name ← json_get option "name" JNull;
      if json_is_str name accessible_parking then
        enabled ← json_get option "enabled" JNull;
        if equals_True num_is_one enabled then Ok true
        else scan_options num_is_one rest
      else scan_options num_is_one rest
  end.

(** The loop over the groups: the flag so far, and the exception that ends
    the loop, if any. *)
Fixpoint scan_items (num_is_one : string -> bool) (items : list json) (found : bool)
  : bool * option exn :=
  match items with
  | [] => (found, None)
  | item :: rest =>
      match item with
      | JObj _ =>
          match json_get item "id" JNull with
          | Raise e => (found, Some e)
          | Ok id =>
              if json_is_str id "accessibility" then
                match json_get item "options" (JArr []) ≫= iterate with
                | Raise e => (found, Some e)
                | Ok options =>
                    match scan_options num_is_one options with
                    | Raise e => (found, Some e)
                    | Ok hit => scan_items num_is_one rest (found || hit)
                    end
                end
              else scan_items num_is_one rest found
          end
      | _ => scan_items num_is_one rest found
      end
  end.

(** The flag computed from the column [about]: 'Oui' or 'Non', or the
    exception that the handler does not catch. *)
Definition parse_amenities {py : PyStr} (num_is_one : string -> bool)
    (row : gmap string string) : result string :=
  let about_str := dict_get row "about" "" in
  let '(found, exc) :=
    if negb (eqs about_str "") && negb (eqs (lower about_str) "null")
       && negb (eqs about_str "")
    then
      match json_loads (clean_json_string about_str) with
      | Raise e => (false, Some e)
      | Ok (JArr (item :: items)) => scan_items num_is_one (item :: items) false
      | Ok _ => (false, None)
      end
    else (false, None) in
  let has_wheelchair := if found then "Oui" else "Non" in
  match exc with
  | None => Ok has_wheelchair
  | Some e => if caught_by_json_handler e then Ok has_wheelchair else Raise e
  end.

(** An option that [option.get] accepts and that carries the name and an
    enabled value equal to True. *)
Definition is_parking_option (num_is_one : string -> bool) (option : json) : bool :=
  match option with
  | JObj _ =>
      match json_get option "name" JNull, json_get option "enabled" JNull with
      | Ok name, Ok enabled =>
          json_is_str name accessible_parking && equals_True num_is_one enabled
      | _, _ => false
      end
  | _ => false
  end.

(** A group with id "accessibility" whose options are a list holding such
    an option. *)
Definition offers_parking (num_is_one : string -> bool) (item : json) : bool :=
  match item with
  | JObj _ =>
      match json_get item "id" JNull, json_get item "options" (JArr []) with
      | Ok id, Ok (JArr options) =>
          json_is_str id "accessibility" && existsb (is_parking_option num_is_one) options
      | _, _ => false
      end
  | _ => false
  end.

(** The shape the loops expect: every group with id "accessibility" has a
    list of objects as options. *)
Definition well_shaped_item (item : json) : Prop :=
  match item with
  | JObj _ =>
      match json_get item "id" JNull, json_get item "options" (JArr []) with
      | Ok id, Ok options =>
          json_is_str id "accessibility" = true ->
          exists l, options = JArr l /\ Forall (fun o => exists m, o = JObj m) l
      | _, _ => True
      end
  | _ => True
  end.

(** ** Further concrete inputs *)

(** An API that answers 429 twice, then a letter. *)
Definition flaky_api (n : nat) : api_outcome :=
  if (n <? 2)%nat then Status429 else Status200 (Ok "Bonjour").

(** A second company of the category of [acme_row]. *)
Definition beta_row : input_row :=
  <["email" := Some "rh@beta.fr"]>
  (<["title" := Some "Beta"]> (<["category" := Some "Informatique"]> ∅)).

(** A site on which no request succeeds. *)
Definition dead_site (url : string) : fetch_outcome :=
  if eqs url "http://a.fr" then FetchStatus else FetchRaises.

Definition one_level : crawler_config := {| max_depth := 1; max_pages := 20 |}.

(** A row of the scraper's output for the pipeline. *)
Definition acme_lead : gmap string string :=
  <["emails" := "see contact@acme.fr"]>
  (<["title" := "Acme"]> (<["link" := "https://maps.x/place?hl=fr#top"]> ∅)).

(** A tracking file whose second row has a single field. *)
Definition bob_entry : SendLogEntry :=
  {| entry_email := "bob@b.fr"; entry_company := "Bob"; entry_date := "2024-09-10 08:00:00" |}.

(** The column [about] of a place with an accessible car park. *)
Definition accessible_group : json :=
  JObj [("id", JStr "accessibility");
        ("options", JArr [JObj [("name", JStr accessible_parking); ("enabled", JBool true)]])].

Definition accessible_row : gmap string string :=
  <["about" := quoted "[{'id': 'accessibility', 'options': [{'name': 'Parking accessible en fauteuil roulant', 'enabled': true}]}]"]> ∅.

(** ** The addresses a run reports on *)

(** The address that an event of the journal reports as prepared, already
    sent, simulated, mailed, failed or recorded. *)
Definition event_recipient (ev : log_event) : option string :=
  match ev with
  | LogAlreadySent email _ | LogDryRun email | LogRecorded email _
  | LogMailSent email | LogMailError email | LogPreparation email _ => Some email
  | _ => None
  end.

Definition journal_ok (P : string -> Prop) (j : list log_event) : Prop :=
  Forall (fun ev => forall e, event_recipient ev = Some e -> P e) j.

(** The address [e] is the stripped column [email] of a row of the input,
    holds an at sign there, and does not contain "sentry". *)
Definition sendable {py : PyStr} (rows : list input_row) (e : string) : Prop :=
  str_in "sentry" (lower e) = false /\
  exists row cell, row ∈ rows /\ row_get row "email" "" = Some cell /\
                   e = strip cell /\ str_in "@" cell = true.

(** A home page on which the extraction finds seven values, one of them
    twice, six expertises and four projects. *)
Definition rich_page : fetch_outcome :=
  FetchPage
    {| page_extract := fun _ _ r =>
         ({| description := description r;
             valeurs := (valeurs r ++ ["ecoute"; "rigueur"; "ecoute"; "audace"; "partage";
                                       "respect"; "qualite"])%list;
             expertises := (expertises r ++ ["web"; "mobile"; "cloud"; "data"; "securite";
                                             "conseil"])%list;
             projets := (projets r ++ ["site A"; "site B"; "appli C"; "portail D"])%list |},
          false);
       page_links := [] |}.

Definition rich_site (url : string) : fetch_outcome := rich_page.

(** * Theorems *)

Section TrackerFacts.
Context {py : PyStr}.

Lemma getitem_email_entry (x : SendLogEntry) :
  getitem (DictReader_row suivi_header (row_of_entry x)) "email" = Ok (Some (entry_email x)).
Proof.
  unfold getitem, DictReader_row, suivi_header, row_of_entry; simpl.
  rewrite lookup_insert_ne by done.
  rewrite lookup_insert_ne by done.
  by rewrite lookup_insert_eq.
Qed.

Lemma getitem_company_entry (x : SendLogEntry) :
  getitem (DictReader_row suivi_header (row_of_entry x)) "nom_entreprise"
  = Ok (Some (entry_company x)).
Proof.
  unfold getitem, DictReader_row, suivi_header, row_of_entry; simpl.
  rewrite lookup_insert_ne by done.
  by rewrite lookup_insert_eq.
Qed.

Lemma DictReader_file_of_log (l : list SendLogEntry) :
  DictReader (suivi_header :: (row_of_entry <$> l))
  = (fun x => DictReader_row suivi_header (row_of_entry x)) <$> l.
Proof.
  unfold DictReader. induction l as [|x l IH]; [done|].
  rewrite fmap_cons, filter_cons_True by done.
  rewrite !fmap_cons. f_equal. exact IH.
Qed.

Lemma eqs_true (a b : string) : eqs a b = true <-> a = b.
Proof. unfold eqs. apply bool_decide_eq_true. Qed.

Lemma eqs_false (a b : string) : eqs a b = false <-> a <> b.
Proof. unfold eqs. apply bool_decide_eq_false. Qed.

Lemma verifier_rows_entry (x : SendLogEntry) rows (email nom : string) :
  verifier_rows (DictReader_row suivi_header (row_of_entry x) :: rows) email nom
  = if eqs (lower (entry_email x)) (lower email) then Ok true
    else if eqs (lower (entry_company x)) (lower nom) then Ok true
    else verifier_rows rows email nom.
Proof.
  cbn [verifier_rows].
  rewrite getitem_email_entry, getitem_company_entry. reflexivity.
Qed.

(** On a well-formed log the row loop raises nothing and answers whether
    some entry matches. *)
Lemma verifier_rows_log (l : list SendLogEntry) (email nom : string) :
  exists b,
    verifier_rows ((fun x => DictReader_row suivi_header (row_of_entry x)) <$> l) email nom
    = Ok b /\
    (b = true <-> exists x, x ∈ l /\ entry_matches email nom x).
Proof.
  induction l as [|x l [b [IH1 IH2]]].
  - exists false. split; [done|]. split; [done|].
    intros (x & Hx & _). by apply elem_of_nil in Hx.
  - rewrite fmap_cons, verifier_rows_entry.
    destruct (eqs (lower (entry_email x)) (lower email)) eqn:He.
    { exists true. split; [done|]. split; [|done]. intros _.
      exists x. split; [left|]. left. by apply eqs_true. }
    destruct (eqs (lower (entry_company x)) (lower nom)) eqn:Hc.
    { exists true. split; [done|]. split; [|done]. intros _.
      exists x. split; [left|]. right. by apply eqs_true. }
    exists b. split; [exact IH1|].
    rewrite IH2. apply eqs_false in He, Hc.
    split.
    + intros (y & Hy & Hm). exists y. split; [by right|done].
    + intros (y & Hy & Hm). apply elem_of_cons in Hy as [->|Hy].
      * destruct Hm; contradiction.
      * by exists y.
Qed.

Lemma verifier_log_iff (log : send_log) (email nom : string) :
  (verifier_email_deja_envoye (file_of_log log) email nom).1 = true <->
  exists x, x ∈ log_entries log /\ entry_matches email nom x.
Proof.
  destruct log as [l|].
  - unfold file_of_log, verifier_email_deja_envoye, log_entries. cbn [fmap option_fmap option_map default fst].
    rewrite DictReader_file_of_log.
    destruct (verifier_rows_log l email nom) as (b & -> & Hb). exact Hb.
  - cbn. split; [done|]. intros (x & Hx & _). by apply elem_of_nil in Hx.
Qed.

(** What recording does to a well-formed log: one entry more, at the end. *)
Lemma enregistrer_log (log : send_log) (email nom now : string) :
  enregistrer_email_envoye (file_of_log log) email nom now
  = (true, file_of_log (Some (log_entries log ++
       [{| entry_email := email; entry_company := nom; entry_date := now |}])%list)).
Proof.
  destruct log as [l|]; cbn; [|done].
  by rewrite fmap_app.
Qed.

(** What a lookup does to a well-formed log: it adds the header when the
    file is absent and never changes the entries. *)
Lemma verifier_log_state (log : send_log) (email nom : string) :
  (verifier_email_deja_envoye (file_of_log log) email nom).2
  = file_of_log (Some (log_entries log)).
Proof. by destruct log. Qed.


(** A file that exists without its header row is not a state of the log
    (the code always writes the header first): the first row recorded into
    an empty file is read back as the header. *)
Remark record_into_headerless_file (email nom now : string) :
  (verifier_email_deja_envoye
     (enregistrer_email_envoye (Some []) email nom now).2 email nom).1 = false.
Proof. reflexivity. Qed.

(** C10: a lookup on an absent tracking file creates the file with the header
    row only and answers false; after any lookup the file exists. *)
Theorem C10_lookup_creates_log (email nom : string) :
  verifier_email_deja_envoye None email nom = (false, Some [suivi_header]) /\
  (forall suivi : option csv_file,
     is_Some (verifier_email_deja_envoye suivi email nom).2).
Proof.
  split; [done|]. intros [f|]; cbn; eauto.
Qed.

End TrackerFacts.

(** ** The crawler *)

Section CrawlerFacts.
Context {py : PyStr} {pu : PyUrl}.
Variable config : crawler_config.
Variable fetch : string -> fetch_outcome.

(** A visit marks its URL and touches no other mark. *)
Lemma visit_visited (base_url netloc : string) (depth : Z) (st : crawl_state) (u : string) :
  visited_urls (visit config fetch base_url netloc depth st u) = {[ u ]} ∪ visited_urls st.
Proof.
  unfold visit. case_bool_decide as Hin.
  { apply set_eq. intros x. rewrite elem_of_union, elem_of_singleton.
    split; [by right|]. by intros [->|?]. }
  destruct (fetch u) as [| |p]; try reflexivity.
  destruct (urlparse u) as [[[? ?] path]|]; try reflexivity.
  destruct (page_extract p _ _ _) as [res raised].
  destruct raised; [reflexivity|].
  destruct (depth <? max_depth config - 1); reflexivity.
Qed.

(** One level of the crawl visits every URL of the level: the page budget is
    not consulted between two URLs. *)
Lemma level_visits_all (base_url netloc : string) (depth : Z) (l : list string)
    (st : crawl_state) :
  visited_urls (foldl (visit config fetch base_url netloc depth) st l)
  = list_to_set l ∪ visited_urls st.
Proof.
  revert st. induction l as [|u l IH]; intros st; cbn [foldl].
  - by rewrite list_to_set_nil, (left_id_L ∅ (∪)).
  - rewrite IH, visit_visited, list_to_set_cons.
    apply set_eq. intros x. rewrite !elem_of_union. tauto.
Qed.

(** The [while] loop stops by its own condition: once the fuel covers the
    levels left below [max_depth], more fuel changes nothing. *)
Lemma crawl_while_fuel (fuel extra : nat) (base_url netloc : string)
    (current : gset string) (depth : Z) (st : crawl_state) :
  (Z.to_nat (max_depth config - depth) <= fuel)%nat ->
  crawl_while config fetch (fuel + extra) base_url netloc current depth st
  = crawl_while config fetch fuel base_url netloc current depth st.
Proof.
  revert current depth st.
  induction fuel as [|fuel IH]; intros current depth st Hfuel.
  - destruct extra as [|extra]; [reflexivity|]. cbn [Nat.add crawl_while].
    assert ((depth <? max_depth config) = false) as -> by lia.
    by rewrite andb_false_r.
  - cbn [Nat.add crawl_while].
    destruct (negb _ && (depth <? max_depth config) && _) eqn:Hcond; [|reflexivity].
    apply IH. lia.
Qed.

End CrawlerFacts.

(** C8 (the code exceeds the bound): with max_pages = 2, on a site whose home
    page links to three keyword pages, the crawl fetches four pages. *)
Theorem C8_crawl_exceeds_max_pages :
  exists st,
    crawl (py := ascii_py) (pu := simple_url) two_pages small_site "http://a.fr/index.html" = Ok st /\
    size (visited_urls st) = 4%nat /\
    max_pages two_pages = 2.
Proof.
  eexists. split; [vm_compute; reflexivity|]. split; [|reflexivity].
  vm_compute. reflexivity.
Qed.

(** ** Letter generation *)

Section GenerationFacts.
Context {py : PyStr} {pu : PyUrl}.
Variable crawler_cfg : crawler_config.
Variable api_cfg : api_config.
Variable fetch : string -> fetch_outcome.
Variable api : nat -> api_outcome.
Variable nettoyer : string -> string -> string.

(** When every POST is answered 429, the loop makes one POST per attempt and
    ends in the exception raised after the loop. *)
Lemma attempt_loop_all_429 (attempts : list Z) (nom : string) (posts : nat) :
  (forall n, api n = Status429) ->
  attempt_loop api_cfg api nettoyer attempts nom posts
  = (Raise OtherException, (posts + length attempts)%nat).
Proof.
  intros H429. revert posts.
  induction attempts as [|a attempts IH]; intros posts; cbn [attempt_loop].
  - f_equal. cbn. lia.
  - rewrite H429, IH. f_equal. cbn. lia.
Qed.

Lemma length_range (n : Z) : length (range n) = Z.to_nat n.
Proof. unfold range. by rewrite length_fmap, length_seq. Qed.

(** Whatever the body does, the function returns a text. *)
Lemma generer_returns (info : gmap string string) (posts : nat) :
  exists texte,
    (generer_lettre_motivation crawler_cfg api_cfg fetch api nettoyer info posts).1
    = Ok texte.
Proof.
  unfold generer_lettre_motivation.
  destruct (generer_body _ _ _ _ _ _ _) as [[texte|e] p]; cbn; eauto.
Qed.

Lemma generer_fallback (info : gmap string string) (posts : nat) (e : exn) :
  (generer_body crawler_cfg api_cfg fetch api nettoyer info posts).1 = Raise e ->
  (generer_lettre_motivation crawler_cfg api_cfg fetch api nettoyer info posts).1
  = Ok (fallback_letter info).
Proof.
  unfold generer_lettre_motivation.
  destruct (generer_body _ _ _ _ _ _ _) as [[texte|e'] p]; cbn; [done|done].
Qed.

Lemma generer_body_all_429 (info : gmap string string) (posts : nat) :
  (forall n, api n = Status429) ->
  exists e, (generer_body crawler_cfg api_cfg fetch api nettoyer info posts).1 = Raise e.
Proof.
  intros H429. unfold generer_body.
  destruct (if eqs _ _ then _ else _) as [site|e]; cbn.
  - rewrite attempt_loop_all_429 by done. by eexists.
  - by eexists.
Qed.

(** C3: for every company context, generation returns a text and raises
    nothing; when every attempt is answered HTTP 429 the attempt loop makes
    max_retries requests, gives up, and the result is the fallback letter; the
    same letter is returned for any exception of the body; and the fallback
    letter depends only on the company name and the category. *)
Theorem C3_generation_never_raises (info : gmap string string) (posts : nat) :
  (exists texte,
     (generer_lettre_motivation crawler_cfg api_cfg fetch api nettoyer info posts).1
     = Ok texte) /\
  ((forall n, api n = Status429) ->
     attempt_loop api_cfg api nettoyer (range (max_retries api_cfg))
       (dict_get info "title" "votre entreprise") posts
     = (Raise OtherException, (posts + Z.to_nat (max_retries api_cfg))%nat) /\
     (generer_lettre_motivation crawler_cfg api_cfg fetch api nettoyer info posts).1
     = Ok (fallback_letter info)) /\
  (forall e,
     (generer_body crawler_cfg api_cfg fetch api nettoyer info posts).1 = Raise e ->
     (generer_lettre_motivation crawler_cfg api_cfg fetch api nettoyer info posts).1
     = Ok (fallback_letter info)) /\
  (forall info' : gmap string string,
     info' !! "title" = info !! "title" ->
     info' !! "category" = info !! "category" ->
     fallback_letter info' = fallback_letter info).
Proof.
  split; [apply generer_returns|]. split; [|split].
  - intros H429. split.
    + rewrite attempt_loop_all_429 by done. by rewrite length_range.
    + destruct (generer_body_all_429 info posts H429) as [e He].
      by eapply generer_fallback.
  - intros e. apply generer_fallback.
  - intros info' Ht Hc. unfold fallback_letter, dict_get. by rewrite Ht, Hc.
Qed.

End GenerationFacts.

(** ** The normalisation pipeline *)

Section PipelineFacts.
Context {py : PyStr}.
Variable parse_amenities : gmap string string -> result string.

Lemma print_if_written (b : bool) (ev : print_event) (st : pipeline_state) :
  written (print_if b ev st) = written st /\
  processed_emails (print_if b ev st) = processed_emails st.
Proof. by destruct b. Qed.

(** Building a row writes at most the row of the given email and leaves the
    set of processed emails alone. *)
Lemma build_row_written (row : gmap string string) (email : string) (st : pipeline_state) :
  let st' := (build_row parse_amenities row email st).1 in
  processed_emails st' = processed_emails st /\
  (written st' = written st \/
   exists r, nr_email r = email /\ written st' = (written st ++ [r])%list).
Proof.
  cbv zeta. unfold build_row.
  destruct (parse_owner _) as [[[oid oname] oerr]|e]; [|by split; [|left]].
  pose proof (print_if_written (oerr && (rows_processed st <=? 2))
                (PrintOwnerError (rows_processed st)) st) as [Hw1 Hp1].
  set (st1 := print_if _ _ st) in *.
  destruct (parse_address _) as [[a aerr]|e]; [|by split; [|left]].
  pose proof (print_if_written (aerr && (rows_processed st1 <=? 2))
                (PrintAddressError (rows_processed st1)) st1) as [Hw2 Hp2].
  set (st2 := print_if _ _ st1) in *.
  destruct (parse_amenities row) as [flag|e]; cbn.
  - split; [congruence|]. right. eexists. split; [|rewrite Hw2, Hw1; reflexivity]. done.
  - split; [congruence|]. left. congruence.
Qed.

Lemma written_ok_accept (row : gmap string string) (email : string) (st : pipeline_state) :
  written_ok st ->
  rejected (processed_emails st) email = false ->
  written_ok
    (build_row parse_amenities row email
       {| rows_processed := rows_processed st; emails_found := emails_found st + 1;
          emails_rejected := emails_rejected st;
          processed_emails := {[ lower email ]} ∪ processed_emails st;
          written := written st; printed := printed st |}).1.
Proof.
  intros (Hnd & Hin & Hs) Hrej.
  unfold rejected in Hrej.
  apply orb_false_iff in Hrej as [Hrej Hnew].
  apply orb_false_iff in Hrej as [_ Hsentry].
  apply bool_decide_eq_false in Hnew.
  match goal with |- written_ok (build_row _ _ _ ?s).1 =>
    destruct (build_row_written row email s) as [Hp Hw] end.
  cbn [processed_emails written] in Hp, Hw.
  unfold written_ok. rewrite Hp.
  destruct Hw as [Hw|(r & Hr & Hw)]; rewrite Hw.
  - split; [done|]. split; [|done]. intros r Hr. apply elem_of_union_r. by apply Hin.
  - rewrite !fmap_app. cbn. rewrite Hr. split; [|split].
    + apply NoDup_app. split; [done|]. split; [|apply NoDup_singleton].
      intros x Hx Hx'. apply list_elem_of_singleton in Hx'. subst x.
      apply list_elem_of_fmap in Hx as (e' & He' & Hx).
      apply list_elem_of_fmap in Hx as (r' & -> & Hr').
      apply Hnew. rewrite He'. by apply Hin.
    + intros r' Hr'. apply elem_of_app in Hr' as [Hr'|Hr'].
      * apply elem_of_union_r. by apply Hin.
      * apply list_elem_of_singleton in Hr'. subst r'. rewrite Hr.
        apply elem_of_union_l. by apply elem_of_singleton.
    + apply Forall_app. split; [done|]. apply Forall_singleton. by rewrite Hr.
Qed.

Lemma process_emails_ok (row : gmap string string) (l : list string) (st : pipeline_state) :
  written_ok st -> written_ok (process_emails parse_amenities row l st).1.
Proof.
  revert st. induction l as [|email l IH]; intros st Hok; [done|].
  cbn [process_emails].
  destruct (rejected (processed_emails st) (clean_email email)) eqn:Hrej.
  - apply IH. exact Hok.
  - pose proof (written_ok_accept row (clean_email email) st Hok Hrej) as Hacc.
    destruct (build_row _ _ _ _) as [st' [e|]]; cbn in *; [exact Hacc|].
    by apply IH.
Qed.

Lemma process_rows_ok (rows : list (gmap string string)) (st : pipeline_state) :
  written_ok st -> written_ok (process_rows parse_amenities rows st).1.
Proof.
  revert st. induction rows as [|row rows IH]; intros st Hok; [done|].
  cbn [process_rows].
  set (st1 := {| rows_processed := rows_processed st + 1 |}).
  assert (written_ok st1) as Hok1 by exact Hok.
  assert (forall b ev, written_ok (print_if b ev st1)) as Hpr.
  { intros b ev. by destruct b. }
  destruct (eqs (dict_get row "emails" "") ""); [by apply IH|].
  destruct (re_findall _ _) as [|c l]; [by apply IH|].
  pose proof (process_emails_ok row (c :: l) st1 Hok1) as Hpe.
  destruct (process_emails _ _ _ _) as [st2 [e|]]; cbn in *; [exact Hpe|].
  by apply IH.
Qed.

Lemma improve_csv_written_ok (input_file : string)
    (input : option (list (gmap string string))) (output_file : string) :
  written_ok (improve_csv parse_amenities input_file input output_file).2.
Proof.
  assert (written_ok initial_pipeline_state) as H0.
  { split; [apply NoDup_nil_2|]. split; [|done]. intros r Hr. by apply elem_of_nil in Hr. }
  unfold improve_csv. destruct input as [rows|]; [|exact H0].
  pose proof (process_rows_ok rows _ H0) as Hpr.
  destruct (process_rows _ _ _) as [st [e|]]; exact Hpr.
Qed.

(** C5: in one run of the pipeline the emails written never contain two that
    are equal up to case, and a candidate whose lower-cased form was already
    accepted is rejected. *)
Theorem C5_emitted_emails_distinct (input_file : string)
    (input : option (list (gmap string string))) (output_file : string) :
  NoDup (lower <$> (nr_email <$>
           written (improve_csv parse_amenities input_file input output_file).2)) /\
  (forall (processed : gset string) (email : string),
     lower email ∈ processed -> rejected processed email = true).
Proof.
  split; [apply improve_csv_written_ok|].
  intros processed email Hin. unfold rejected.
  rewrite (bool_decide_eq_true_2 _ Hin). by rewrite orb_true_r.
Qed.

(** C6 (as the code has it): a candidate whose lower-cased form contains
    "sentry" is rejected by the test of the pipeline, whatever the set of
    processed emails, so no written email contains it. *)
Theorem C6_sentry_rejected_by_pipeline (processed : gset string) (email : string) :
  str_in "sentry" (lower email) = true ->
  rejected processed email = true /\
  (forall input_file input output_file,
     Forall (fun r => str_in "sentry" (lower (nr_email r)) = false)
       (written (improve_csv parse_amenities input_file input output_file).2)).
Proof.
  intros Hs. split.
  - unfold rejected. rewrite Hs. by rewrite orb_true_r.
  - intros. apply improve_csv_written_ok.
Qed.

End PipelineFacts.

(** C6 (the claim as stated fails): is_valid_email accepts an address whose
    lower-cased form contains "sentry". *)
Lemma C6_is_valid_email_accepts_sentry :
  str_in "sentry" (lower (PyStr := ascii_py) "sentry@company.fr") = true /\
  is_valid_email (py := ascii_py) "sentry@company.fr" = true.
Proof. split; vm_compute; reflexivity. Qed.

Lemma C6_sentry_rejected_witness :
  str_in "sentry" (lower (PyStr := ascii_py) "sentry@company.fr") = true /\
  rejected (py := ascii_py) ∅ "sentry@company.fr" = true.
Proof.
  split; [vm_compute; reflexivity|].
  apply (C6_sentry_rejected_by_pipeline (py := ascii_py) (fun _ => Ok "Non")
           ∅ "sentry@company.fr").
  vm_compute; reflexivity.
Defined.

(** ** The orchestrator *)

Section OrchestratorFacts.
Context {py : PyStr} {pu : PyUrl}.
Variable crawler_cfg : crawler_config.
Variable api_cfg : api_config.

Ltac split_ifs :=
  repeat match goal with
         | |- context [if ?b then _ else _] => destruct b eqn:?
         | |- context [match ?o with Some _ => _ | None => _ end] => destruct o eqn:?
         end.

(** The four ways a task ends, read on the tracking file, the two counters
    and the exception that escapes: found in the log (skipped); TypeError
    when the company name is None and the cache is used; recorded and
    counted as sent (dry run, or the mailer succeeds); or nothing (the
    mailer fails). *)
Lemma traiter_email_cases (w : world) (dry_run cache_lettres : bool)
    (email : string) (info : input_row) (nom : option string) (st : run_state) :
  let look := verifier_call (suivi st) email nom in
  let res := traiter_email crawler_cfg api_cfg w dry_run cache_lettres (email, info, nom) st in
  if look.1 then
    res.2 = None /\
    suivi res.1 = look.2 /\
    emails_sent res.1 = emails_sent st /\
    emails_skipped res.1 = emails_skipped st + 1 /\
    mails res.1 = mails st
  else if replace_raises cache_lettres info nom then
    res.2 = Some TypeError /\
    suivi res.1 = look.2 /\
    emails_sent res.1 = emails_sent st /\
    emails_skipped res.1 = emails_skipped st /\
    mails res.1 = mails st
  else if dry_run || w_smtp w (mails st) then
    res.2 = None /\
    suivi res.1
    = (enregistrer_email_envoye look.2 email (cell_text nom) (w_now w (recordings st))).2 /\
    emails_sent res.1 = emails_sent st + 1 /\
    emails_skipped res.1 = emails_skipped st /\
    mails res.1 = (if dry_run then mails st else S (mails st))
  else
    res.2 = None /\
    suivi res.1 = look.2 /\
    emails_sent res.1 = emails_sent st /\
    emails_skipped res.1 = emails_skipped st /\
    mails res.1 = S (mails st).
Proof.
  cbv zeta. unfold traiter_email, replace_raises, cache_key_set.
  destruct (verifier_call (suivi st) email nom) as [deja f].
  cbn [fst snd]. destruct deja; [done|].
  set (st1 := if _ : bool then _ else set_suivi f st).
  assert (suivi st1 = f /\ emails_sent st1 = emails_sent st /\
          emails_skipped st1 = emails_skipped st /\ mails st1 = mails st /\
          recordings st1 = recordings st) as (Hs & Hse & Hsk & Hm & Hr).
  { subst st1. split_ifs; done. }
  clearbody st1.
  destruct (generer_returns crawler_cfg api_cfg (w_fetch w) (w_api w) (w_nettoyer w)
              (info_text info) (posts st1)) as [texte Ht].
  destruct (generer_lettre_motivation _ _ _ _ _ _ _) as [r p].
  cbn in Ht. subst r.
  unfold envoyer_email_avec_cv, enregistrer.
  destruct cache_lettres; cbn [andb];
    [destruct (row_get info "category" "") as [k|]; [destruct (eqs k ""); cbn [negb]|]|];
    try destruct (lettres_cache st1 !! k);
    destruct nom as [nom|]; cbn [replace_method cell_text default];
    destruct dry_run; cbn; rewrite ?Hm;
    try destruct (w_smtp w (mails st)); cbn;
    rewrite ?Hs, ?Hse, ?Hsk, ?Hr, ?Hm; done.
Qed.

Lemma str_in_nonempty (sub s : string) : str_in sub s = true -> sub <> "" -> s <> "".
Proof. intros Hin Hsub ->. destruct sub; [done|]. cbn in Hin. discriminate. Qed.

(** A row with a usable email gives one task. *)
Lemma build_tasks_single (w : world) (row : input_row) (cell : string) (st : run_state) :
  row_get row "email" "" = Some cell ->
  str_in "@" cell = true ->
  str_in "sentry" (lower (strip cell)) = false ->
  exists info st0,
    build_tasks [row] 0 0 [] st
    = (1, 1, [(strip cell, info, row_get row "title" "")], st0) /\
    suivi st0 = suivi st /\ emails_sent st0 = emails_sent st /\
    emails_skipped st0 = emails_skipped st /\ mails st0 = mails st /\
    recordings st0 = recordings st.
Proof.
  intros Hcell Hat Hsentry. cbn [build_tasks]. rewrite Hcell.
  assert (eqs cell "" = false) as ->.
  { apply eqs_false. by eapply str_in_nonempty. }
  rewrite Hat. cbn [negb andb]. rewrite Hsentry.
  eexists _, _. split; [reflexivity|]. done.
Qed.

(** A run over a one-row input that gives a task: the task is processed
    from a state with the tracking file as given and all counters at zero,
    and the run ends with the summary of the two counters, or with the
    error that the task raised. *)
Lemma process_single (w : world) (input_file : string) (row : input_row) (cell : string)
    (dry_run cache_lettres : bool) (f : option csv_file) :
  proceeds w = true ->
  row_get row "email" "" = Some cell ->
  str_in "@" cell = true ->
  str_in "sentry" (lower (strip cell)) = false ->
  exists info st0,
    suivi st0 = f /\ emails_sent st0 = 0 /\ emails_skipped st0 = 0 /\
    mails st0 = 0%nat /\ recordings st0 = 0%nat /\
    process_csv_and_send_emails crawler_cfg api_cfg w input_file (Some [row])
      dry_run cache_lettres f
    = let res := traiter_email crawler_cfg api_cfg w dry_run cache_lettres
                   (strip cell, info, row_get row "title" "") st0 in
      match res.2 with
      | None => logging (LogSummary 1 1 (emails_sent res.1) (emails_skipped res.1)) res.1
      | Some e => logging (LogProcessingError e) res.1
      end.
Proof.
  intros Hgo Hcell Hat Hsentry. unfold process_csv_and_send_emails.
  set (start := if w_cv_exists w then initial_state f else logging LogCvMissing (initial_state f)).
  destruct (build_tasks_single w row cell start Hcell Hat Hsentry)
    as (info & st0 & Hb & Hs & Hse & Hsk & Hm & Hr).
  exists info, st0.
  assert (suivi start = f /\ emails_sent start = 0 /\ emails_skipped start = 0 /\
          mails start = 0%nat /\ recordings start = 0%nat) as (? & ? & ? & ? & ?).
  { subst start. by destruct (w_cv_exists w). }
  repeat (split; [congruence|]).
  unfold proceeds in Hgo. subst start.
  destruct (w_cv_exists w); [|cbn in Hgo; rewrite Hgo];
    rewrite Hb; cbn [run_tasks];
    by destruct (traiter_email _ _ _ _ _ _ _) as [st1 [exc|]].
Qed.

Lemma verifier_normalised_log (log : send_log) (email nom : string) :
  (verifier_email_deja_envoye (file_of_log (Some (log_entries log))) email nom).1
  = (verifier_email_deja_envoye (file_of_log log) email nom).1.
Proof. by destruct log. Qed.

Lemma verifier_log_false (log : send_log) (email nom : string) :
  (forall x, x ∈ log_entries log -> ~ entry_matches email nom x) ->
  (verifier_email_deja_envoye (file_of_log log) email nom).1 = false.
Proof.
  intros Hno. apply not_true_is_false. intros Ht.
  apply verifier_log_iff in Ht as (x & Hx & Hm). by apply (Hno x).
Qed.

(** The lookup of a task on a log, whatever its company name: the file
    afterwards is the log with its header, and an absent log answers like
    an empty one. *)
Lemma verifier_call_state (log : send_log) (email : string) (nom : option string) :
  (verifier_call (file_of_log log) email nom).2 = file_of_log (Some (log_entries log)).
Proof. destruct nom as [nom|]; [apply verifier_log_state|]. by destruct log. Qed.

Lemma verifier_call_normalised (log : send_log) (email : string) (nom : option string) :
  (verifier_call (file_of_log (Some (log_entries log))) email nom).1
  = (verifier_call (file_of_log log) email nom).1.
Proof. destruct nom as [nom|]; [apply verifier_normalised_log|]. by destruct log. Qed.

(** C2 (as the code has it): of two consecutive dry runs over the same task,
    whose company name is a string and which matches no entry of the log on
    email or on company name, the first counts and reports the task as sent
    and appends one entry for the pair without calling the mailer; the
    second finds the entry, counts and reports the task as skipped and sends
    nothing; the log holds exactly that one entry for the pair after both
    runs. *)
Theorem C2_dry_run_twice (w1 w2 : world) (input_file : string)
    (row : input_row) (cell nom : string) (cache1 cache2 : bool) (log : send_log) :
  let email := strip cell in
  row_get row "email" "" = Some cell ->
  row_get row "title" "" = Some nom ->
  proceeds w1 = true ->
  proceeds w2 = true ->
  str_in "@" cell = true ->
  str_in "sentry" (lower email) = false ->
  (forall x, x ∈ log_entries log -> ~ entry_matches email nom x) ->
  let run1 :=
    process_csv_and_send_emails crawler_cfg api_cfg w1 input_file (Some [row])
      true cache1 (file_of_log log) in
  let run2 :=
    process_csv_and_send_emails crawler_cfg api_cfg w2 input_file (Some [row])
      true cache2 (suivi run1) in
  (emails_sent run1 = 1 /\ emails_skipped run1 = 0 /\ mails run1 = 0%nat /\
   last (journal run1) = Some (LogSummary 1 1 1 0)) /\
  (emails_sent run2 = 0 /\ emails_skipped run2 = 1 /\ mails run2 = 0%nat /\
   last (journal run2) = Some (LogSummary 1 1 0 1)) /\
  suivi run1
  = file_of_log (Some (log_entries log ++
      [{| entry_email := email; entry_company := nom; entry_date := w_now w1 0 |}])%list) /\
  suivi run2 = suivi run1.
Proof.
  intros email Hcell Htitle Hgo1 Hgo2 Hat Hsentry Hfresh run1 run2.
  (* first run *)
  destruct (process_single w1 input_file row cell true cache1 (file_of_log log)
              Hgo1 Hcell Hat Hsentry)
    as (info1 & st1 & Hs1 & Hse1 & Hsk1 & Hm1 & Hr1 & Hrun1).
  fold run1 in Hrun1. cbv zeta in Hrun1. rewrite Htitle in Hrun1. fold email in Hrun1.
  pose proof (traiter_email_cases w1 true cache1 email info1 (Some nom) st1) as Hcase1.
  cbv zeta in Hcase1. cbn [verifier_call replace_raises cell_text default orb] in Hcase1.
  rewrite Hs1 in Hcase1.
  rewrite (verifier_log_false log email nom Hfresh) in Hcase1.
  rewrite verifier_log_state, enregistrer_log in Hcase1.
  cbn [snd log_entries default] in Hcase1.
  destruct Hcase1 as (Hnone1 & Hsu1 & Hsent1 & Hskip1 & Hmails1).
  rewrite Hnone1 in Hrun1.
  assert (suivi run1 = file_of_log (Some (log_entries log ++
            [{| entry_email := email; entry_company := nom;
                entry_date := w_now w1 0 |}])%list)) as Hlog1.
  { rewrite Hrun1. cbn [suivi logging]. rewrite Hsu1, Hr1. reflexivity. }
  (* second run *)
  destruct (process_single w2 input_file row cell true cache2 (suivi run1)
              Hgo2 Hcell Hat Hsentry)
    as (info2 & st2 & Hs2 & Hse2 & Hsk2 & Hm2 & Hr2 & Hrun2).
  fold run2 in Hrun2. cbv zeta in Hrun2. rewrite Htitle in Hrun2. fold email in Hrun2.
  pose proof (traiter_email_cases w2 true cache2 email info2 (Some nom) st2) as Hcase2.
  cbv zeta in Hcase2. cbn [verifier_call replace_raises cell_text default orb] in Hcase2.
  rewrite Hs2, Hlog1 in Hcase2.
  assert ((verifier_email_deja_envoye
             (file_of_log (Some (log_entries log ++
                [{| entry_email := email; entry_company := nom;
                    entry_date := w_now w1 0 |}])%list)) email nom).1 = true) as Hfound.
  { apply verifier_log_iff. eexists. split.
    - cbn. apply elem_of_app. right. apply list_elem_of_singleton. reflexivity.
    - by left. }
  rewrite Hfound, verifier_log_state in Hcase2. cbn [log_entries default] in Hcase2.
  destruct Hcase2 as (Hnone2 & Hsu2 & Hsent2 & Hskip2 & Hmails2).
  rewrite Hnone2 in Hrun2.
  repeat split.
  - rewrite Hrun1. cbn [emails_sent logging]. lia.
  - rewrite Hrun1. cbn [emails_skipped logging]. lia.
  - rewrite Hrun1. cbn [mails logging]. lia.
  - rewrite Hrun1. cbn [journal logging]. rewrite last_snoc, Hsent1, Hskip1, Hse1, Hsk1. reflexivity.
  - rewrite Hrun2. cbn [emails_sent logging]. lia.
  - rewrite Hrun2. cbn [emails_skipped logging]. lia.
  - rewrite Hrun2. cbn [mails logging]. lia.
  - rewrite Hrun2. cbn [journal logging]. rewrite last_snoc, Hsent2, Hskip2, Hse2, Hsk2. reflexivity.
  - exact Hlog1.
  - rewrite Hrun2. cbn [suivi logging]. rewrite Hsu2. symmetry. exact Hlog1.
Qed.

(** C4 (as the code has it): in live mode, when the task is not found in
    the log and the mailer fails, nothing is recorded and neither counter
    moves, so a later lookup still answers false; and every task, in any
    mode and any world, moves at most one of the two counters, by one:
    sent, or skipped when the task is found in the log, or none when the
    send fails, or none when the task raises TypeError (its company name is
    None and the letter cache is in use). *)
Theorem C4_failed_send_not_recorded (w : world) :
  (forall (cache_lettres : bool) (email : string) (info : input_row)
          (nom : option string) (st : run_state),
     (verifier_call (suivi st) email nom).1 = false ->
     w_smtp w (mails st) = false ->
     let res := traiter_email crawler_cfg api_cfg w false cache_lettres (email, info, nom) st in
     res.2 = (if replace_raises cache_lettres info nom then Some TypeError else None) /\
     suivi res.1 = (verifier_call (suivi st) email nom).2 /\
     emails_sent res.1 = emails_sent st /\
     emails_skipped res.1 = emails_skipped st /\
     (forall log : send_log,
        suivi st = file_of_log log ->
        suivi res.1 = file_of_log (Some (log_entries log)) /\
        (verifier_call (suivi res.1) email nom).1 = false)) /\
  (forall (dry_run cache : bool) (t : task) (st : run_state),
     let res := traiter_email crawler_cfg api_cfg w dry_run cache t st in
     (emails_sent res.1 = emails_sent st + 1 /\ emails_skipped res.1 = emails_skipped st /\
      res.2 = None) \/
     (emails_sent res.1 = emails_sent st /\ emails_skipped res.1 = emails_skipped st + 1 /\
      res.2 = None) \/
     (emails_sent res.1 = emails_sent st /\ emails_skipped res.1 = emails_skipped st /\
      res.2 = None /\ dry_run = false /\ w_smtp w (mails st) = false) \/
     (emails_sent res.1 = emails_sent st /\ emails_skipped res.1 = emails_skipped st /\
      res.2 = Some TypeError /\ t.2 = None /\ cache_key_set cache t.1.2 = true)).
Proof.
  split.
  - intros cache_lettres email info nom st Hlook Hsmtp res.
    pose proof (traiter_email_cases w false cache_lettres email info nom st) as Hcase.
    cbv zeta in Hcase. fold res in Hcase.
    rewrite Hlook, Hsmtp in Hcase. cbn [orb] in Hcase.
    assert (suivi res.1 = (verifier_call (suivi st) email nom).2 /\
            emails_sent res.1 = emails_sent st /\
            emails_skipped res.1 = emails_skipped st /\
            res.2 = (if replace_raises cache_lettres info nom then Some TypeError else None))
      as (Hsu & Hsent & Hskip & Hexc).
    { destruct (replace_raises cache_lettres info nom);
        destruct Hcase as (? & ? & ? & ? & _); done. }
    split; [exact Hexc|]. split; [exact Hsu|]. split; [exact Hsent|].
    split; [exact Hskip|].
    intros slog Hlog. rewrite Hsu, Hlog, verifier_call_state.
    split; [reflexivity|]. rewrite verifier_call_normalised.
    by rewrite <- Hlog.
  - intros dry_run cache [[email info] nom] st res.
    pose proof (traiter_email_cases w dry_run cache email info nom st) as Hcase.
    cbv zeta in Hcase. fold res in Hcase. cbn [fst snd].
    destruct (verifier_call (suivi st) email nom).1.
    + right. left. destruct Hcase as (-> & _ & -> & -> & _). done.
    + destruct (replace_raises cache info nom) eqn:Hraises.
      { right. right. right. destruct Hcase as (-> & _ & -> & -> & _).
        unfold replace_raises in Hraises. destruct nom; [discriminate|]. done. }
      destruct dry_run; cbn [orb] in Hcase.
      { left. destruct Hcase as (-> & _ & -> & -> & _). done. }
      destruct (w_smtp w (mails st)) eqn:Hs.
      { left. destruct Hcase as (-> & _ & -> & -> & _). done. }
      right. right. left. destruct Hcase as (-> & _ & -> & -> & _). done.
Qed.


End OrchestratorFacts.

(** ** Missing input file *)


(** ** The claims on concrete inputs *)

#[local] Existing Instance ascii_py.
#[local] Existing Instance simple_url.

(** C2 (the claim as stated fails): the second of two dry runs over the same
    task counts and reports it as skipped, not as sent. *)
Lemma C2_second_dry_run_skips :
  emails_sent acme_dry_run1 = 1 /\
  emails_sent acme_dry_run2 = 0 /\
  emails_skipped acme_dry_run2 = 1 /\
  last (journal acme_dry_run2) = Some (LogSummary 1 1 0 1).
Proof. vm_compute. done. Qed.

Lemma C2_dry_run_twice_witness :
  emails_sent acme_dry_run1 = 1 /\ mails acme_dry_run1 = 0%nat /\
  emails_skipped acme_dry_run2 = 1 /\
  suivi acme_dry_run2
  = Some [suivi_header; ["contact@acme.fr"; "Acme"; "2024-09-10 08:00:00"]].
Proof.
  pose proof (C2_dry_run_twice (py := ascii_py) (pu := simple_url) default_crawler
                default_api hostile_world hostile_world "in.csv" acme_line
                "contact@acme.fr" "Acme" true true None)
    as Hthm.
  cbv zeta in Hthm.
  assert (proceeds (py := ascii_py) hostile_world = true) as Hgo by reflexivity.
  assert (row_get acme_line "email" "" = Some "contact@acme.fr") as Hcell
    by (vm_compute; reflexivity).
  assert (row_get acme_line "title" "" = Some "Acme") as Htitle
    by (vm_compute; reflexivity).
  assert (str_in "@" "contact@acme.fr" = true) as Hat
    by (vm_compute; reflexivity).
  assert (str_in "sentry"
            (lower (PyStr := ascii_py) (strip "contact@acme.fr")) = false)
    as Hsentry by (vm_compute; reflexivity).
  assert (forall x : SendLogEntry, x ∈ log_entries None ->
            ~ entry_matches (py := ascii_py) (strip "contact@acme.fr") "Acme" x)
    as Hfresh.
  { intros x Hx. by apply elem_of_nil in Hx. }
  destruct (Hthm Hcell Htitle Hgo Hgo Hat Hsentry Hfresh)
    as ((H1 & _ & Hm & _) & (_ & H2 & _) & H3 & H4).
  split; [exact H1|]. split; [exact Hm|]. split; [exact H2|].
  etransitivity; [exact H4|]. etransitivity; [exact H3|]. vm_compute. reflexivity.
Defined.

(** C4 (the claim as stated fails): a task whose send fails is counted
    neither as sent nor as skipped; the summary of the run reports one email
    found, none sent, none skipped. *)
Lemma C4_failed_send_is_not_counted :
  emails_sent acme_live_run = 0 /\
  emails_skipped acme_live_run = 0 /\
  last (journal acme_live_run) = Some (LogSummary 1 1 0 0).
Proof. vm_compute. done. Qed.

Lemma C4_failed_send_witness :
  let res :=
    traiter_email (py := ascii_py) (pu := simple_url) default_crawler default_api
      hostile_world false true ("contact@acme.fr", acme_line, Some "Acme")
      (initial_state None) in
  res.2 = None /\ suivi res.1 = Some [suivi_header] /\ emails_skipped res.1 = 0.
Proof.
  destruct (proj1 (C4_failed_send_not_recorded (py := ascii_py) (pu := simple_url)
                     default_crawler default_api hostile_world)
              true "contact@acme.fr" acme_line (Some "Acme") (initial_state None)
              eq_refl eq_refl)
    as (Hnone & Hsuivi & _ & Hskip & _).
  cbv zeta. split; [exact Hnone|]. split; [exact Hsuivi|exact Hskip].
Defined.

(** A row that stops before its title: with the letter cache on, the dry run
    raises TypeError at the task, which is neither counted nor recorded, and
    ends with the processing error instead of the summary. *)
Example dry_run_over_short_row :
  let run :=
    process_csv_and_send_emails (py := ascii_py) (pu := simple_url) default_crawler
      default_api hostile_world "in.csv" (Some [short_line; acme_line]) true true None in
  last (journal run) = Some (LogProcessingError TypeError) /\
  emails_sent run = 0 /\ emails_skipped run = 0 /\ suivi run = Some [suivi_header].
Proof. vm_compute. done. Qed.



(** The scenario of the specification: one row with an image name, a real
    address and a sentry address, and an owner that does not decode, gives
    one output row, for the real address, with empty owner fields. *)
Example pipeline_scenario :
  let row : gmap string string :=
    <["emails" := "contact@monsite.png, vraie.adresse@exemple-entreprise.fr, sentry-abc@ingest.sentry.io"]>
    (<["owner" := "{bad json"]> ∅) in
  let out := improve_csv (py := ascii_py) (fun _ => Ok "Non") "in.csv" (Some [row]) "out.csv" in
  out.1 = true /\
  (fun r => (nr_email r, nr_owner_id r, nr_owner_name r)) <$> written out.2
  = [("vraie.adresse@exemple-entreprise.fr", JStr "", "")].
Proof. vm_compute. done. Qed.

(** The checks of the specification on is_valid_email and clean_email. *)
Example is_valid_email_examples :
  is_valid_email (py := ascii_py) <$>
    ["a@b.co"; "logo@site.png"; "test@example.com"; "x@y.123"; "ab"; "john@doe@example.com"]
  = [true; false; false; false; false; false] /\
  clean_email (py := ascii_py) "john%40doe @ example.com" = "john@doe@example.com".
Proof. vm_compute. done. Qed.

(** All attempts answered 429: five POSTs, then the fallback letter. *)
Example generation_all_429 :
  generer_lettre_motivation (py := ascii_py) (pu := simple_url) default_crawler default_api
    small_site (fun _ => Status429) (fun texte _ => texte) acme_row 0
  = (Ok (fallback_letter acme_row), 5%nat).
Proof. vm_compute. reflexivity. Qed.

(** * Further properties of the code *)

(** ** The send tracker *)

Section TrackerExtras.
Context {py : PyStr}.

Lemma verifier_rows_lower (rows : list (gmap string (option string)))
    (e e' c c' : string) :
  lower e = lower e' -> lower c = lower c' ->
  verifier_rows rows e c = verifier_rows rows e' c'.
Proof.
  intros He Hc. induction rows as [|row rows IH]; [reflexivity|].
  cbn [verifier_rows]. rewrite He, Hc.
  destruct (getitem row "email" ≫= lower_method) as [x|]; [|reflexivity].
  cbn [mbind result_bind]. destruct (eqs x (lower e')); [reflexivity|].
  destruct (getitem row "nom_entreprise" ≫= lower_method) as [y|]; [|reflexivity].
  cbn [mbind result_bind]. destruct (eqs y (lower c')); [reflexivity|exact IH].
Qed.

(** X1: whatever the tracking file holds, a lookup reads its two arguments
    only through their lower-cased forms. *)
Theorem lookup_case_insensitive (suivi : option csv_file) (e e' c c' : string) :
  lower e = lower e' ->
  lower c = lower c' ->
  verifier_email_deja_envoye suivi e c = verifier_email_deja_envoye suivi e' c'.
Proof.
  intros He Hc. destruct suivi as [f|]; [|reflexivity].
  unfold verifier_email_deja_envoye. by rewrite (verifier_rows_lower _ e e' c c').
Qed.


Lemma verifier_rows_app_entries (pre : list SendLogEntry)
    (rows : list (gmap string (option string))) (e c : string) :
  (forall y, y ∈ pre -> ~ entry_matches e c y) ->
  verifier_rows
    (((fun x => DictReader_row suivi_header (row_of_entry x)) <$> pre) ++ rows)%list e c
  = verifier_rows rows e c.
Proof.
  induction pre as [|y pre IH]; intros Hno; [reflexivity|].
  rewrite fmap_cons. cbn [app]. rewrite verifier_rows_entry.
  assert (~ entry_matches e c y) as Hy by (apply Hno; left).
  unfold entry_matches in Hy.
  destruct (eqs (lower (entry_email y)) (lower e)) eqn:He.
  { apply eqs_true in He. tauto. }
  destruct (eqs (lower (entry_company y)) (lower c)) eqn:Hc.
  { apply eqs_true in Hc. tauto. }
  apply IH. intros z Hz. apply Hno. by right.
Qed.

Lemma DictReader_entries_app (pre : list SendLogEntry) (rows : csv_file) :
  DictReader (suivi_header :: (row_of_entry <$> pre) ++ rows)%list
  = (((fun x => DictReader_row suivi_header (row_of_entry x)) <$> pre)
     ++ DictReader (suivi_header :: rows))%list.
Proof.
  unfold DictReader. induction pre as [|y pre IH]; [reflexivity|].
  rewrite !fmap_cons. cbn [app]. rewrite filter_cons_True by done.
  rewrite fmap_cons. f_equal. exact IH.
Qed.

(** X3: a row with a single field hides every entry after it.  When no
    entry before the short row matches and its only field is not the email
    looked up, reading the company name of the short row raises, the handler
    answers false, and the rows after it are never read. *)
Theorem short_row_hides_later_entries (pre : list SendLogEntry) (x : string)
    (rest : csv_file) (e c : string) :
  (forall y, y ∈ pre -> ~ entry_matches e c y) ->
  lower x <> lower e ->
  (verifier_email_deja_envoye
     (Some (suivi_header :: (row_of_entry <$> pre) ++ [x] :: rest)%list) e c).1 = false.
Proof.
  intros Hno Hx. unfold verifier_email_deja_envoye. cbn [fst].
  rewrite DictReader_entries_app.
  rewrite (verifier_rows_app_entries pre _ e c Hno).
  unfold DictReader. rewrite filter_cons_True by done.
  rewrite fmap_cons. cbn [verifier_rows].
  assert (getitem (DictReader_row suivi_header [x]) "email" = Ok (Some x)) as ->.
  { unfold getitem, DictReader_row, suivi_header; cbn.
    rewrite lookup_insert_ne by done. rewrite lookup_insert_ne by done.
    by rewrite lookup_insert_eq. }
  cbn [mbind result_bind lower_method].
  apply eqs_false in Hx. rewrite Hx.
  assert (getitem (DictReader_row suivi_header [x]) "nom_entreprise" = Ok None) as ->.
  { unfold getitem, DictReader_row, suivi_header; cbn.
    rewrite lookup_insert_ne by done. by rewrite lookup_insert_eq. }
  reflexivity.
Qed.

End TrackerExtras.

(** ** Letter generation *)

Section GenerationExtras.
Context {py : PyStr} {pu : PyUrl}.
Variable crawler_cfg : crawler_config.
Variable api_cfg : api_config.
Variable fetch : string -> fetch_outcome.
Variable api : nat -> api_outcome.
Variable nettoyer : string -> string -> string.

Lemma attempt_loop_posts (attempts : list Z) (nom : string) (posts : nat) :
  (posts <= (attempt_loop api_cfg api nettoyer attempts nom posts).2
   <= posts + length attempts)%nat.
Proof.
  revert posts. induction attempts as [|a attempts IH]; intros posts.
  - cbn. lia.
  - cbn [attempt_loop length]. specialize (IH (S posts)).
    unfold retry_or_raise.
    destruct (api posts) as [[texte|e]| | | |e]; cbn [snd];
      repeat match goal with
             | |- context [if ?b then _ else _] => destruct b
             end; cbn [snd]; lia.
Qed.

Lemma generer_posts_bounded (info : gmap string string) (posts : nat) :
  (posts
   <= (generer_lettre_motivation crawler_cfg api_cfg fetch api nettoyer info posts).2
   <= posts + Z.to_nat (max_retries api_cfg))%nat.
Proof.
  unfold generer_lettre_motivation, generer_body.
  destruct (if eqs _ _ then _ else _) as [site|e].
  - pose proof (attempt_loop_posts (range (max_retries api_cfg))
                  (dict_get info "title" "votre entreprise") posts) as Hb.
    rewrite length_range in Hb.
    destruct (attempt_loop _ _ _ _ _ _) as [[t|e] p]; exact Hb.
  - cbn. lia.
Qed.

(** X4: one call of the generator makes at most max_retries requests to the
    API, whatever the API answers, and none when the cap is zero or
    negative. *)
Theorem generation_posts_bounded (info : gmap string string) (posts : nat) :
  (posts
   <= (generer_lettre_motivation crawler_cfg api_cfg fetch api nettoyer info posts).2
   <= posts + Z.to_nat (max_retries api_cfg))%nat.
Proof. apply generer_posts_bounded. Qed.

Lemma attempt_loop_success_after_429 (k : nat) (attempts : list Z) (nom texte : string)
    (posts : nat) :
  (k < length attempts)%nat ->
  (forall i, (i < k)%nat -> api (posts + i)%nat = Status429) ->
  api (posts + k)%nat = Status200 (Ok texte) ->
  attempt_loop api_cfg api nettoyer attempts nom posts
  = (Ok (nettoyer texte nom), S (posts + k)).
Proof.
  revert attempts posts. induction k as [|k IH]; intros attempts posts Hlen H429 H200.
  - destruct attempts as [|a attempts]; [cbn in Hlen; lia|].
    cbn [attempt_loop]. rewrite Nat.add_0_r in H200. by rewrite H200, Nat.add_0_r.
  - destruct attempts as [|a attempts]; [cbn in Hlen; lia|].
    cbn [attempt_loop].
    rewrite <- (Nat.add_0_r posts) at 1. rewrite (H429 0%nat) by lia.
    rewrite (IH attempts (S posts)).
    + f_equal. lia.
    + cbn in Hlen. lia.
    + intros i Hi. replace (S posts + i)%nat with (posts + S i)%nat by lia.
      apply H429. lia.
    + replace (S posts + k)%nat with (posts + S k)%nat by lia. exact H200.
Qed.

(** X5: when the first k requests are answered 429 and the next one, still
    within the cap, is answered 200 with a text, the generator returns the
    cleaned text after k + 1 requests (for a company without website, so
    that no crawl comes first). *)
Theorem generation_succeeds_after_rate_limits (info : gmap string string)
    (posts k : nat) (texte : string) :
  dict_get info "website" "" = "" ->
  (Z.of_nat k < max_retries api_cfg) ->
  (forall i, (i < k)%nat -> api (posts + i)%nat = Status429) ->
  api (posts + k)%nat = Status200 (Ok texte) ->
  generer_lettre_motivation crawler_cfg api_cfg fetch api nettoyer info posts
  = (Ok (nettoyer texte (dict_get info "title" "votre entreprise")), S (posts + k)).
Proof.
  intros Hweb Hk H429 H200. unfold generer_lettre_motivation, generer_body.
  rewrite Hweb. change (eqs "" "") with true. cbn iota.
  rewrite (attempt_loop_success_after_429 k _ _ texte); try done.
  rewrite length_range. lia.
Qed.

End GenerationExtras.

(** ** The orchestrator *)

Section OrchestratorExtras.
Context {py : PyStr} {pu : PyUrl}.
Variable crawler_cfg : crawler_config.
Variable api_cfg : api_config.
Variable w : world.

Ltac break_ifs :=
  repeat match goal with
         | |- context [if ?b then _ else _] => destruct b eqn:?
         end.

(** What one task does to the throttle counter, the request count and the
    letter cache, whatever its company name and whether it raises or not. *)
Lemma traiter_email_fields (dry_run cache_lettres : bool)
    (email : string) (info : input_row) (nom : option string) (st : run_state) :
  let look := verifier_call (suivi st) email nom in
  let res := traiter_email crawler_cfg api_cfg w dry_run cache_lettres (email, info, nom) st in
  (0 <= api_calls_count st < api_calls_limit ->
   0 <= api_calls_count res.1 < api_calls_limit) /\
  (posts st <= posts res.1 <= posts st + Z.to_nat (max_retries api_cfg))%nat /\
  dom (lettres_cache st) ⊆ dom (lettres_cache res.1) /\
  ("" ∉ dom (lettres_cache st) -> "" ∉ dom (lettres_cache res.1)) /\
  (cache_lettres = false -> lettres_cache res.1 = lettres_cache st) /\
  (look.1 = true -> posts res.1 = posts st) /\
  (forall k, cache_lettres = true -> row_get info "category" "" = Some k -> k <> "" ->
     look.1 = false ->
     (is_Some nom -> k ∈ dom (lettres_cache res.1)) /\
     (k ∈ dom (lettres_cache st) ->
      posts res.1 = posts st /\ lettres_cache res.1 = lettres_cache st)).
Proof.
  cbv zeta. unfold traiter_email.
  destruct (verifier_call (suivi st) email nom) as [deja f].
  cbn [fst snd]. destruct deja.
  { cbn. repeat split; try done; lia. }
  set (st1 := if _ : bool then _ else set_suivi f st).
  assert (posts st1 = posts st /\ lettres_cache st1 = lettres_cache st /\
          (0 <= api_calls_count st < api_calls_limit ->
           0 <= api_calls_count st1 < api_calls_limit))
    as (Hp & Hc & Ha).
  { subst st1. unfold api_calls_limit. break_ifs; cbn in *; repeat split; try done; lia. }
  clearbody st1.
  destruct (generer_returns crawler_cfg api_cfg (w_fetch w) (w_api w) (w_nettoyer w)
              (info_text info) (posts st1)) as [texte Ht].
  pose proof (generer_posts_bounded crawler_cfg api_cfg (w_fetch w) (w_api w)
                (w_nettoyer w) (info_text info) (posts st1)) as Hb.
  destruct (generer_lettre_motivation _ _ _ _ _ _ _) as [r p].
  cbn in Ht, Hb. subst r. rewrite Hp in Hb.
  unfold envoyer_email_avec_cv, enregistrer.
  destruct cache_lettres;
    [destruct (row_get info "category" "") as [k|]; [destruct (eqs k "") eqn:Hk|]|];
    try destruct (lettres_cache st1 !! k) as [cached|] eqn:Hhit;
    destruct nom as [nom|]; cbn [replace_method];
    destruct dry_run; try destruct (w_smtp w _);
    cbn; rewrite ?Hp, ?Hc; try rewrite Hc in Hhit;
    (split; [exact Ha|]); (split; [lia|]);
    rewrite ?dom_insert_L;
    (split; [first [done | apply union_subseteq_r]|]);
    (split; [first [done | intros Hno Hin; apply elem_of_union in Hin as [Hin|Hin];
                           [apply elem_of_singleton in Hin; apply eqs_false in Hk; congruence
                           |done]]|]);
    (split; [done|]); (split; [done|]);
    intros k' Hon Hcat Hk' _;
    first [ discriminate Hon | discriminate Hcat
          | injection Hcat as <-;
            first [ apply eqs_true in Hk; congruence
                  | split;
                    [ first [ intros _; first [ apply elem_of_union_l; by apply elem_of_singleton
                                              | apply elem_of_dom; by eauto ]
                            | by intros [? [=]] ]
                    | intros Hin;
                      first [done | apply elem_of_dom in Hin as [v Hv]; congruence] ] ] ].
Qed.

(** A task that is found in the log only moves the skipped counter and the
    journal. *)
Lemma traiter_email_deja (dry_run cache_lettres : bool)
    (email : string) (info : input_row) (nom : option string) (st : run_state) :
  (verifier_call (suivi st) email nom).1 = true ->
  traiter_email crawler_cfg api_cfg w dry_run cache_lettres (email, info, nom) st
  = (set_skipped (emails_skipped st + 1)
       (logging (LogAlreadySent email nom) st), None).
Proof.
  intros Hlook. unfold traiter_email.
  assert ((verifier_call (suivi st) email nom).2 = suivi st) as Hf.
  { destruct nom, (suivi st); done. }
  destruct (verifier_call (suivi st) email nom) as [deja f].
  cbn [fst snd] in Hlook, Hf. subst deja f.
  unfold set_skipped, logging, set_suivi. cbn. done.
Qed.

Lemma build_tasks_cons (row : input_row) (rows : list input_row)
    (rp ef : Z) (acc : list task) (st : run_state) :
  exists ev,
    build_tasks (row :: rows) rp ef acc st
    = match task_of_row row with
      | Some t => build_tasks rows (rp + 1) (ef + 1) (acc ++ [t])%list (logging ev st)
      | None => build_tasks rows (rp + 1) ef acc (logging ev st)
      end.
Proof.
  cbn [build_tasks]. unfold task_of_row.
  destruct (row_get row "email" "") as [cell|]; [|eexists; reflexivity].
  destruct (negb (eqs cell "") && str_in "@" cell);
    [destruct (str_in "sentry" (lower (strip cell)))|];
    eexists; reflexivity.
Qed.

Lemma build_tasks_spec (rows : list input_row) (rp ef : Z)
    (acc : list task) (st : run_state) :
  exists j,
    build_tasks rows rp ef acc st
    = (rp + Z.of_nat (length rows), ef + Z.of_nat (length (tasks_of_rows rows)),
       (acc ++ tasks_of_rows rows)%list, set_journal j st).
Proof.
  revert rp ef acc st. induction rows as [|row rows IH]; intros rp ef acc st.
  - exists (journal st). cbn. rewrite app_nil_r, !Z.add_0_r. by destruct st.
  - destruct (build_tasks_cons row rows rp ef acc st) as [ev ->].
    unfold tasks_of_rows. cbn [omap list_omap length]. fold (tasks_of_rows rows).
    rewrite Nat2Z.inj_succ.
    destruct (task_of_row row) as [t|].
    + destruct (IH (rp + 1) (ef + 1) (acc ++ [t])%list (logging ev st)) as [j ->].
      exists j. cbn [length]. rewrite Nat2Z.inj_succ, <- app_assoc.
      repeat (apply pair_equal_spec; split); try lia; done.
    + destruct (IH (rp + 1) ef acc (logging ev st)) as [j ->].
      exists j. repeat (apply pair_equal_spec; split); try lia; done.
Qed.


(** The tasks of rows that have their title carry a company name. *)
Lemma tasks_of_rows_named (rows : list input_row) :
  Forall has_title rows -> Forall named (tasks_of_rows rows).
Proof.
  induction 1 as [|row rows Hrow _ IH]; [constructor|].
  unfold tasks_of_rows. cbn [omap list_omap]. fold (tasks_of_rows rows).
  destruct (task_of_row row) as [t|] eqn:Ht; [|exact IH].
  constructor; [|exact IH]. unfold task_of_row in Ht.
  destruct (row_get row "email" "") as [cell|]; [|discriminate].
  destruct (negb _ && _); [|discriminate].
  destruct (str_in "sentry" _); [discriminate|].
  injection Ht as <-. exact Hrow.
Qed.

(** No exception escapes the processing of tasks that carry a company
    name. *)
Lemma run_tasks_none (dry_run cache_lettres : bool) (tasks : list task) (st : run_state) :
  Forall named tasks ->
  (run_tasks crawler_cfg api_cfg w dry_run cache_lettres tasks st).2 = None.
Proof.
  intros Hnamed. revert st.
  induction Hnamed as [|[[email info] nom] tasks [name Hname] _ IH]; intros st; [done|].
  cbn [run_tasks]. cbn [snd] in Hname. subst nom.
  pose proof (traiter_email_cases crawler_cfg api_cfg w dry_run cache_lettres
                email info (Some name) st) as Hcase.
  cbv zeta in Hcase. cbn [replace_raises] in Hcase.
  destruct (traiter_email _ _ _ _ _ _ _) as [st1 exc]. cbn [fst snd] in Hcase.
  assert (exc = None) as ->.
  { destruct (verifier_call _ _ _).1; [|destruct (dry_run || _)];
      by destruct Hcase as [-> _]. }
  apply IH.
Qed.

(** A run that reads its input is the tasks of the rows, processed in order
    from the initial counters, followed by the summary, or by the error that
    a task raised. *)
Lemma process_shape (input_file : string) (rows : list input_row)
    (dry_run cache_lettres : bool) (f : option csv_file) :
  proceeds w = true ->
  exists j,
    process_csv_and_send_emails crawler_cfg api_cfg w input_file (Some rows)
      dry_run cache_lettres f
    = let res := run_tasks crawler_cfg api_cfg w dry_run cache_lettres
                   (tasks_of_rows rows) (set_journal j (initial_state f)) in
      match res.2 with
      | None =>
          logging (LogSummary (Z.of_nat (length rows))
                     (Z.of_nat (length (tasks_of_rows rows)))
                     (emails_sent res.1) (emails_skipped res.1)) res.1
      | Some e => logging (LogProcessingError e) res.1
      end.
Proof.
  intros Hgo. unfold process_csv_and_send_emails, proceeds in *.
  assert (forall start,
            exists j,
              (let '(rows_processed, emails_found, tasks, st0) := build_tasks rows 0 0 [] start in
               match run_tasks crawler_cfg api_cfg w dry_run cache_lettres tasks st0 with
               | (st1, None) =>
                   logging (LogSummary rows_processed emails_found (emails_sent st1)
                              (emails_skipped st1)) st1
               | (st1, Some e) => logging (LogProcessingError e) st1
               end)
              = let res := run_tasks crawler_cfg api_cfg w dry_run cache_lettres
                             (tasks_of_rows rows) (set_journal j start) in
                match res.2 with
                | None =>
                    logging (LogSummary (Z.of_nat (length rows))
                               (Z.of_nat (length (tasks_of_rows rows)))
                               (emails_sent res.1) (emails_skipped res.1)) res.1
                | Some e => logging (LogProcessingError e) res.1
                end) as Hbody.
  { intros start. destruct (build_tasks_spec rows 0 0 [] start) as [j ->].
    exists j. cbn [app]. rewrite !Z.add_0_l.
    by destruct (run_tasks _ _ _ _ _ _ _) as [st1 [exc|]]. }
  destruct (w_cv_exists w).
  - apply Hbody.
  - cbn in Hgo. rewrite Hgo.
    destruct (Hbody (logging LogCvMissing (initial_state f))) as [j Hj].
    exists j. exact Hj.
Qed.









Lemma run_tasks_budget (dry_run cache_lettres : bool) (tasks : list task) (st : run_state) :
  let res := (run_tasks crawler_cfg api_cfg w dry_run cache_lettres tasks st).1 in
  (posts res <= posts st + length tasks * Z.to_nat (max_retries api_cfg))%nat /\
  (0 <= api_calls_count st < api_calls_limit ->
   0 <= api_calls_count res < api_calls_limit) /\
  ("" ∉ dom (lettres_cache st) -> "" ∉ dom (lettres_cache res)) /\
  (cache_lettres = false -> lettres_cache res = lettres_cache st).
Proof.
  revert st. induction tasks as [|[[email info] nom] tasks IH]; intros st.
  - cbn. repeat split; try done; lia.
  - cbv zeta. cbn [run_tasks].
    pose proof (traiter_email_fields dry_run cache_lettres email info nom st)
      as (Ha & Hp & _ & Hc & Hoff & _).
    cbv zeta in Ha, Hp, Hc, Hoff.
    destruct (traiter_email crawler_cfg api_cfg w dry_run cache_lettres
                (email, info, nom) st) as [st1 [e|]]; cbn [fst snd] in *.
    + cbn [length]. repeat split; try done; try lia; by apply Ha.
    + specialize (IH st1). cbv zeta in IH. destruct IH as (Ip & Ia & Ic & Ioff).
      cbn [length]. repeat split.
      * lia.
      * apply Ia, Ha. done.
      * apply Ia, Ha. done.
      * intros Hno. by apply Ic, Hc.
      * intros Hoffv. rewrite Ioff, Hoff; done.
Qed.

(** X8: a run makes at most max_retries requests to the API per task; its
    counter of consecutive API calls stays below the limit of ten; the
    letter cache never gets the empty category as key and stays empty when
    caching is off. *)
Theorem run_api_budget (input_file : string) (rows : list input_row)
    (dry_run cache_lettres : bool) (f : option csv_file) :
  let run :=
    process_csv_and_send_emails crawler_cfg api_cfg w input_file (Some rows)
      dry_run cache_lettres f in
  (posts run <= length (tasks_of_rows rows) * Z.to_nat (max_retries api_cfg))%nat /\
  0 <= api_calls_count run < api_calls_limit /\
  ("" ∉ dom (lettres_cache run)) /\
  (cache_lettres = false -> lettres_cache run = ∅).
Proof.
  cbv zeta. destruct (proceeds w) eqn:Hgo.
  - destruct (process_shape input_file rows dry_run cache_lettres f Hgo) as [j ->].
    cbv zeta.
    pose proof (run_tasks_budget dry_run cache_lettres (tasks_of_rows rows)
                  (set_journal j (initial_state f))) as (Hp & Ha & Hc & Hoff).
    cbv zeta in Hp, Ha, Hc, Hoff.
    cbn [posts api_calls_count lettres_cache set_journal initial_state] in Hp, Ha, Hc, Hoff.
    destruct (run_tasks _ _ _ _ _ _ _) as [st1 [e|]];
      cbn [fst snd posts api_calls_count lettres_cache logging] in *;
      (split; [lia|]); (split; [apply Ha; unfold api_calls_limit; lia|]);
      (split; [apply Hc; by rewrite dom_empty_L|exact Hoff]).
  - unfold process_csv_and_send_emails, proceeds in *.
    apply orb_false_iff in Hgo as [-> ->]. cbn. unfold api_calls_limit.
    rewrite dom_empty_L. repeat split; try done; lia.
Qed.

(** X9: with caching on, once a task that carries a company name, of a
    non-empty category, and that is not found in the log has been processed,
    the category is in the cache, and the next task of the same category
    makes no request to the API: its letter comes from the cache (or the
    task is skipped, or it raises before any request when its company name
    is None). *)
Theorem second_task_of_category_makes_no_request (dry_run : bool)
    (email1 email2 nom1 category : string) (nom2 : option string)
    (info1 info2 : input_row) (st : run_state) :
  category <> "" ->
  row_get info1 "category" "" = Some category ->
  row_get info2 "category" "" = Some category ->
  (verifier_call (suivi st) email1 (Some nom1)).1 = false ->
  let st1 := (traiter_email crawler_cfg api_cfg w dry_run true
                (email1, info1, Some nom1) st).1 in
  let st2 := (traiter_email crawler_cfg api_cfg w dry_run true (email2, info2, nom2) st1).1 in
  (category ∈ dom (lettres_cache st1)) /\
  posts st2 = posts st1.
Proof.
  intros Hcat Hcat1 Hcat2 Hlook st1 st2.
  pose proof (traiter_email_fields dry_run true email1 info1 (Some nom1) st)
    as (_ & _ & _ & _ & _ & _ & H1).
  cbv zeta in H1. destruct (H1 category eq_refl Hcat1 Hcat Hlook) as [Hin _].
  specialize (Hin (mk_is_Some _ _ eq_refl)). fold st1 in Hin.
  split; [exact Hin|].
  pose proof (traiter_email_fields dry_run true email2 info2 nom2 st1)
    as (_ & _ & _ & _ & _ & Hfound & H2).
  cbv zeta in Hfound, H2. fold st2 in Hfound, H2.
  destruct (verifier_call (suivi st1) email2 nom2).1 eqn:Hlook2.
  - by apply Hfound.
  - destruct (H2 category eq_refl Hcat2 Hcat eq_refl) as [_ H3]. by destruct (H3 Hin).
Qed.

Lemma fresh_entries_app (base a1 a2 : list SendLogEntry) :
  fresh_entries base a1 -> fresh_entries (base ++ a1)%list a2 ->
  fresh_entries base (a1 ++ a2)%list.
Proof.
  revert base. induction a1 as [|x a1 IH]; intros base H1 H2.
  - by rewrite app_nil_r in H2.
  - cbn in *. destruct H1 as [Hx H1]. split; [exact Hx|].
    apply IH; [exact H1|]. by rewrite <- app_assoc.
Qed.

Lemma verifier_log_mono (l more : list SendLogEntry) (e c : string) :
  (verifier_email_deja_envoye (file_of_log (Some l)) e c).1 = true ->
  (verifier_email_deja_envoye (file_of_log (Some (l ++ more)%list)) e c).1 = true.
Proof.
  rewrite !verifier_log_iff. intros (x & Hx & Hm). exists x.
  split; [|done]. cbn in *. apply elem_of_app. by left.
Qed.

(** One task that carries a company name, on a log: the entries stay, at
    most one is added, and an added entry matches none before it; after a
    dry run the pair of the task is found by a lookup. *)
Lemma traiter_email_on_log (dry_run cache_lettres : bool) (email : string)
    (info : input_row) (nom : string) (st : run_state) (slog : send_log) :
  suivi st = file_of_log slog ->
  let res := (traiter_email crawler_cfg api_cfg w dry_run cache_lettres
                (email, info, Some nom) st).1 in
  exists added,
    suivi res = file_of_log (Some (log_entries slog ++ added)%list) /\
    fresh_entries (log_entries slog) added /\
    (dry_run = true -> (verifier_email_deja_envoye (suivi res) email nom).1 = true).
Proof.
  intros Hs. cbv zeta.
  pose proof (traiter_email_cases crawler_cfg api_cfg w dry_run cache_lettres
                email info (Some nom) st) as Hc.
  cbv zeta in Hc. cbn [verifier_call replace_raises cell_text default] in Hc.
  rewrite Hs, verifier_log_state in Hc.
  destruct (verifier_email_deja_envoye (file_of_log slog) email nom).1 eqn:Hlook.
  - exists []. destruct Hc as (_ & -> & _). rewrite app_nil_r.
    split; [done|]. split; [done|]. intros _.
    by rewrite verifier_normalised_log.
  - assert (forall y, y ∈ log_entries slog -> ~ entry_matches email nom y) as Hfresh.
    { intros y Hy Hm. apply not_true_iff_false in Hlook. apply Hlook.
      apply verifier_log_iff. by exists y. }
    rewrite enregistrer_log in Hc. cbn [snd log_entries default] in Hc.
    destruct (dry_run || w_smtp w (mails st)) eqn:Hsend.
    + destruct Hc as (_ & -> & _).
      exists [{| entry_email := email; entry_company := nom;
                 entry_date := w_now w (recordings st) |}].
      split; [done|]. split; [by split|]. intros _.
      apply verifier_log_iff. eexists. split.
      * cbn. apply elem_of_app. right. by apply list_elem_of_singleton.
      * by left.
    + destruct Hc as (_ & -> & _). exists []. rewrite app_nil_r.
      split; [done|]. split; [done|]. intros ->. discriminate.
Qed.

Lemma run_tasks_on_log (dry_run cache_lettres : bool) (tasks : list task)
    (st : run_state) (slog : send_log) :
  Forall named tasks ->
  suivi st = file_of_log slog ->
  let res := (run_tasks crawler_cfg api_cfg w dry_run cache_lettres tasks st).1 in
  exists added,
    (suivi res = file_of_log slog /\ added = [] \/
     suivi res = file_of_log (Some (log_entries slog ++ added)%list)) /\
    fresh_entries (log_entries slog) added /\
    (dry_run = true ->
     forall t, t ∈ tasks -> (verifier_call (suivi res) t.1.1 t.2).1 = true).
Proof.
  intros Hnamed. revert st slog.
  induction Hnamed as [|[[email info] nom] tasks [name Hname] Hrest IH]; intros st slog Hs.
  - exists []. cbn. split; [by left|]. split; [done|].
    intros _ t Ht. by apply elem_of_nil in Ht.
  - cbn [snd] in Hname. subst nom. cbv zeta. cbn [run_tasks].
    destruct (traiter_email_on_log dry_run cache_lettres email info name st slog Hs)
      as (a1 & Hs1 & Hf1 & Hc1). cbv zeta in Hs1, Hc1.
    assert (Forall named ((email, info, Some name) :: tasks)) as Hall
      by (constructor; [by eexists|done]).
    pose proof (run_tasks_none dry_run cache_lettres
                  ((email, info, Some name) :: tasks) st Hall) as Hnone.
    cbn [run_tasks] in Hnone.
    destruct (traiter_email crawler_cfg api_cfg w dry_run cache_lettres
                (email, info, Some name) st) as [st1 [e|]]; [discriminate|].
    cbn [fst] in Hs1, Hc1.
    destruct (IH _ _ Hs1) as (a2 & Hs2 & Hf2 & Hc2). cbv zeta in Hs2, Hc2.
    cbn [log_entries default] in Hs2, Hf2.
    exists (a1 ++ a2)%list.
    assert (suivi (run_tasks crawler_cfg api_cfg w dry_run cache_lettres tasks st1).1
            = file_of_log (Some (log_entries slog ++ a1 ++ a2)%list)) as Hfinal.
    { destruct Hs2 as [[-> ->] | ->]; [by rewrite app_nil_r|by rewrite app_assoc]. }
    split; [by right|]. split; [by apply fresh_entries_app|].
    intros Hdry t Ht. apply elem_of_cons in Ht as [->|Ht]; [|by apply Hc2].
    cbn [fst snd verifier_call]. specialize (Hc1 Hdry). rewrite Hs1 in Hc1.
    rewrite Hfinal, app_assoc. by apply verifier_log_mono.
Qed.

(** When every task is found in the log, the run only counts skips. *)
Lemma run_tasks_all_found (dry_run cache_lettres : bool) (tasks : list task)
    (st : run_state) :
  (forall t, t ∈ tasks -> (verifier_call (suivi st) t.1.1 t.2).1 = true) ->
  let res := run_tasks crawler_cfg api_cfg w dry_run cache_lettres tasks st in
  res.2 = None /\
  suivi res.1 = suivi st /\ emails_sent res.1 = emails_sent st /\
  mails res.1 = mails st /\ posts res.1 = posts st /\ recordings res.1 = recordings st /\
  emails_skipped res.1 = emails_skipped st + Z.of_nat (length tasks).
Proof.
  revert st. induction tasks as [|[[email info] nom] tasks IH]; intros st Hall.
  - cbn. repeat split; lia.
  - cbv zeta. cbn [run_tasks].
    rewrite (traiter_email_deja dry_run cache_lettres email info nom st)
      by (apply (Hall (email, info, nom)); left).
    destruct (IH (set_skipped (emails_skipped st + 1)
                    (logging (LogAlreadySent email nom) st)))
      as (I0 & I1 & I2 & I3 & I4 & I5 & I6).
    { intros t Ht. cbn [suivi set_skipped logging]. apply Hall. by right. }
    cbv zeta in I0, I1, I2, I3, I4, I5, I6.
    rewrite I0, I1, I2, I3, I4, I5, I6. cbn [length]. cbn. repeat split; lia.
Qed.

End OrchestratorExtras.

Section RunsOnLogs.
Context {py : PyStr} {pu : PyUrl}.
Variable crawler_cfg : crawler_config.
Variable api_cfg : api_config.

(** X10: within a run over rows that all have their title cell, no pair is
    recorded that matches, on email or on company name up to case, an entry
    already in the log or recorded earlier in the run: the log after the run
    is the log before it followed by entries each of which matches none
    before it. *)
Theorem run_records_fresh_pairs (w : world) (input_file : string)
    (input : option (list input_row)) (dry_run cache_lettres : bool)
    (slog : send_log) :
  Forall has_title (default [] input) ->
  let run :=
    process_csv_and_send_emails crawler_cfg api_cfg w input_file input
      dry_run cache_lettres (file_of_log slog) in
  exists (slog' : send_log) (added : list SendLogEntry),
    suivi run = file_of_log slog' /\
    log_entries slog' = (log_entries slog ++ added)%list /\
    fresh_entries (log_entries slog) added.
Proof.
  intros Htitles. cbv zeta.
  assert (exists (slog' : send_log) (added : list SendLogEntry),
            file_of_log slog = file_of_log slog' /\
            log_entries slog' = (log_entries slog ++ added)%list /\
            fresh_entries (log_entries slog) added) as Hsame.
  { exists slog, []. by rewrite app_nil_r. }
  destruct input as [rows|].
  - destruct (proceeds w) eqn:Hgo.
    + destruct (process_shape crawler_cfg api_cfg w input_file rows dry_run cache_lettres
                  (file_of_log slog) Hgo) as [j ->].
      cbv zeta.
      destruct (run_tasks_on_log crawler_cfg api_cfg w dry_run cache_lettres
                  (tasks_of_rows rows) (set_journal j (initial_state (file_of_log slog)))
                  slog (tasks_of_rows_named rows Htitles) eq_refl) as (added & Hs & Hf & _).
      cbv zeta in Hs.
      assert (forall ev,
                suivi (logging ev
                         (run_tasks crawler_cfg api_cfg w dry_run cache_lettres
                            (tasks_of_rows rows)
                            (set_journal j (initial_state (file_of_log slog)))).1)
                = suivi (run_tasks crawler_cfg api_cfg w dry_run cache_lettres
                           (tasks_of_rows rows)
                           (set_journal j (initial_state (file_of_log slog)))).1)
        as Hlogging by done.
      destruct (run_tasks _ _ _ _ _ _ _).2; rewrite Hlogging;
        (destruct Hs as [[-> ->] | ->];
         [exact Hsame|by exists (Some (log_entries slog ++ added)%list), added]).
    + unfold process_csv_and_send_emails, proceeds in *.
      apply orb_false_iff in Hgo as [-> ->]. exact Hsame.
  - unfold process_csv_and_send_emails.
    destruct (w_cv_exists w); [exact Hsame|]. destruct (eqs _ _); exact Hsame.
Qed.

(** X11: after a dry run over rows that all have their title cell, started
    from a log, a further run over the same input, dry or live, with or
    without cache, whatever the outside answers, sends no email: it calls
    neither the mailer nor the API, counts every task as skipped and leaves
    the log as it is.  The dry run has recorded every pair as sent. *)
Theorem nothing_sent_after_dry_run (w1 w2 : world) (input_file : string)
    (rows : list input_row) (dry_run2 cache1 cache2 : bool)
    (slog : send_log) :
  proceeds w1 = true ->
  proceeds w2 = true ->
  Forall has_title rows ->
  let run1 :=
    process_csv_and_send_emails crawler_cfg api_cfg w1 input_file (Some rows)
      true cache1 (file_of_log slog) in
  let run2 :=
    process_csv_and_send_emails crawler_cfg api_cfg w2 input_file (Some rows)
      dry_run2 cache2 (suivi run1) in
  emails_sent run2 = 0 /\ mails run2 = 0%nat /\ posts run2 = 0%nat /\
  emails_skipped run2 = Z.of_nat (length (tasks_of_rows rows)) /\
  suivi run2 = suivi run1.
Proof.
  intros Hgo1 Hgo2 Htitles run1 run2. subst run2 run1.
  destruct (process_shape crawler_cfg api_cfg w1 input_file rows true cache1
              (file_of_log slog) Hgo1) as [j1 ->].
  cbv zeta.
  destruct (run_tasks_on_log crawler_cfg api_cfg w1 true cache1
              (tasks_of_rows rows) (set_journal j1 (initial_state (file_of_log slog)))
              slog (tasks_of_rows_named rows Htitles) eq_refl) as (added & _ & _ & Hcov).
  cbv zeta in Hcov. specialize (Hcov eq_refl).
  set (f1 := suivi (run_tasks crawler_cfg api_cfg w1 true cache1 (tasks_of_rows rows)
                      (set_journal j1 (initial_state (file_of_log slog)))).1) in *.
  assert (suivi match (run_tasks crawler_cfg api_cfg w1 true cache1 (tasks_of_rows rows)
                         (set_journal j1 (initial_state (file_of_log slog)))).2 with
                | Some e =>
                    logging (LogProcessingError e)
                      (run_tasks crawler_cfg api_cfg w1 true cache1 (tasks_of_rows rows)
                         (set_journal j1 (initial_state (file_of_log slog)))).1
                | None =>
                    logging
                      (LogSummary (Z.of_nat (length rows))
                         (Z.of_nat (length (tasks_of_rows rows)))
                         (emails_sent
                            (run_tasks crawler_cfg api_cfg w1 true cache1 (tasks_of_rows rows)
                               (set_journal j1 (initial_state (file_of_log slog)))).1)
                         (emails_skipped
                            (run_tasks crawler_cfg api_cfg w1 true cache1 (tasks_of_rows rows)
                               (set_journal j1 (initial_state (file_of_log slog)))).1))
                      (run_tasks crawler_cfg api_cfg w1 true cache1 (tasks_of_rows rows)
                         (set_journal j1 (initial_state (file_of_log slog)))).1
                end = f1) as ->.
  { by destruct (run_tasks _ _ _ _ _ _ _).2. }
  destruct (process_shape crawler_cfg api_cfg w2 input_file rows dry_run2 cache2 f1 Hgo2)
    as [j2 ->].
  cbv zeta.
  destruct (run_tasks_all_found crawler_cfg api_cfg w2 dry_run2 cache2 (tasks_of_rows rows)
              (set_journal j2 (initial_state f1)) Hcov)
    as (H0 & H1 & H2 & H3 & H4 & _ & H6).
  cbv zeta in H0, H1, H2, H3, H4, H6. rewrite H0.
  cbn [suivi emails_sent emails_skipped mails posts logging].
  rewrite H1, H2, H3, H4, H6. cbn. repeat split; lia.
Qed.

End RunsOnLogs.

(** ** The crawler *)

Section CrawlerExtras.
Context {py : PyStr} {pu : PyUrl}.
Variable config : crawler_config.
Variable fetch : string -> fetch_outcome.

Lemma enqueue_links_on_site (base_url netloc : string) (visited : gset string)
    (links : list string) (next : gset string) :
  (forall u, u ∈ next -> on_site base_url netloc u) ->
  forall u, u ∈ (enqueue_links base_url netloc visited links next).1 ->
            on_site base_url netloc u.
Proof.
  revert next. induction links as [|href links IH]; intros next Hnext; [exact Hnext|].
  cbn [enqueue_links].
  destruct (startswith href "/" || _); [|by apply IH].
  destruct (urlparse (urljoin base_url href)) as [[[scheme full_netloc] path]|e] eqn:Hparse;
    [|exact Hnext].
  apply IH.
  destruct (eqs full_netloc netloc && _ && _) eqn:Hcond; [|exact Hnext].
  apply andb_true_iff in Hcond as [Hcond Hkey].
  apply andb_true_iff in Hcond as [Hnet _]. apply eqs_true in Hnet. subst full_netloc.
  intros u Hu. apply elem_of_union in Hu as [Hu|Hu]; [|by apply Hnext].
  apply elem_of_singleton in Hu. subst u. right. split; [eauto|exact Hkey].
Qed.

Lemma visit_next_on_site (base_url netloc : string) (depth : Z) (st : crawl_state)
    (current_url : string) :
  (forall u, u ∈ next_depth_urls st -> on_site base_url netloc u) ->
  forall u, u ∈ next_depth_urls (visit config fetch base_url netloc depth st current_url) ->
            on_site base_url netloc u.
Proof.
  intros Hnext. unfold visit.
  destruct (bool_decide _); [exact Hnext|].
  destruct (fetch current_url) as [| |p]; try exact Hnext.
  destruct (urlparse current_url) as [[[? ?] path]|]; [|exact Hnext].
  destruct (page_extract p _ _ _) as [res raised].
  destruct raised; [exact Hnext|].
  destruct (depth <? max_depth config - 1); [|exact Hnext].
  cbn [next_depth_urls]. by apply enqueue_links_on_site.
Qed.

Lemma level_next_on_site (base_url netloc : string) (depth : Z) (l : list string)
    (st : crawl_state) :
  (forall u, u ∈ next_depth_urls st -> on_site base_url netloc u) ->
  forall u, u ∈ next_depth_urls (foldl (visit config fetch base_url netloc depth) st l) ->
            on_site base_url netloc u.
Proof.
  revert st. induction l as [|x l IH]; intros st Hnext; [exact Hnext|].
  cbn [foldl]. apply IH. by apply visit_next_on_site.
Qed.

Lemma crawl_while_on_site (fuel : nat) (base_url netloc : string)
    (current : gset string) (depth : Z) (st : crawl_state) :
  (forall u, u ∈ current -> on_site base_url netloc u) ->
  (forall u, u ∈ visited_urls st -> on_site base_url netloc u) ->
  (forall u, u ∈ next_depth_urls st -> on_site base_url netloc u) ->
  forall u,
    u ∈ visited_urls (crawl_while config fetch fuel base_url netloc current depth st) ->
    on_site base_url netloc u.
Proof.
  revert current depth st.
  induction fuel as [|fuel IH]; intros current depth st Hcur Hvis Hnext; [exact Hvis|].
  cbn [crawl_while].
  destruct (negb _ && _ && _); [|exact Hvis].
  apply IH.
  - by apply level_next_on_site.
  - cbn [visited_urls]. rewrite level_visits_all. intros u Hu.
    apply elem_of_union in Hu as [Hu|Hu]; [|by apply Hvis].
    apply elem_of_list_to_set, elem_of_elements in Hu. by apply Hcur.
  - cbn [next_depth_urls]. intros u Hu. by apply elem_of_empty in Hu.
Qed.

(** X12: the crawler never fetches a page of another host: every URL it
    visits is the base URL or a URL on the host of the base URL that
    contains one of the target keywords. *)
Theorem crawl_stays_on_site (url scheme netloc path : string) (st : crawl_state) :
  urlparse url = Ok (scheme, netloc, path) ->
  crawl config fetch url = Ok st ->
  forall u, u ∈ visited_urls st -> on_site (scheme ++ "://" ++ netloc) netloc u.
Proof.
  intros Hparse Hcrawl. unfold crawl in Hcrawl. rewrite Hparse in Hcrawl.
  cbn in Hcrawl. injection Hcrawl as <-.
  apply crawl_while_on_site.
  - intros u Hu. apply elem_of_singleton in Hu. by left.
  - intros u Hu. by apply elem_of_empty in Hu.
  - intros u Hu. by apply elem_of_empty in Hu.
Qed.

Lemma dedup_take_capped (n : nat) (l : list string) :
  (length (dedup_take n l) <= n)%nat /\ NoDup (dedup_take n l) /\
  (forall x, x ∈ dedup_take n l -> x ∈ l).
Proof.
  unfold dedup_take. split; [rewrite length_take; lia|]. split.
  - apply (sublist_NoDup _ (elements (list_to_set l : gset string)));
      [apply NoDup_elements|apply sublist_take].
  - intros x Hx. apply elem_of_take in Hx as (i & Hx & _).
    apply list_elem_of_lookup_2 in Hx. apply elem_of_elements in Hx.
    by apply elem_of_list_to_set in Hx.
Qed.

(** X13: whatever the site serves, the result holds at most five values,
    five domains of expertise and three projects, each list without
    repetition. *)
Theorem crawler_result_capped (url : string) (r : site_info) :
  crawler_site_entreprise config fetch url = Ok r ->
  ((length (valeurs r) <= 5)%nat /\ NoDup (valeurs r)) /\
  ((length (expertises r) <= 5)%nat /\ NoDup (expertises r)) /\
  ((length (projets r) <= 3)%nat /\ NoDup (projets r)).
Proof.
  unfold crawler_site_entreprise.
  destruct (eqs url "" || _).
  { intros [= <-]. cbn. repeat split; try lia; apply NoDup_nil_2. }
  destruct (crawl config fetch url) as [st|e]; [|discriminate].
  cbn. intros [= <-]. cbn.
  repeat split; apply dedup_take_capped.
Qed.


Lemma visit_without_page (base_url netloc : string) (depth : Z) (st : crawl_state)
    (u : string) :
  (forall v p, fetch v <> FetchPage p) ->
  results (visit config fetch base_url netloc depth st u) = results st /\
  next_depth_urls (visit config fetch base_url netloc depth st u) = next_depth_urls st.
Proof.
  intros Hno. unfold visit. destruct (bool_decide _); [done|].
  destruct (fetch u) as [| |p] eqn:Hf; [done|done|]. by destruct (Hno u p).
Qed.

Lemma level_without_page (base_url netloc : string) (depth : Z) (l : list string)
    (st : crawl_state) :
  (forall v p, fetch v <> FetchPage p) ->
  results (foldl (visit config fetch base_url netloc depth) st l) = results st /\
  next_depth_urls (foldl (visit config fetch base_url netloc depth) st l)
  = next_depth_urls st.
Proof.
  intros Hno. revert st. induction l as [|x l IH]; intros st; [done|].
  cbn [foldl]. destruct (IH (visit config fetch base_url netloc depth st x)) as [-> ->].
  by apply visit_without_page.
Qed.

Lemma crawl_while_without_page (fuel : nat) (base_url netloc : string)
    (current : gset string) (depth : Z) (st : crawl_state) :
  (forall v p, fetch v <> FetchPage p) ->
  next_depth_urls st = ∅ ->
  let st' := crawl_while config fetch fuel base_url netloc current depth st in
  results st' = results st /\ visited_urls st' ⊆ current ∪ visited_urls st.
Proof.
  intros Hno. revert current depth st.
  induction fuel as [|fuel IH]; intros current depth st Hnext; cbv zeta.
  - cbn. split; [done|]. apply union_subseteq_r.
  - cbn [crawl_while]. destruct (negb _ && _ && _); [|split; [done|apply union_subseteq_r]].
    destruct (level_without_page base_url netloc depth (elements current) st Hno) as [Hr Hn].
    rewrite Hn, Hnext.
    destruct (IH ∅ (depth + 1)
                {| results := results (foldl (visit config fetch base_url netloc depth) st
                                         (elements current));
                   visited_urls := visited_urls (foldl (visit config fetch base_url netloc depth)
                                                   st (elements current));
                   next_depth_urls := ∅ |} eq_refl) as [Hr' Hv'].
    split; [etransitivity; [exact Hr'|exact Hr]|].
    etransitivity; [exact Hv'|]. cbn [visited_urls]. rewrite level_visits_all.
    intros u Hu. apply elem_of_union in Hu as [Hu|Hu]; [by apply elem_of_empty in Hu|].
    apply elem_of_union in Hu as [Hu|Hu].
    + apply elem_of_union_l. by apply elem_of_list_to_set, elem_of_elements in Hu.
    + by apply elem_of_union_r.
Qed.

(** X14: when no page of the site answers with status 200 (requests fail
    or are refused), the crawler returns the all-empty result, unless
    urlparse rejects the URL, and visits nothing beyond the base URL. *)
Theorem crawl_of_unreachable_site (url : string) :
  (forall v p, fetch v <> FetchPage p) ->
  (crawler_site_entreprise config fetch url = Ok empty_site_info \/
   exists e, urlparse url = Raise e) /\
  (forall scheme netloc path st,
     urlparse url = Ok (scheme, netloc, path) ->
     crawl config fetch url = Ok st ->
     visited_urls st ⊆ {[ scheme ++ "://" ++ netloc ]}).
Proof.
  intros Hno.
  assert (forall scheme netloc path st,
            urlparse url = Ok (scheme, netloc, path) ->
            crawl config fetch url = Ok st ->
            results st = empty_site_info /\
            visited_urls st ⊆ {[ scheme ++ "://" ++ netloc ]}) as Hcrawl.
  { intros scheme netloc path st Hparse Hc. unfold crawl in Hc. rewrite Hparse in Hc.
    cbn in Hc. injection Hc as <-.
    destruct (crawl_while_without_page (Z.to_nat (max_depth config))
                (scheme ++ "://" ++ netloc) netloc {[ scheme ++ "://" ++ netloc ]} 0
                {| results := empty_site_info; visited_urls := ∅; next_depth_urls := ∅ |}
                Hno eq_refl) as [Hr Hv].
    split; [exact Hr|]. etransitivity; [exact Hv|]. cbn [visited_urls].
    by rewrite (right_id_L ∅ (∪)). }
  split.
  - unfold crawler_site_entreprise.
    destruct (eqs url "" || _); [by left|].
    destruct (urlparse url) as [[[scheme netloc] path]|e] eqn:Hparse; [left|right; by exists e].
    destruct (crawl config fetch url) as [st|e] eqn:Hc.
    + destruct (Hcrawl scheme netloc path st eq_refl eq_refl) as [Hr _].
      cbn. rewrite Hr. unfold dedup_take.
      cbn [valeurs expertises projets description empty_site_info].
      by rewrite list_to_set_nil, elements_empty.
    + unfold crawl in Hc. rewrite Hparse in Hc. discriminate.
  - intros scheme netloc path st Hparse Hc. by eapply Hcrawl.
Qed.

(** X15: the limits at their edge: with max_depth or max_pages at zero or
    below nothing is fetched, and with max_depth at one no link is followed,
    only the base URL can be fetched. *)
Theorem crawl_limits_at_edge (url scheme netloc path : string) (st : crawl_state) :
  urlparse url = Ok (scheme, netloc, path) ->
  crawl config fetch url = Ok st ->
  (max_depth config <= 0 \/ max_pages config <= 0 -> visited_urls st = ∅) /\
  (max_depth config <= 1 -> visited_urls st ⊆ {[ scheme ++ "://" ++ netloc ]}).
Proof.
  intros Hparse Hc. unfold crawl in Hc. rewrite Hparse in Hc.
  cbn in Hc. injection Hc as <-. split.
  - intros Hzero. destruct (Z.to_nat (max_depth config)) as [|fuel] eqn:Hfuel; [done|].
    cbn [crawl_while visited_urls].
    assert ((0 <? max_depth config)
            && (Z.of_nat (size (∅ : gset string)) <? max_pages config) = false) as Hcond.
    { rewrite size_empty. destruct Hzero as [H|H]; [exfalso; lia|]. apply andb_false_iff. right. apply Z.ltb_ge. exact H. }
    rewrite <- andb_assoc, Hcond, andb_false_r. done.
  - intros Hone. destruct (Z.to_nat (max_depth config)) as [|[|fuel]] eqn:Hfuel; [done| |lia].
    cbn [crawl_while]. destruct (negb _ && _ && _); [|done].
    cbn [visited_urls]. rewrite level_visits_all. cbn [visited_urls].
    intros u Hu. apply elem_of_union in Hu as [Hu|Hu]; [|by apply elem_of_empty in Hu].
    by apply elem_of_list_to_set, elem_of_elements in Hu.
Qed.

End CrawlerExtras.

(** ** The normalisation pipeline *)

Section PipelineExtras.
Context {py : PyStr}.
Variable parse_amenities : gmap string string -> result string.

Lemma print_if_fields (b : bool) (ev : print_event) (st : pipeline_state) :
  rows_processed (print_if b ev st) = rows_processed st /\
  emails_found (print_if b ev st) = emails_found st /\
  emails_rejected (print_if b ev st) = emails_rejected st /\
  processed_emails (print_if b ev st) = processed_emails st /\
  written (print_if b ev st) = written st.
Proof. by destruct b. Qed.

(** Building a row leaves the counters alone; it either appends the row of
    the email, with the plain columns of the input row, or raises and
    writes nothing. *)
Lemma build_row_result (row : gmap string string) (email : string) (st : pipeline_state) :
  let res := build_row parse_amenities row email st in
  rows_processed res.1 = rows_processed st /\
  emails_found res.1 = emails_found st /\
  emails_rejected res.1 = emails_rejected st /\
  match res.2 with
  | None =>
      exists r, written res.1 = (written st ++ [r])%list /\
        nr_email r = email /\
        nr_title r = dict_get row "title" "" /\
        nr_category r = dict_get row "category" "" /\
        nr_address r = dict_get row "address" "" /\
        nr_website r = dict_get row "website" "" /\
        nr_phone r = dict_get row "phone" "" /\
        nr_link r = dict_get row "link" ""
  | Some _ => written res.1 = written st
  end.
Proof.
  cbv zeta. unfold build_row.
  destruct (parse_owner _) as [[[oid oname] oerr]|e]; [|done].
  pose proof (print_if_fields (oerr && (rows_processed st <=? 2))
                (PrintOwnerError (rows_processed st)) st) as (A1 & A2 & A3 & _ & A5).
  set (st1 := print_if _ _ st) in *.
  destruct (parse_address _) as [[a aerr]|e]; [|done].
  pose proof (print_if_fields (aerr && (rows_processed st1 <=? 2))
                (PrintAddressError (rows_processed st1)) st1) as (B1 & B2 & B3 & _ & B5).
  set (st2 := print_if _ _ st1) in *.
  destruct (parse_amenities row) as [flag|e]; cbn.
  - repeat split; try congruence. eexists. split; [by rewrite B5, A5|]. done.
  - repeat split; congruence.
Qed.

Lemma process_emails_counts (row : gmap string string) (l : list string)
    (st : pipeline_state) :
  let res := process_emails parse_amenities row l st in
  rows_processed res.1 = rows_processed st /\
  match res.2 with
  | None =>
      emails_found res.1 - emails_found st
      = Z.of_nat (length (written res.1)) - Z.of_nat (length (written st)) /\
      emails_found res.1 + emails_rejected res.1
      = emails_found st + emails_rejected st + Z.of_nat (length l)
  | Some _ =>
      emails_found res.1 - emails_found st
      = Z.of_nat (length (written res.1)) - Z.of_nat (length (written st)) + 1
  end.
Proof.
  revert st. induction l as [|email l IH]; intros st; cbv zeta.
  - cbn. repeat split; lia.
  - cbn [process_emails].
    destruct (rejected (processed_emails st) (clean_email email)).
    + match goal with |- context [process_emails _ _ _ ?s] => specialize (IH s) end.
      cbv zeta in IH. destruct IH as [I1 I2]. cbn [rows_processed] in I1.
      split; [exact I1|].
      destruct (process_emails _ _ _ _) as [st' [e|]]; cbn in *; [lia|].
      rewrite ?Nat2Z.inj_succ, ?Zpos_P_of_succ_nat. lia.
    + match goal with |- context [build_row _ _ _ ?s] =>
        pose proof (build_row_result row (clean_email email) s) as (B1 & B2 & B3 & B4) end.
      cbv zeta in B1, B2, B3, B4. cbn [rows_processed emails_found emails_rejected written] in *.
      destruct (build_row _ _ _ _) as [st1 [e|]]; cbn [fst snd] in *.
      * split; [exact B1|]. rewrite B2, B4. lia.
      * destruct B4 as (r & Hw & _).
        specialize (IH st1). cbv zeta in IH. destruct IH as [I1 I2].
        split; [congruence|].
        rewrite Hw, length_app in I2. cbn [length] in I2.
        destruct (process_emails _ _ _ _) as [st' [e|]]; cbn [fst snd length] in *;
          rewrite ?Nat2Z.inj_succ; lia.
Qed.

Lemma process_rows_counts (rows : list (gmap string string)) (st : pipeline_state) :
  let res := process_rows parse_amenities rows st in
  match res.2 with
  | None =>
      rows_processed res.1 = rows_processed st + Z.of_nat (length rows) /\
      emails_found res.1 - emails_found st
      = Z.of_nat (length (written res.1)) - Z.of_nat (length (written st)) /\
      emails_found res.1 + emails_rejected res.1
      = emails_found st + emails_rejected st + Z.of_nat (length (candidates rows))
  | Some _ =>
      rows_processed st < rows_processed res.1 <= rows_processed st + Z.of_nat (length rows) /\
      emails_found res.1 - emails_found st
      = Z.of_nat (length (written res.1)) - Z.of_nat (length (written st)) + 1
  end.
Proof.
  revert st. induction rows as [|row rows IH]; intros st; cbv zeta.
  - cbn. repeat split; lia.
  - cbn [process_rows length]. unfold candidates. rewrite fmap_cons. cbn [concat].
    fold (candidates rows). rewrite length_app.
    set (st1 := {| rows_processed := rows_processed st + 1 |}).
    assert (forall b ev,
              match (process_rows parse_amenities rows (print_if b ev st1)).2 with
              | None =>
                  rows_processed (process_rows parse_amenities rows (print_if b ev st1)).1
                  = rows_processed st + Z.of_nat (S (length rows)) /\
                  emails_found (process_rows parse_amenities rows (print_if b ev st1)).1
                  - emails_found st
                  = Z.of_nat (length (written
                       (process_rows parse_amenities rows (print_if b ev st1)).1))
                    - Z.of_nat (length (written st)) /\
                  emails_found (process_rows parse_amenities rows (print_if b ev st1)).1
                  + emails_rejected (process_rows parse_amenities rows (print_if b ev st1)).1
                  = emails_found st + emails_rejected st + Z.of_nat (length (candidates rows))
              | Some _ =>
                  rows_processed st
                  < rows_processed (process_rows parse_amenities rows (print_if b ev st1)).1
                  <= rows_processed st + Z.of_nat (S (length rows)) /\
                  emails_found (process_rows parse_amenities rows (print_if b ev st1)).1
                  - emails_found st
                  = Z.of_nat (length (written
                       (process_rows parse_amenities rows (print_if b ev st1)).1))
                    - Z.of_nat (length (written st)) + 1
              end) as Hskip.
    { intros b ev. specialize (IH (print_if b ev st1)). cbv zeta in IH.
      destruct (print_if_fields b ev st1) as (P1 & P2 & P3 & _ & P5).
      rewrite P1, P2, P3, P5 in IH. cbn [rows_processed emails_found emails_rejected written st1] in IH.
      destruct (process_rows _ _ _).2; lia. }
    destruct (eqs (dict_get row "emails" "") "") eqn:Hempty.
    { apply eqs_true in Hempty. rewrite Hempty. cbn [re_findall String.length findall_fuel length].
      apply Hskip. }
    destruct (re_findall permissive_pattern (dict_get row "emails" "")) as [|c l] eqn:Hfind.
    { cbn [length]. apply Hskip. }
    pose proof (process_emails_counts row (c :: l) st1) as [E1 E2]. cbv zeta in E1, E2.
    cbn [rows_processed emails_found emails_rejected written st1] in E1, E2.
    destruct (process_emails _ _ _ _) as [st2 [e|]]; cbn [fst snd] in *.
    + rewrite E1. split; [rewrite Nat2Z.inj_succ; lia|exact E2].
    + specialize (IH st2). cbv zeta in IH.
      destruct (process_rows _ _ _) as [st3 [e|]]; cbn [fst snd] in *;
        rewrite ?Nat2Z.inj_add, ?Nat2Z.inj_succ; lia.
Qed.

(** X16: the statistics of a successful pipeline run are exact.  When the
    run returns True, it has printed, as its last two messages, the counts
    and the name of the output file; the rows processed are all the rows of
    the input, every email counted as found was written, and found plus
    rejected is the number of candidates that the permissive pattern finds
    in the input. *)
Theorem pipeline_counts (input_file output_file : string)
    (rows : list (gmap string string)) :
  let res := improve_csv parse_amenities input_file (Some rows) output_file in
  res.1 = true ->
  rows_processed res.2 = Z.of_nat (length rows) /\
  emails_found res.2 = Z.of_nat (length (written res.2)) /\
  emails_found res.2 + emails_rejected res.2 = Z.of_nat (length (candidates rows)) /\
  exists before,
    printed res.2
    = (before ++ [PrintDone (Z.of_nat (length rows)) (Z.of_nat (length (written res.2)))
                    (emails_rejected res.2);
                  PrintSaved output_file])%list.
Proof.
  cbv zeta. unfold improve_csv.
  pose proof (process_rows_counts rows initial_pipeline_state) as H. cbv zeta in H.
  destruct (process_rows _ _ _) as [st [e|]]; cbn [fst snd] in *; [discriminate|].
  intros _. destruct H as (H1 & H2 & H3). cbn in H1, H2, H3.
  cbn [rows_processed emails_found emails_rejected written printed print].
  split; [lia|]. split; [lia|]. split; [lia|].
  exists (printed st). rewrite <- app_assoc. cbn [app].
  replace (rows_processed st) with (Z.of_nat (length rows)) by lia.
  replace (emails_found st) with (Z.of_nat (length (written st))) by lia.
  reflexivity.
Qed.

Lemma process_emails_made_from (all : list (gmap string string))
    (row : gmap string string) (l : list string) (st : pipeline_state) :
  row ∈ all ->
  (forall c, c ∈ l -> c ∈ re_findall permissive_pattern (dict_get row "emails" "")) ->
  Forall (fun r => exists row, row ∈ all /\ made_from row r) (written st) ->
  Forall (fun r => exists row, row ∈ all /\ made_from row r)
    (written (process_emails parse_amenities row l st).1).
Proof.
  intros Hrow. revert st. induction l as [|c l IH]; intros st Hl Hst; [exact Hst|].
  cbn [process_emails].
  assert (forall c', c' ∈ l ->
            c' ∈ re_findall permissive_pattern (dict_get row "emails" "")) as Hl'.
  { intros c' Hc'. apply Hl. by right. }
  destruct (rejected (processed_emails st) (clean_email c)) eqn:Hrej.
  { apply IH; [exact Hl'|exact Hst]. }
  unfold rejected in Hrej. apply orb_false_iff in Hrej as [Hrej _].
  apply orb_false_iff in Hrej as [Hvalid _]. apply negb_false_iff in Hvalid.
  match goal with |- context [build_row _ _ _ ?s] =>
    pose proof (build_row_result row (clean_email c) s) as (_ & _ & _ & B4);
    assert (Forall (fun r => exists row, row ∈ all /\ made_from row r) (written s))
      as Hs by exact Hst
  end.
  cbv zeta in B4.
  destruct (build_row _ _ _ _) as [st1 [e|]]; cbn [fst snd] in *.
  - by rewrite B4.
  - apply IH; [exact Hl'|].
    destruct B4 as (r & -> & He & Ht & Hc & Ha & Hw & Hp & Hk).
    apply Forall_app. split; [exact Hs|]. apply Forall_singleton.
    exists row. split; [exact Hrow|]. unfold made_from. rewrite He.
    split; [exists c; split; [apply Hl; by left|done]|]. done.
Qed.

Lemma process_rows_made_from (all rows : list (gmap string string))
    (st : pipeline_state) :
  (forall row, row ∈ rows -> row ∈ all) ->
  Forall (fun r => exists row, row ∈ all /\ made_from row r) (written st) ->
  Forall (fun r => exists row, row ∈ all /\ made_from row r)
    (written (process_rows parse_amenities rows st).1).
Proof.
  revert st. induction rows as [|row rows IH]; intros st Hsub Hst; [exact Hst|].
  cbn [process_rows].
  assert (forall row', row' ∈ rows -> row' ∈ all) as Hsub'.
  { intros row' Hr. apply Hsub. by right. }
  set (st1 := {| rows_processed := rows_processed st + 1 |}).
  assert (forall b ev,
            Forall (fun r => exists row, row ∈ all /\ made_from row r)
              (written (print_if b ev st1))) as Hpr.
  { intros b ev. by destruct b. }
  destruct (eqs (dict_get row "emails" "") ""); [by apply IH|].
  destruct (re_findall permissive_pattern (dict_get row "emails" "")) as [|c l] eqn:Hfind;
    [by apply IH|].
  pose proof (process_emails_made_from all row (c :: l) st1) as Hpe.
  rewrite Hfind in Hpe. specialize (Hpe (Hsub row ltac:(left)) (fun _ H => H) Hst).
  destruct (process_emails _ _ _ _) as [st2 [e|]]; cbn [fst snd] in *; [exact Hpe|].
  by apply IH.
Qed.

(** X17: every row the pipeline writes comes from a row of the input: its
    email is the cleaned form of a candidate found in that row's column
    [emails] and passes is_valid_email, and its title, category, address,
    website, phone and link are those of that row. *)
Theorem written_rows_come_from_input (input_file output_file : string)
    (input : option (list (gmap string string))) (r : new_row) :
  r ∈ written (improve_csv parse_amenities input_file input output_file).2 ->
  exists rows row, input = Some rows /\ row ∈ rows /\ made_from row r.
Proof.
  unfold improve_csv. destruct input as [rows|].
  - intros Hr. exists rows.
    pose proof (process_rows_made_from rows rows initial_pipeline_state
                  (fun _ H => H) (Forall_nil_2 _)) as Hall.
    assert (r ∈ written (process_rows parse_amenities rows initial_pipeline_state).1) as Hr'.
    { destruct (process_rows _ _ _) as [st [e|]]; exact Hr. }
    rewrite Forall_forall in Hall. destruct (Hall r Hr') as (row & Hrow & Hm).
    by exists row.
  - cbn. intros Hr. by apply elem_of_nil in Hr.
Qed.

End PipelineExtras.

(** ** Embedded JSON and links *)

Lemma json_get_raises (v : json) (key : string) (dflt : json) :
  (exists x, json_get v key dflt = Ok x /\ exists m, v = JObj m) \/
  (json_get v key dflt = Raise AttributeError /\ forall m, v <> JObj m).
Proof. destruct v; cbn; eauto. Qed.

(** X18: the address step lets an exception e escape exactly when the
    column is non-empty and either json.loads raises e on the cleaned text
    and e is not one that the handler catches (JSONDecodeError, TypeError),
    or the text decodes to a value other than an object (a list, a string,
    a number, true, false or null) and e is AttributeError. *)
Theorem parse_address_raises_iff (raw : option string) (e : exn) :
  parse_address raw = Raise e <->
  exists s, raw = Some s /\ s <> "" /\
    ((json_loads (clean_json_string s) = Raise e /\ caught_by_json_handler e = false) \/
     (e = AttributeError /\
      exists v, json_loads (clean_json_string s) = Ok v /\ forall m, v <> JObj m)).
Proof.
  unfold parse_address. split.
  - destruct raw as [s|]; [|discriminate].
    destruct (eqs s "") eqn:Hs; [discriminate|]. apply eqs_false in Hs.
    destruct (json_loads (clean_json_string s)) as [v|e'] eqn:Hload.
    + cbn [mbind result_bind].
      destruct (json_get_raises v "street" (JStr "")) as [(x & Hx & m & ->)|[Hx Hno]].
      * cbn. discriminate.
      * rewrite Hx. cbn. intros [= <-]. exists s. split; [done|]. split; [done|].
        right. split; [done|]. by exists v.
    + cbn [mbind result_bind]. destruct (caught_by_json_handler e') eqn:Hcaught;
        [discriminate|]. intros [= <-]. exists s. split; [done|]. split; [done|]. by left.
  - intros (s & -> & Hs & [[Hload Hcaught]|(-> & v & Hload & Hno)]);
      apply eqs_false in Hs; rewrite Hs, Hload; cbn [mbind result_bind].
    + by rewrite Hcaught.
    + destruct (json_get_raises v "street" (JStr "")) as [(x & Hx & m & ->)|[Hx _]].
      * by destruct (Hno m).
      * by rewrite Hx.
Qed.

Lemma take_until_all (stop : ascii -> bool) (l : list ascii) :
  Forall (fun c => stop c = false) l -> take_until stop l = (l, []).
Proof.
  induction l as [|c l IH]; intros Hl; [done|].
  apply Forall_cons in Hl as [Hc Hl]. cbn. by rewrite Hc, IH.
Qed.

(** X19: for a link on one line, the clean link is the link cut at its
    first [?] or [#]: a prefix of the link that contains neither. *)
Theorem clean_link_of_one_line (l : list ascii) :
  Forall (fun c => Ascii.eqb newline c = false) l ->
  strip_query l = (take_until is_query_start l).1 /\
  strip_query l `prefix_of` l /\
  Forall (fun c => is_query_start c = false) (strip_query l).
Proof.
  intros Hl.
  assert (strip_query l = (take_until is_query_start l).1) as Heq.
  { induction l as [|c l IH]; [done|].
    apply Forall_cons in Hl as [Hc Hl]. cbn [strip_query take_until].
    fold (is_query_start c). destruct (is_query_start c).
    - rewrite (take_until_all _ l Hl). done.
    - rewrite (IH Hl). by destruct (take_until is_query_start l). }
  rewrite Heq. clear Heq Hl. split; [done|].
  induction l as [|c l [IH1 IH2]]; [split; [done|constructor]|].
  cbn [take_until]. destruct (is_query_start c) eqn:Hc.
  - split; [apply prefix_nil|constructor].
  - destruct (take_until is_query_start l) as [a b]. cbn [fst] in *.
    split; [by apply prefix_cons|by constructor].
Qed.

(** ** The email patterns *)

Lemma run_length_take (p : ascii -> bool) (bound : option nat) (l : list ascii) (j : nat) :
  (j <= run_length p bound l)%nat ->
  Forall (fun c => p c = true) (take j l) /\ (j <= length l)%nat /\
  (forall h, bound = Some h -> (j <= h)%nat).
Proof.
  revert bound j. induction l as [|c l IH]; intros bound j Hj.
  - assert (run_length p bound [] = 0%nat) as H0 by (by destruct bound as [[|?]|]).
    rewrite H0 in Hj. assert (j = 0%nat) as -> by lia.
    repeat split; [constructor|done|lia].
  - destruct j as [|j]; [repeat split; [constructor|cbn; lia|lia]|].
    assert (p c = true /\ (j <= run_length p (pred <$> bound) l)%nat /\
            (forall h, bound = Some h -> (1 <= h)%nat)) as (Hc & Hr & Hb).
    { destruct bound as [b|]; [destruct b as [|h]|]; cbn in Hj; try lia;
        destruct (p c); cbn in *; try lia;
        (split; [done|]); (split; [lia|]); intros h' Hh'; inversion Hh'; lia. }
    destruct (IH _ _ Hr) as (I1 & I2 & I3).
    cbn [take length]. split; [by constructor|]. split; [lia|].
    intros h Hh. subst bound. specialize (Hb h eq_refl). specialize (I3 (pred h) eq_refl). lia.
Qed.

Lemma try_down_found {R} (k : list ascii -> option R) (l : list ascii) (i lowest : nat)
    (r : R) :
  try_down k l i lowest = Some r ->
  exists j, (j <= i)%nat /\ (j = i \/ (lowest <= j)%nat) /\ k (drop j l) = Some r.
Proof.
  induction i as [|i IH]; cbn [try_down].
  - destruct (k (drop 0 l)) eqn:Hk; [|discriminate].
    intros [= <-]. exists 0%nat. eauto.
  - destruct (k (drop (S i) l)) eqn:Hk.
    + intros [= <-]. exists (S i). eauto.
    + destruct (lowest <=? i)%nat eqn:Hlow; [|discriminate].
      intros Hr. destruct (IH Hr) as (j & Hj & Hor & Hkj).
      exists j. split; [lia|]. split; [|exact Hkj]. right.
      apply Nat.leb_le in Hlow. destruct Hor; lia.
Qed.

(** What the matcher finds is a match: the text is one segment per atom,
    followed by a rest on which the final condition holds. *)
Lemma match_atoms_sound (atoms : list atom) (final : list ascii -> bool)
    (l rest : list ascii) :
  match_atoms atoms final l = Some rest ->
  exists segs, segments atoms segs /\ l = (concat segs ++ rest)%list /\ final rest = true.
Proof.
  revert l. induction atoms as [|a atoms IH]; intros l; cbn [match_atoms].
  - destruct (final l) eqn:Hf; [|discriminate]. intros [= <-]. by exists [].
  - destruct (run_length (cls a) (hi a) l <? lo a)%nat eqn:Hlo; [discriminate|].
    apply Nat.ltb_ge in Hlo. intros Hm.
    apply try_down_found in Hm as (j & Hj & Hor & Hk).
    destruct (IH _ Hk) as (segs & Hsegs & Hl & Hfin).
    destruct (run_length_take (cls a) (hi a) l j Hj) as (Hall & Hlen & Hhi).
    exists (take j l :: segs). split; [|split; [|exact Hfin]].
    + cbn [segments]. rewrite length_take.
      split; [exact Hall|]. split; [destruct Hor; lia|]. split; [|exact Hsegs].
      intros h Hh. specialize (Hhi h Hh). lia.
    + cbn [concat]. rewrite <- app_assoc, <- Hl. by rewrite take_drop.
Qed.

Lemma one_segment (c : ascii) (seg : list ascii) :
  Forall (fun d => Ascii.eqb c d = true) seg -> (1 <= length seg)%nat ->
  (forall h, Some 1%nat = Some h -> (length seg <= h)%nat) -> seg = [c].
Proof.
  intros Hall Hlo Hhi. specialize (Hhi 1%nat eq_refl).
  destruct seg as [|d [|? ?]]; cbn in *; try lia.
  apply Forall_cons in Hall as [Hd _]. apply Ascii.eqb_eq in Hd. by subst.
Qed.

(** A match of either email pattern has the shape local@domain.tld. *)
Lemma email_pattern_shape (last : ascii -> bool) (final : list ascii -> bool)
    (l rest : list ascii) :
  match_atoms
    [at_least 1 local_class; one "@"; at_least 1 domain_class; one "."; at_least 2 last]
    final l = Some rest ->
  exists body, l = (body ++ rest)%list /\ email_shaped last body /\ final rest = true.
Proof.
  intros Hm. apply match_atoms_sound in Hm as (segs & Hsegs & -> & Hfin).
  destruct segs as [|s1 [|s2 [|s3 [|s4 [|s5 [|? ?]]]]]]; cbn [segments] in Hsegs; try tauto.
  destruct Hsegs as (H1 & L1 & _ & H2 & L2 & U2 & H3 & L3 & _ & H4 & L4 & U4
                     & H5 & L5 & _ & _).
  pose proof (one_segment "@"%char s2 H2 L2 U2) as ->.
  pose proof (one_segment "."%char s4 H4 L4 U4) as ->. exists (s1 ++ "@"%char :: s3 ++ "."%char :: s5)%list.
  split; [cbn; by rewrite app_nil_r, <- !app_assoc|]. split; [|exact Hfin].
  exists s1, s3, s5. repeat split; try done.
  - intros ->. cbn in L1. lia.
  - intros ->. cbn in L3. lia.
Qed.

Lemma findall_fuel_shape (fuel : nat) (l : list ascii) (c : string) :
  c ∈ findall_fuel fuel permissive_pattern l ->
  exists before after,
    l = (before ++ chars c ++ after)%list /\ email_shaped is_alnum (chars c).
Proof.
  revert l. induction fuel as [|fuel IH]; intros l; cbn [findall_fuel].
  - intros Hc. by apply elem_of_nil in Hc.
  - destruct l as [|x l]; [intros Hc; by apply elem_of_nil in Hc|].
    destruct (match_atoms permissive_pattern (fun _ => true) (x :: l)) as [rest|] eqn:Hm.
    + apply email_pattern_shape in Hm as (body & Hl & Hshape & _).
      assert (take (length (x :: l) - length rest) (x :: l) = body) as Htake.
      { rewrite Hl, length_app. replace (length body + length rest - length rest)%nat
          with (length body) by lia. by rewrite take_app_length. }
      rewrite Htake. intros Hc. apply elem_of_cons in Hc as [->|Hc].
      * exists [], rest. rewrite Hl.
        assert (chars (of_chars body) = body) as ->.
        { clear. induction body as [|b body IHb]; [done|]. cbn. by rewrite IHb. }
        split; [done|exact Hshape].
      * destruct (IH _ Hc) as (before & after & Hrest & Hs).
        exists (body ++ before)%list, after. rewrite Hl, Hrest.
        split; [by rewrite <- app_assoc|exact Hs].
    + intros Hc. destruct (IH _ Hc) as (before & after & Hrest & Hs).
      exists (x :: before), after. by rewrite Hrest.
Qed.

(** X20: every candidate that the pipeline extracts from a text is a piece
    of that text of the shape local@domain.tld: a non-empty local part and
    a non-empty domain in their character classes, and a last part of at
    least two letters or digits.  In particular it holds one [@] and no
    space, comma or other separator. *)
Theorem candidates_are_email_shaped (s c : string) :
  c ∈ re_findall permissive_pattern s ->
  exists before after,
    chars s = (before ++ chars c ++ after)%list /\ email_shaped is_alnum (chars c).
Proof. apply findall_fuel_shape. Qed.

Lemma of_chars_chars (s : string) : of_chars (chars s) = s.
Proof. induction s as [|c s IH]; [done|]. cbn. by rewrite IH. Qed.

Lemma chars_of_chars (l : list ascii) : chars (of_chars l) = l.
Proof. induction l as [|c l IH]; [done|]. cbn. by rewrite IH. Qed.

Lemma length_of_chars (l : list ascii) : String.length (of_chars l) = length l.
Proof. induction l as [|c l IH]; [done|]. cbn. by rewrite IH. Qed.

Lemma split_char_without (c : ascii) (l : list ascii) :
  Forall (fun d => Ascii.eqb c d = false) l ->
  split_char c (of_chars l) = [of_chars l].
Proof.
  induction l as [|d l IH]; intros Hl; [done|].
  apply Forall_cons in Hl as [Hd Hl]. cbn. by rewrite Hd, (IH Hl).
Qed.

Lemma split_char_first (c : ascii) (a b : list ascii) :
  Forall (fun d => Ascii.eqb c d = false) a ->
  split_char c (of_chars (a ++ c :: b)) = of_chars a :: split_char c (of_chars b).
Proof.
  induction a as [|d a IH]; intros Ha.
  - cbn. by rewrite Ascii.eqb_refl.
  - apply Forall_cons in Ha as [Hd Ha]. cbn. by rewrite Hd, (IH Ha).
Qed.

Lemma split_char_last (c : ascii) (a b : list ascii) :
  Forall (fun d => Ascii.eqb c d = false) b ->
  exists p ps, split_char c (of_chars (a ++ c :: b)) = (p :: ps ++ [of_chars b])%list.
Proof.
  intros Hb. induction a as [|d a (p & ps & IH)].
  - exists "", []. cbn. by rewrite Ascii.eqb_refl, (split_char_without c b Hb).
  - cbn. rewrite IH. destruct (Ascii.eqb c d).
    + by exists "", (p :: ps).
    + by exists (String d p), ps.
Qed.

Lemma local_class_not_at (d : ascii) : local_class d = true -> Ascii.eqb "@" d = false.
Proof. destruct (Ascii.eqb_spec "@"%char d) as [<-|]; [by vm_compute|done]. Qed.

Lemma domain_class_not_at (d : ascii) : domain_class d = true -> Ascii.eqb "@" d = false.
Proof. destruct (Ascii.eqb_spec "@"%char d) as [<-|]; [by vm_compute|done]. Qed.

Lemma is_alpha_plain (d : ascii) :
  is_alpha d = true ->
  Ascii.eqb "@" d = false /\ Ascii.eqb "." d = false /\ is_digit d = false.
Proof.
  destruct d as [[] [] [] [] [] [] [] []]; vm_compute; intros H; try discriminate; done.
Qed.

Lemma at_end_plain (rest : list ascii) :
  at_end rest = true ->
  Forall (fun d => Ascii.eqb "@" d = false) rest /\
  Forall (fun d => Ascii.eqb "." d = false) rest.
Proof.
  destruct rest as [|c [|? ?]]; cbn [at_end]; try discriminate.
  - intros _. split; constructor.
  - intros Hc. apply Ascii.eqb_eq in Hc. subst c.
    split; (apply Forall_cons; split; [by vm_compute|apply Forall_nil_2]).
Qed.

(** After the strict pattern has matched, none of the checks of lines 50-60
    (two non-empty parts around [@], a last dot-segment of two characters or
    more that is not a number) can fail. *)
Lemma strict_match_passes_checks (e : string) :
  re_match strict_pattern e = true ->
  exists local domain,
    split_char "@" e = [local; domain] /\
    eqs local "" = false /\ eqs domain "" = false /\
    (length (split_char "." domain) <? 2)%nat = false /\
    eqs (List.last (split_char "." domain) "") "" = false /\
    (String.length (List.last (split_char "." domain) "") <? 2)%nat = false /\
    isdigit (List.last (split_char "." domain) "") = false.
Proof.
  unfold re_match. intros Hm. apply bool_decide_eq_true in Hm as [rest Hm].
  apply email_pattern_shape in Hm as (body & Hl & Hshape & Hend).
  destruct Hshape as (L & D & T & -> & HL & HLc & HD & HDc & HT & HTc).
  destruct (at_end_plain rest Hend) as [Hrat Hrdot].
  assert (Forall (fun d => Ascii.eqb "@" d = false) L) as HLat.
  { eapply Forall_impl; [exact HLc|]. apply local_class_not_at. }
  assert (Forall (fun d => Ascii.eqb "@" d = false) (D ++ "."%char :: T ++ rest)) as Hdom_at.
  { apply Forall_app. split.
    - eapply Forall_impl; [exact HDc|]. apply domain_class_not_at.
    - constructor; [done|]. apply Forall_app. split; [|exact Hrat].
      eapply Forall_impl; [exact HTc|]. intros d Hd. by apply is_alpha_plain. }
  assert (Forall (fun d => Ascii.eqb "." d = false) (T ++ rest)) as Htld_dot.
  { apply Forall_app. split; [|exact Hrdot].
    eapply Forall_impl; [exact HTc|]. intros d Hd. by apply is_alpha_plain. }
  exists (of_chars L), (of_chars (D ++ "."%char :: T ++ rest)).
  assert (e = of_chars (L ++ "@"%char :: D ++ "."%char :: T ++ rest)) as ->.
  { rewrite <- (of_chars_chars e), Hl. f_equal.
    by repeat (rewrite <- app_assoc; cbn [app]). }
  split.
  { rewrite (split_char_first "@" L _ HLat). by rewrite (split_char_without "@" _ Hdom_at). }
  split; [apply eqs_false; by destruct L|].
  split; [apply eqs_false; by destruct D|].
  destruct (split_char_last "." D (T ++ rest) Htld_dot) as (p & ps & ->).
  change (p :: ps ++ [of_chars (T ++ rest)])%list
    with ((p :: ps) ++ [of_chars (T ++ rest)])%list.
  rewrite List.last_last.
  destruct T as [|t1 [|t2 T]]; cbn in HT; try lia.
  apply Forall_cons in HTc as [Ht1 _]. apply is_alpha_plain in Ht1 as (_ & _ & Ht1).
  split; [rewrite length_app; cbn [length]; apply Nat.ltb_ge; lia|].
  split; [by apply eqs_false|].
  split; [rewrite length_of_chars; cbn [app length]; apply Nat.ltb_ge; lia|].
  unfold isdigit. rewrite chars_of_chars. cbn [app forallb]. rewrite Ht1.
  by rewrite andb_false_r.
Qed.

Section ValidationExtras.
Context {py : PyStr}.

(** X21: is_valid_email is its length floor, its extension rule, its
    pattern and its placeholder rule, on the email decoded and stripped of
    spaces: the checks on the parts around [@] and on the last dot-segment
    (lines 50-60) never reject an email that the pattern accepted. *)
Theorem is_valid_email_by_pattern (email : string) :
  is_valid_email email
  = let e := remove_char " " (strip (if str_in "%" email then unquote email else email)) in
    negb (eqs email "" || (String.length email <? 5)%nat)
    && negb (existsb (fun ext => endswith (lower e) ext) invalid_extensions)
    && re_match strict_pattern e
    && negb (existsb (fun generic => str_in generic (lower e)) generic_emails).
Proof.
  unfold is_valid_email. cbv zeta.
  destruct (eqs email "" || (String.length email <? 5)%nat); [done|].
  set (e := remove_char " " (strip _)).
  destruct (existsb (fun ext => endswith (lower e) ext) invalid_extensions); [done|].
  destruct (re_match strict_pattern e) eqn:Hm; [|done].
  destruct (strict_match_passes_checks e Hm) as (l & d & -> & -> & -> & H1 & H2 & H3 & ->).
  cbn [orb negb andb]. by rewrite H1, H2, H3.
Qed.

End ValidationExtras.

(** ** The wheelchair flag *)

Section AmenitiesExtras.
Context {py : PyStr}.
Variable num_is_one : string -> bool.

Lemma scan_options_raises (options : list json) (e : exn) :
  scan_options num_is_one options = Raise e -> e = AttributeError.
Proof.
  induction options as [|o options IH]; [discriminate|]. cbn [scan_options].
  destruct o; cbn; try (by intros [= <-]).
  destruct (json_is_str _ _); [|exact IH].
  destruct (equals_True _ _); [discriminate|exact IH].
Qed.

Lemma scan_items_exception (items : list json) (found : bool) (e : exn) :
  (scan_items num_is_one items found).2 = Some e -> e = AttributeError \/ e = TypeError.
Proof.
  revert found. induction items as [|item items IH]; intros found; [discriminate|].
  cbn [scan_items]. destruct item as [| | | | |m]; try apply IH.
  cbn [json_get]. destruct (json_is_str _ _); [|apply IH].
  destruct (default (JArr []) _) as [| | |s|l|m'] eqn:Hopt; cbn [mbind result_bind iterate];
    try (cbn; intros [= <-]; by right).
  all: destruct (scan_options num_is_one _) as [hit|e'] eqn:Hscan;
    [apply IH|cbn; intros [= <-]; left; by eapply scan_options_raises].
Qed.

(** X22: the wheelchair flag is 'Oui' or 'Non'; an exception escapes its
    computation only as AttributeError (an option that is not an object),
    or as an exception of json.loads that the handler (JSONDecodeError,
    TypeError) does not catch.  A column that is absent or empty, that
    spells null in any case, on which json.loads raises an exception that
    the handler catches, or that decodes to anything but a non-empty list
    gives 'Non'. *)
Theorem parse_amenities_outcomes (row : gmap string string) :
  (parse_amenities num_is_one row = Ok "Oui" \/
   parse_amenities num_is_one row = Ok "Non" \/
   parse_amenities num_is_one row = Raise AttributeError \/
   exists e, json_loads (clean_json_string (dict_get row "about" "")) = Raise e /\
             caught_by_json_handler e = false /\
             parse_amenities num_is_one row = Raise e) /\
  (dict_get row "about" "" = "" \/ lower (dict_get row "about" "") = "null" \/
   (exists e, json_loads (clean_json_string (dict_get row "about" "")) = Raise e /\
              caught_by_json_handler e = true) \/
   (exists v, json_loads (clean_json_string (dict_get row "about" "")) = Ok v /\
              forall item items, v <> JArr (item :: items)) ->
   parse_amenities num_is_one row = Ok "Non").
Proof.
  unfold parse_amenities. split.
  - destruct (negb _ && negb _ && negb _); [|by right; left].
    destruct (json_loads _) as [v|e] eqn:Hload.
    + destruct v as [| | | |[|item items]|]; try (by right; left).
      pose proof (scan_items_exception (item :: items) false) as Hexc.
      destruct (scan_items num_is_one (item :: items) false) as [found [e|]]; cbn [snd] in Hexc.
      * destruct (Hexc e eq_refl) as [-> | ->]; cbn; [by right; right; left|].
        destruct found; [by left|by right; left].
      * destruct found; [by left|by right; left].
    + destruct (caught_by_json_handler e) eqn:Hcaught; [by right; left|].
      right. right. right. by exists e.
  - intros [Hempty|[Hnull|[(e & Hload & Hcaught)|(v & Hload & Hshape)]]].
    + rewrite Hempty. done.
    + rewrite Hnull. change (eqs "null" "null") with true. cbn [negb].
      by rewrite andb_false_r.
    + destruct (negb _ && negb _ && negb _); [|done].
      by rewrite Hload, Hcaught.
    + destruct (negb _ && negb _ && negb _); [|done].
      rewrite Hload. destruct v as [| | | |[|item items]|]; try done.
      by destruct (Hshape item items).
Qed.

Lemma scan_options_well_shaped (options : list json) :
  Forall (fun o => exists m, o = JObj m) options ->
  scan_options num_is_one options = Ok (existsb (is_parking_option num_is_one) options).
Proof.
  induction options as [|o options IH]; intros Hall; [done|].
  apply Forall_cons in Hall as [[m ->] Hall]. cbn [scan_options existsb is_parking_option].
  cbn [json_get mbind result_bind].
  destruct (json_is_str _ accessible_parking); cbn [andb orb]; [|by apply IH].
  destruct (equals_True _ _); cbn [orb]; [done|by apply IH].
Qed.

Lemma scan_items_well_shaped (items : list json) (found : bool) :
  Forall well_shaped_item items ->
  scan_items num_is_one items found
  = (found || existsb (offers_parking num_is_one) items, None).
Proof.
  revert found. induction items as [|item items IH]; intros found Hall.
  - cbn. by rewrite orb_false_r.
  - apply Forall_cons in Hall as [Hitem Hall]. cbn [scan_items existsb].
    destruct item as [| | | | |m]; cbn [offers_parking orb]; try (by apply IH).
    unfold well_shaped_item in Hitem. cbn [json_get] in *.
    destruct (json_is_str _ "accessibility") eqn:Hid; cbn [andb orb].
    + destruct (Hitem eq_refl) as (l & -> & Hl).
      cbn [mbind result_bind iterate]. rewrite (scan_options_well_shaped l Hl).
      rewrite (IH _ Hall). by rewrite orb_assoc.
    + rewrite (IH _ Hall). by destruct (default (JArr []) _).
Qed.

(** X23: on a column that decodes to a non-empty list of groups of the
    expected shape, the flag is 'Oui' exactly when some group with id
    "accessibility" holds an option named "Parking accessible en fauteuil
    roulant" whose enabled value equals True; nothing is raised. *)
Theorem parse_amenities_on_groups (row : gmap string string) (item : json)
    (items : list json) :
  dict_get row "about" "" <> "" ->
  lower (dict_get row "about" "") <> "null" ->
  json_loads (clean_json_string (dict_get row "about" "")) = Ok (JArr (item :: items)) ->
  Forall well_shaped_item (item :: items) ->
  parse_amenities num_is_one row
  = Ok (if existsb (offers_parking num_is_one) (item :: items) then "Oui" else "Non").
Proof.
  intros Hne Hnull Hload Hshape. unfold parse_amenities.
  apply eqs_false in Hne, Hnull. rewrite Hne, Hnull. cbn [negb andb].
  rewrite Hload, (scan_items_well_shaped _ false Hshape). done.
Qed.

End AmenitiesExtras.

(** ** The addresses a run reports on *)

Section JournalExtras.
Context {py : PyStr} {pu : PyUrl}.
Variable crawler_cfg : crawler_config.
Variable api_cfg : api_config.
Variable w : world.

Lemma journal_ok_snoc (P : string -> Prop) (j : list log_event) (ev : log_event) :
  journal_ok P j -> (forall e, event_recipient ev = Some e -> P e) ->
  journal_ok P (j ++ [ev]).
Proof. intros Hj Hev. apply Forall_app. split; [exact Hj|]. by constructor. Qed.

Lemma traiter_email_journal (P : string -> Prop) (dry_run cache_lettres : bool)
    (email : string) (info : input_row) (nom : option string) (st : run_state) :
  P email -> journal_ok P (journal st) ->
  journal_ok P (journal (traiter_email crawler_cfg api_cfg w dry_run cache_lettres
                           (email, info, nom) st).1).
Proof.
  intros HP Hj. unfold traiter_email, envoyer_email_avec_cv, enregistrer.
  repeat match goal with
         | |- context [match ?x with _ => _ end] =>
             lazymatch x with
             | context [match _ with _ => _ end] => fail
             | _ => destruct x
             end
         end;
    cbn; repeat (apply journal_ok_snoc); try exact Hj; cbn;
    try (intros ? [= <-]; exact HP); try (intros ? [=]).
Qed.

Lemma run_tasks_journal (P : string -> Prop) (dry_run cache_lettres : bool)
    (tasks : list task) (st : run_state) :
  Forall (fun t : task => P t.1.1) tasks -> journal_ok P (journal st) ->
  journal_ok P (journal (run_tasks crawler_cfg api_cfg w dry_run cache_lettres tasks st).1).
Proof.
  intros Htasks. revert st. induction Htasks as [|[[email info] nom] tasks Ht _ IH];
    intros st Hj; [exact Hj|].
  cbn [run_tasks].
  pose proof (traiter_email_journal P dry_run cache_lettres email info nom st Ht Hj) as Hstep.
  destruct (traiter_email _ _ _ _ _ _ _) as [st1 [e|]]; [exact Hstep|].
  by apply IH.
Qed.

Lemma build_tasks_journal (rows0 rows : list input_row) (rp ef : Z)
    (acc : list task) (st : run_state) :
  (forall row, row ∈ rows -> row ∈ rows0) ->
  journal_ok (sendable rows0) (journal st) ->
  Forall (fun t : task => sendable rows0 t.1.1) acc ->
  let res := build_tasks rows rp ef acc st in
  journal_ok (sendable rows0) (journal res.2) /\
  Forall (fun t : task => sendable rows0 t.1.1) res.1.2.
Proof.
  revert rp ef acc st. induction rows as [|row rows IH]; intros rp ef acc st Hsub Hj Hacc.
  - by split.
  - assert (forall r, r ∈ rows -> r ∈ rows0) as Hsub'
      by (intros r Hr; apply Hsub; by right).
    cbn [build_tasks]. cbv zeta.
    destruct (row_get row "email" "") as [cell|] eqn:Hcell.
    + destruct (negb (eqs cell "") && str_in "@" cell) eqn:Hat.
      * apply andb_true_iff in Hat as [_ Hat].
        destruct (str_in "sentry" (lower (strip cell))) eqn:Hsentry.
        -- apply IH; [exact Hsub'| |exact Hacc].
           apply journal_ok_snoc; [exact Hj|]. intros e [=].
        -- assert (sendable rows0 (strip cell)) as Hok.
           { split; [exact Hsentry|]. exists row, cell. split; [apply Hsub; by left|done]. }
           apply IH; [exact Hsub'| |].
           ++ apply journal_ok_snoc; [exact Hj|]. by intros e [= <-].
           ++ apply Forall_app. split; [exact Hacc|]. by constructor.
      * apply IH; [exact Hsub'| |exact Hacc].
        apply journal_ok_snoc; [exact Hj|]. intros e [=].
    + apply IH; [exact Hsub'| |exact Hacc].
      apply journal_ok_snoc; [exact Hj|]. intros e [=].
Qed.

(** X24: every address that a run reports as prepared, already sent,
    simulated, mailed, failed or recorded is the stripped column "email" of
    a row of the input in which it holds an at sign, and does not contain
    "sentry" in any case: a run never writes to a sentry address, nor to an
    address that is not in its input. *)
Theorem run_reports_only_input_addresses (input_file : string)
    (input : option (list input_row)) (dry_run cache_lettres : bool)
    (f : option csv_file) (ev : log_event) (e : string) :
  ev ∈ journal (process_csv_and_send_emails crawler_cfg api_cfg w input_file input
                  dry_run cache_lettres f) ->
  event_recipient ev = Some e ->
  sendable (default [] input) e.
Proof.
  intros Hev He.
  assert (journal_ok (sendable (default [] input))
            (journal (process_csv_and_send_emails crawler_cfg api_cfg w input_file input
                        dry_run cache_lettres f))) as Hall.
  { unfold process_csv_and_send_emails. destruct input as [rows|]; cbn [default].
    - assert (forall st, journal_ok (sendable rows) (journal st) ->
                journal_ok (sendable rows)
                  (journal
                     (let '(rows_processed, emails_found, tasks, st0) :=
                        build_tasks rows 0 0 [] st in
                      match run_tasks crawler_cfg api_cfg w dry_run cache_lettres tasks st0 with
                      | (st1, None) =>
                          logging (LogSummary rows_processed emails_found (emails_sent st1)
                                     (emails_skipped st1)) st1
                      | (st1, Some e) => logging (LogProcessingError e) st1
                      end))) as Hproceed.
      { intros st Hj.
        pose proof (build_tasks_journal rows rows 0 0 [] st (fun _ H => H) Hj
                      (Forall_nil_2 _)) as Hbuild.
        destruct (build_tasks rows 0 0 [] st) as [[[rp ef] tasks] st0].
        cbv zeta in Hbuild. cbn [fst snd] in Hbuild. destruct Hbuild as [Hj0 Htasks].
        pose proof (run_tasks_journal _ dry_run cache_lettres tasks st0 Htasks Hj0) as Hrun.
        destruct (run_tasks _ _ _ _ _ _ _) as [st1 [exc|]]; cbn [fst] in Hrun;
          (apply journal_ok_snoc; [exact Hrun|intros ? [=]]). }
      cbv zeta. destruct (w_cv_exists w); [apply Hproceed; constructor|].
      destruct (eqs _ _).
      + apply Hproceed. apply (journal_ok_snoc _ []); [constructor|intros ? [=]].
      + apply (journal_ok_snoc _ [_]); [|intros ? [=]].
        apply (journal_ok_snoc _ []); [constructor|intros ? [=]].
    - cbv zeta. destruct (w_cv_exists w); [|destruct (eqs _ _)]; cbn;
        unfold journal_ok; repeat (apply Forall_cons_2; [by intros ? [=]|]);
        apply Forall_nil_2. }
  unfold journal_ok in Hall. rewrite Forall_forall in Hall. by apply (Hall ev).
Qed.

End JournalExtras.

(** ** The theorems above at concrete inputs *)

Lemma lookup_case_insensitive_witness :
  verifier_email_deja_envoye (py := ascii_py) (suivi acme_dry_run1) "Contact@ACME.fr" "x"
  = verifier_email_deja_envoye (py := ascii_py) (suivi acme_dry_run1) "contact@acme.fr" "X" /\
  (verifier_email_deja_envoye (py := ascii_py) (suivi acme_dry_run1)
     "contact@acme.fr" "X").1 = true.
Proof.
  split.
  - apply (lookup_case_insensitive (py := ascii_py)); reflexivity.
  - vm_compute. reflexivity.
Defined.

Lemma short_row_hides_later_entries_witness :
  (verifier_email_deja_envoye (py := ascii_py)
     (Some [suivi_header; row_of_entry bob_entry; ["oops"];
            ["contact@acme.fr"; "Acme"; "2024-09-11 08:00:00"]])
     "contact@acme.fr" "Acme").1 = false.
Proof.
  apply (short_row_hides_later_entries (py := ascii_py) [bob_entry] "oops"
           [["contact@acme.fr"; "Acme"; "2024-09-11 08:00:00"]] "contact@acme.fr" "Acme").
  - intros y Hy. apply list_elem_of_singleton in Hy. subst y.
    intros [H|H]; vm_compute in H; discriminate.
  - vm_compute. discriminate.
Defined.

Lemma generation_succeeds_after_rate_limits_witness :
  generer_lettre_motivation (py := ascii_py) (pu := simple_url) default_crawler default_api
    small_site flaky_api (fun texte _ => texte) acme_row 0
  = (Ok "Bonjour", 3%nat).
Proof.
  apply (generation_succeeds_after_rate_limits (py := ascii_py) (pu := simple_url)
           default_crawler default_api small_site flaky_api (fun texte _ => texte)
           acme_row 0 2 "Bonjour").
  - reflexivity.
  - vm_compute. reflexivity.
  - intros [|[|i]] Hi; [reflexivity|reflexivity|lia].
  - reflexivity.
Defined.


Lemma second_task_of_category_makes_no_request_witness :
  let st1 :=
    (traiter_email (py := ascii_py) (pu := simple_url) default_crawler default_api
       hostile_world true true ("contact@acme.fr", acme_line, Some "Acme")
       (initial_state None)).1 in
  let st2 :=
    (traiter_email (py := ascii_py) (pu := simple_url) default_crawler default_api
       hostile_world true true ("rh@beta.fr", short_line, None) st1).1 in
  ("Informatique" ∈ dom (lettres_cache st1)) /\ posts st2 = posts st1.
Proof.
  apply (second_task_of_category_makes_no_request (py := ascii_py) (pu := simple_url)
           default_crawler default_api hostile_world true
           "contact@acme.fr" "rh@beta.fr" "Acme" "Informatique" None acme_line short_line
           (initial_state None)).
  - discriminate.
  - reflexivity.
  - reflexivity.
  - reflexivity.
Defined.

Lemma nothing_sent_after_dry_run_witness :
  emails_sent acme_dry_run2 = 0 /\ mails acme_dry_run2 = 0%nat /\
  posts acme_dry_run2 = 0%nat /\ emails_skipped acme_dry_run2 = 1 /\
  suivi acme_dry_run2 = suivi acme_dry_run1.
Proof.
  apply (nothing_sent_after_dry_run (py := ascii_py) (pu := simple_url) default_crawler
           default_api hostile_world hostile_world "in.csv" [acme_line] true true true None);
    [reflexivity|reflexivity|].
  constructor; [|constructor]. by exists "Acme".
Defined.

Lemma run_records_fresh_pairs_witness :
  exists (slog' : send_log) (added : list SendLogEntry),
    suivi (process_csv_and_send_emails (py := ascii_py) (pu := simple_url) default_crawler
             default_api hostile_world "in.csv" (Some [acme_line; beta_row]) true true
             (file_of_log (Some [bob_entry])))
    = file_of_log slog' /\
    log_entries slog' = (log_entries (Some [bob_entry]) ++ added)%list /\
    fresh_entries (py := ascii_py) (log_entries (Some [bob_entry])) added.
Proof.
  apply (run_records_fresh_pairs (py := ascii_py) (pu := simple_url) default_crawler
           default_api hostile_world "in.csv" (Some [acme_line; beta_row]) true true
           (Some [bob_entry])).
  constructor; [by exists "Acme"|]. constructor; [by exists "Beta"|]. constructor.
Defined.

Lemma crawl_stays_on_site_witness :
  exists st,
    crawl (py := ascii_py) (pu := simple_url) default_crawler small_site "http://a.fr" = Ok st /\
    ("http://a.fr/about" ∈ visited_urls st) /\
    on_site (py := ascii_py) (pu := simple_url) "http://a.fr" "a.fr" "http://a.fr/about".
Proof.
  eexists. split; [vm_compute; reflexivity|].
  assert ("http://a.fr/about" ∈ visited_urls
            (crawl_while (py := ascii_py) (pu := simple_url) default_crawler small_site
               (Z.to_nat (max_depth default_crawler)) "http://a.fr" "a.fr" {[ "http://a.fr" ]} 0
               {| results := empty_site_info; visited_urls := ∅; next_depth_urls := ∅ |}))
    as Hin by (vm_compute; reflexivity).
  split; [exact Hin|].
  exact (crawl_stays_on_site (py := ascii_py) (pu := simple_url) default_crawler small_site
           "http://a.fr" "http" "a.fr" "" _ eq_refl eq_refl "http://a.fr/about" Hin).
Defined.

Lemma crawler_result_capped_witness :
  exists r,
    crawler_site_entreprise (py := ascii_py) (pu := simple_url) default_crawler rich_site
      "http://a.fr" = Ok r /\
    length (valeurs r) = 5%nat /\ length (expertises r) = 5%nat /\
    length (projets r) = 3%nat /\
    NoDup (valeurs r) /\ NoDup (expertises r) /\ NoDup (projets r).
Proof.
  eexists. split; [vm_compute; reflexivity|].
  match goal with
  | |- length (valeurs ?r) = _ /\ _ =>
      pose proof (crawler_result_capped (py := ascii_py) (pu := simple_url) default_crawler
                    rich_site "http://a.fr" r ltac:(vm_compute; reflexivity))
        as ((_ & Hv) & (_ & He) & (_ & Hp))
  end.
  split; [reflexivity|]. split; [reflexivity|]. split; [reflexivity|].
  split; [exact Hv|]. split; [exact He|exact Hp].
Defined.

Lemma crawl_of_unreachable_site_witness :
  crawler_site_entreprise (py := ascii_py) (pu := simple_url) default_crawler dead_site
    "http://a.fr" = Ok empty_site_info.
Proof.
  destruct (proj1 (crawl_of_unreachable_site (py := ascii_py) (pu := simple_url)
                     default_crawler dead_site "http://a.fr"
                     ltac:(intros v p; unfold dead_site; destruct (eqs v "http://a.fr");
                           discriminate)))
    as [Hrun|[e He]]; [exact Hrun|].
  vm_compute in He. discriminate He.
Defined.

Lemma crawl_limits_at_edge_witness :
  exists st,
    crawl (py := ascii_py) (pu := simple_url) one_level small_site "http://a.fr" = Ok st /\
    visited_urls st ⊆ {[ "http://a.fr" ]}.
Proof.
  eexists. split; [vm_compute; reflexivity|].
  apply (proj2 (crawl_limits_at_edge (py := ascii_py) (pu := simple_url) one_level small_site
                  "http://a.fr" "http" "a.fr" "" _ eq_refl eq_refl)).
  vm_compute. discriminate.
Defined.

Lemma pipeline_counts_witness :
  let res := improve_csv (py := ascii_py) (fun _ => Ok "Non") "in.csv" (Some [acme_lead])
               "out.csv" in
  rows_processed res.2 = 1 /\ emails_found res.2 = 1 /\ emails_rejected res.2 = 0 /\
  printed res.2 = [PrintDone 1 1 0; PrintSaved "out.csv"].
Proof.
  cbv zeta.
  destruct (pipeline_counts (py := ascii_py) (fun _ => Ok "Non") "in.csv" "out.csv"
              [acme_lead]) as (H1 & H2 & H3 & _); [vm_compute; reflexivity|].
  split; [exact H1|]. split; [rewrite H2; vm_compute; reflexivity|].
  split; [|vm_compute; reflexivity].
  vm_compute. reflexivity.
Defined.

Lemma written_rows_come_from_input_witness :
  exists r,
    written (improve_csv (py := ascii_py) (fun _ => Ok "Non") "in.csv" (Some [acme_lead])
               "out.csv").2 = [r] /\
    exists rows row,
      Some [acme_lead] = Some rows /\ row ∈ rows /\ made_from (py := ascii_py) row r.
Proof.
  assert (exists r,
            written (improve_csv (py := ascii_py) (fun _ => Ok "Non") "in.csv"
                       (Some [acme_lead]) "out.csv").2 = [r]) as [r Hr]
    by (vm_compute; eexists; reflexivity).
  exists r. split; [exact Hr|].
  apply (written_rows_come_from_input (py := ascii_py) (fun _ => Ok "Non") "in.csv" "out.csv").
  rewrite Hr. apply list_elem_of_here.
Defined.

Lemma clean_link_of_one_line_witness :
  strip_query (chars "https://maps.x/place?hl=fr#top") = chars "https://maps.x/place".
Proof.
  rewrite (proj1 (clean_link_of_one_line (chars "https://maps.x/place?hl=fr#top")
                    ltac:(vm_compute; repeat constructor))).
  reflexivity.
Defined.

Lemma candidates_are_email_shaped_witness :
  exists before after,
    chars "write to bob@b.fr now" = (before ++ chars "bob@b.fr" ++ after)%list /\
    email_shaped is_alnum (chars "bob@b.fr").
Proof.
  apply (candidates_are_email_shaped "write to bob@b.fr now" "bob@b.fr").
  vm_compute. apply list_elem_of_here.
Defined.

Lemma parse_amenities_on_groups_witness :
  parse_amenities (py := ascii_py) (fun text => eqs text "1") accessible_row = Ok "Oui".
Proof.
  rewrite (parse_amenities_on_groups (py := ascii_py) (fun text => eqs text "1")
             accessible_row accessible_group []).
  - reflexivity.
  - vm_compute. discriminate.
  - vm_compute. discriminate.
  - vm_compute. reflexivity.
  - constructor; [|constructor]. intros _. eexists. split; [reflexivity|].
    constructor; [|constructor]. eexists. reflexivity.
Defined.

Lemma run_reports_only_input_addresses_witness :
  sendable (py := ascii_py) [acme_line] "contact@acme.fr".
Proof.
  apply (run_reports_only_input_addresses (py := ascii_py) (pu := simple_url)
           default_crawler default_api hostile_world "in.csv" (Some [acme_line]) true true
           None (LogDryRun "contact@acme.fr")).
  - vm_compute. apply list_elem_of_further, list_elem_of_here.
  - reflexivity.
Defined.
